(** * ccutils: export normaliser, schema inspector and star-schema keys

    A shallow embedding of
      - [src/ccutils/parsers/claude_ai.py]       (module [ClaudeAi]),
      - [src/ccutils/parsers/schema_inspector.py] (module [SchemaInspector]),
    and, modelled from the specification because their sources are not part
    of the tree, of the dimension key generator and of the session summary
    of the star-schema ETL (module [StarSchema]).

    Python values are an inductive type; a function that can raise returns a
    [result], and exceptions are propagated in the order Python evaluates. *)

From Stdlib Require Import ZArith List String Ascii Bool Lia.
Import ListNotations.
Open Scope string_scope.

Set Warnings "-register-all".

(* ================================================================== *)
(** * Python values and built-ins *)
(* ================================================================== *)

Module Py.

(** Dictionary keys.  What [json.load] produces only has [str] keys; the
    inspector also builds counters keyed by [None]. *)
Inductive key : Type :=
| KNone
| KStr (s : string).

Coercion KStr : string >-> key.

(** The values the two parsers handle.  A [str] is a [string] whose
    characters stand for code points (below 256); a [float] is kept as its
    binary64 bit pattern, no code path looks inside it except truthiness.
    A dict is its list of items in insertion order; Python keeps the keys
    of a dict pairwise distinct. *)
Inductive value : Type :=
| VNone
| VBool (b : bool)
| VInt (z : Z)
| VFloat (bits : Z)
| VStr (s : string)
| VList (xs : list value)
| VTuple (xs : list value)
| VDict (items : list (key * value)).

Definition dict : Type := list (key * value).

(** The exceptions met.  The interpreter's limit on the depth of calls is
    not part of the embedding: [RecursionError] is what a recursion
    bounded by fuel gives when the fuel is spent, and the statements
    below on what a function returns or raises are about the runs that
    stay within the interpreter's limit. *)
Inductive exn : Type :=
| AttributeError
| TypeError
| KeyError
| IndexError
| RecursionError
| FileNotFoundError (msg : string)
| JSONDecodeError (msg : string)
| ValueError (msg : string)
| UnicodeDecodeError (msg : string)
| OSError (msg : string).

Inductive result (A : Type) : Type :=
| Ok (a : A)
| Raise (e : exn).

Arguments Ok {A} a.
Arguments Raise {A} e.

Definition bind {A B} (m : result A) (f : A -> result B) : result B :=
  match m with
  | Ok a => f a
  | Raise e => Raise e
  end.

Fixpoint mapM {A B} (f : A -> result B) (xs : list A) : result (list B) :=
  match xs with
  | [] => Ok []
  | x :: xs' =>
      bind (f x) (fun y => bind (mapM f xs') (fun ys => Ok (y :: ys)))
  end.

Definition key_eqb (a b : key) : bool :=
  match a, b with
  | KNone, KNone => true
  | KStr s, KStr t => String.eqb s t
  | _, _ => false
  end.

(** [v == s] for a [str] literal [s]. *)
Definition eq_str (v : value) (s : string) : bool :=
  match v with
  | VStr t => String.eqb t s
  | _ => false
  end.

(** [bool(v)]. *)
Definition truthy (v : value) : bool :=
  match v with
  | VNone => false
  | VBool b => b
  | VInt z => negb (Z.eqb z 0)
  | VFloat bits => negb (Z.eqb bits 0 || Z.eqb bits (2 ^ 63))
  | VStr s => negb (String.eqb s "")
  | VList xs | VTuple xs => negb (Nat.eqb (List.length xs) 0)
  | VDict items => negb (Nat.eqb (List.length items) 0)
  end.

Fixpoint lookup (k : key) (d : dict) : option value :=
  match d with
  | [] => None
  | (k', v) :: d' => if key_eqb k k' then Some v else lookup k d'
  end.

(** [d.get(k)] and [d.get(k, default)] on a dict. *)
Definition get (d : dict) (k : key) : value :=
  match lookup k d with
  | Some v => v
  | None => VNone
  end.

Definition get_or (d : dict) (k : key) (default : value) : value :=
  match lookup k d with
  | Some v => v
  | None => default
  end.

(** [d[k] = v]: an existing key keeps its position, a new one goes last. *)
Fixpoint dict_set (k : key) (v : value) (d : dict) : dict :=
  match d with
  | [] => [(k, v)]
  | (k', v') :: d' =>
      if key_eqb k k' then (k', v) :: d' else (k', v') :: dict_set k v d'
  end.

(** [obj.get(k, default)] on an arbitrary value: only a dict has [.get]. *)
Definition py_get (obj : value) (k : key) (default : value) : result value :=
  match obj with
  | VDict d => Ok (get_or d k default)
  | _ => Raise AttributeError
  end.

Definition key_value (k : key) : value :=
  match k with
  | KNone => VNone
  | KStr s => VStr s
  end.

Fixpoint chars (s : string) : list value :=
  match s with
  | EmptyString => []
  | String c s' => VStr (String c EmptyString) :: chars s'
  end.

(** What [for x in v] enumerates. *)
Definition iter (v : value) : result (list value) :=
  match v with
  | VList xs | VTuple xs => Ok xs
  | VDict items => Ok (map (fun kv => key_value (fst kv)) items)
  | VStr s => Ok (chars s)
  | VNone | VBool _ | VInt _ | VFloat _ => Raise TypeError
  end.

(** [len(v)]. *)
Definition len (v : value) : result nat :=
  match v with
  | VList xs | VTuple xs => Ok (List.length xs)
  | VDict items => Ok (List.length items)
  | VStr s => Ok (String.length s)
  | VNone | VBool _ | VInt _ | VFloat _ => Raise TypeError
  end.

End Py.

Import Py.

Declare Scope py_scope.
Delimit Scope py_scope with py.
Notation "x <- m ;; k" := (bind m (fun x => k))
  (at level 61, m at next level, right associativity) : py_scope.
Open Scope py_scope.

(* ================================================================== *)
(** * src/ccutils/parsers/claude_ai.py *)
(* ================================================================== *)

Module ClaudeAi.

Definition convert_content_block (block : dict) : value :=
  let block_type := get block "type" in
  if eq_str block_type "text" then
    VDict [ (KStr "type", VStr "text");
            (KStr "text", get_or block "text" (VStr "")) ]
  else if eq_str block_type "thinking" then
    let result := [ (KStr "type", VStr "thinking");
                    (KStr "thinking", get_or block "thinking" (VStr "")) ] in
    if truthy (get block "summaries")
    then VDict (dict_set "_summaries" (get block "summaries") result)
    else VDict result
  else if eq_str block_type "tool_use" then
    VDict [ (KStr "type", VStr "tool_use");
            (KStr "id", get block "id");
            (KStr "name", get_or block "name" (VStr ""));
            (KStr "input", get_or block "input" (VDict [])) ]
  else if eq_str block_type "tool_result" then
    VDict [ (KStr "type", VStr "tool_result");
            (KStr "tool_use_id", get block "tool_use_id");
            (KStr "content", get_or block "content" (VStr ""));
            (KStr "is_error", get_or block "is_error" (VBool false)) ]
  else
    VDict ((KStr "type", block_type)
             :: filter (fun kv => negb (key_eqb (fst kv) "type")) block).

(** The loop body keeps the elements that are dicts, converted. *)
Fixpoint convert_blocks (blocks : list value) : list value :=
  match blocks with
  | [] => []
  | VDict block :: rest => convert_content_block block :: convert_blocks rest
  | _ :: rest => convert_blocks rest
  end.

Definition convert_message_to_logline (message session_id : value)
  : result dict :=
  sender <- py_get message "sender" (VStr "") ;;
  let msg_type := if eq_str sender "human" then VStr "user" else sender in
  content <- py_get message "content" (VList []) ;;
  blocks <- iter content ;;
  let content_blocks := convert_blocks blocks in
  created_at <- py_get message "created_at" (VStr "") ;;
  uuid <- py_get message "uuid" (VStr "") ;;
  Ok [ (KStr "type", msg_type);
       (KStr "timestamp", created_at);
       (KStr "sessionId", session_id);
       (KStr "uuid", uuid);
       (KStr "message", VDict [ (KStr "role", msg_type);
                                (KStr "content", VList content_blocks) ]) ].

Definition convert_conversation_to_loglines (conversation : value)
  : result (list dict) :=
  session_id <- py_get conversation "uuid" (VStr "") ;;
  chat_messages <- py_get conversation "chat_messages" (VList []) ;;
  messages <- iter chat_messages ;;
  mapM (fun message => convert_message_to_logline message session_id) messages.

(** A directory entry that exists: either [json.load] returns a value, or
    it raises [JSONDecodeError] with the message [msg].  A file on which
    [open] or [json.load] raises something else (a [UnicodeDecodeError]
    on bytes that are not UTF-8, a [ValueError] on an integer literal
    beyond the digit limit, a [RecursionError]) is not among these
    entries: the statements on the loader and the parser are stated by
    the outcome of each file, for the files of these two kinds. *)
Inductive file : Type :=
| JsonFile (v : value)
| MalformedFile (msg : string).

(** The entries of the export directory, by file name. *)
Definition directory : Type := string -> option file.

Definition json_load (f : file) : result value :=
  match f with
  | JsonFile v => Ok v
  | MalformedFile msg => Raise (JSONDecodeError msg)
  end.

Record bundle : Type := Bundle {
  conversations : value;
  projects : value;
  users : value;
  memories : value
}.

Definition not_found_message (export_path : string) : string :=
  "conversations.json not found in " ++ export_path ++ ". "
  ++ "This doesn't appear to be a valid Claude.ai export.".

Definition load_optional (dir : directory) (filename : string) : result value :=
  match dir filename with
  | Some f => json_load f
  | None => Ok (VList [])
  end.

(** [export_path] is [str(Path(export_path))]. *)
Definition load_export_files (export_path : string) (dir : directory)
  : result bundle :=
  match dir "conversations.json" with
  | None => Raise (FileNotFoundError (not_found_message export_path))
  | Some f =>
      conversations <- json_load f ;;
      projects <- load_optional dir "projects.json" ;;
      users <- load_optional dir "users.json" ;;
      memories <- load_optional dir "memories.json" ;;
      Ok (Bundle conversations projects users memories)
  end.

(** [block.get("type") != "thinking"] for the comprehension's filter. *)
Fixpoint without_thinking (content : list value) : result (list value) :=
  match content with
  | [] => Ok []
  | block :: rest =>
      block_type <- py_get block "type" VNone ;;
      kept <- without_thinking rest ;;
      Ok (if negb (eq_str block_type "thinking") then block :: kept else kept)
  end.

(** The body of [for logline in loglines] under [not include_thinking]. *)
Definition drop_thinking (logline : dict) : result dict :=
  content <- py_get (get_or logline "message" (VDict [])) "content" (VList []) ;;
  blocks <- iter content ;;
  kept <- without_thinking blocks ;;
  match lookup "message" logline with
  | None => Raise KeyError
  | Some (VDict message) =>
      Ok (dict_set "message"
            (VDict (dict_set "content" (VList kept) message)) logline)
  | Some _ => Raise TypeError
  end.

(** [conv_id not in conversation_ids]. *)
Definition not_in (conv_id : value) (conversation_ids : list string) : bool :=
  negb (existsb (eq_str conv_id) conversation_ids).

Fixpoint for_each_conversation (convs : list value)
    (conversation_ids : option (list string)) (include_thinking : bool)
    (all_loglines : list dict) : result (list dict) :=
  match convs with
  | [] => Ok all_loglines
  | conversation :: rest =>
      conv_id <- py_get conversation "uuid" (VStr "") ;;
      let skip := match conversation_ids with
                  | Some ids => not_in conv_id ids
                  | None => false
                  end in
      if skip
      then for_each_conversation rest conversation_ids include_thinking
             all_loglines
      else
        loglines <- convert_conversation_to_loglines conversation ;;
        loglines <- (if negb include_thinking
                     then mapM drop_thinking loglines
                     else Ok loglines) ;;
        for_each_conversation rest conversation_ids include_thinking
          (all_loglines ++ loglines)
  end.

Record export : Type := Export {
  loglines : list dict;
  metadata : dict
}.

Definition parse_claude_ai_export (export_path : string) (dir : directory)
    (conversation_ids : option (list string)) (include_thinking : bool)
  : result export :=
  data <- load_export_files export_path dir ;;
  convs <- iter (conversations data) ;;
  all_loglines <- for_each_conversation convs conversation_ids
                    include_thinking [] ;;
  count <- len (conversations data) ;;
  Ok (Export all_loglines
        [ (KStr "source", VStr "claude_ai_export");
          (KStr "export_path", VStr export_path);
          (KStr "projects", projects data);
          (KStr "memories", memories data);
          (KStr "users", users data);
          (KStr "conversation_count", VInt (Z.of_nat count)) ]).

End ClaudeAi.

(* ================================================================== *)
(** * Regular expressions, as [re.match] decides them *)
(* ================================================================== *)

Module Re.

Inductive regex : Type :=
| Empty
| Eps
| Chr (p : ascii -> bool)
| Cat (r s : regex)
| Alt (r s : regex)
| Star (r : regex).

Fixpoint nullable (r : regex) : bool :=
  match r with
  | Empty => false
  | Eps => true
  | Chr _ => false
  | Cat r s => nullable r && nullable s
  | Alt r s => nullable r || nullable s
  | Star _ => true
  end.

Definition cat (r s : regex) : regex :=
  match r, s with
  | Empty, _ => Empty
  | _, Empty => Empty
  | Eps, _ => s
  | _, _ => Cat r s
  end.

Definition alt (r s : regex) : regex :=
  match r, s with
  | Empty, _ => s
  | _, Empty => r
  | _, _ => Alt r s
  end.

(** Brzozowski derivative: what remains of [r] after reading [c]. *)
Fixpoint deriv (c : ascii) (r : regex) : regex :=
  match r with
  | Empty => Empty
  | Eps => Empty
  | Chr p => if p c then Eps else Empty
  | Cat r s => alt (cat (deriv c r) s) (if nullable r then deriv c s else Empty)
  | Alt r s => alt (deriv c r) (deriv c s)
  | Star r => cat (deriv c r) (Star r)
  end.

(** [re.match(r, s)] for a pattern without [$]: some prefix of [s] is in
    the language of [r]. *)
Fixpoint match_prefix (r : regex) (s : string) : bool :=
  nullable r ||
  match s with
  | EmptyString => false
  | String c s' => match_prefix (deriv c r) s'
  end.

Definition newline : ascii := ascii_of_nat 10.

(** [re.match(r + "$", s)]: without MULTILINE, [$] holds at the end of the
    string and just before a newline that ends it. *)
Fixpoint match_dollar (r : regex) (s : string) : bool :=
  match s with
  | EmptyString => nullable r
  | String c s' =>
      (nullable r && Ascii.eqb c newline && String.eqb s' "")
      || match_dollar (deriv c r) s'
  end.

Fixpoint rep (n : nat) (r : regex) : regex :=
  match n with
  | O => Eps
  | S n' => Cat r (rep n' r)
  end.

Definition plus (r : regex) : regex := Cat r (Star r).
Definition opt (r : regex) : regex := Alt r Eps.
Definition at_least (n : nat) (r : regex) : regex := Cat (rep n r) (Star r).
Definition lit (c : ascii) : regex := Chr (Ascii.eqb c).

Fixpoint str (s : string) : regex :=
  match s with
  | EmptyString => Eps
  | String c s' => Cat (lit c) (str s')
  end.

Fixpoint seq (rs : list regex) : regex :=
  match rs with
  | [] => Eps
  | r :: rs' => Cat r (seq rs')
  end.

Definition between (lo hi c : ascii) : bool :=
  (nat_of_ascii lo <=? nat_of_ascii c)%nat
  && (nat_of_ascii c <=? nat_of_ascii hi)%nat.

Definition one_of (s : string) (c : ascii) : bool :=
  existsb (Ascii.eqb c) (list_ascii_of_string s).

(** [\d]; below code point 256 the decimal digits are [0-9]. *)
Definition digit (c : ascii) : bool := between "0" "9" c.
Definition lower (c : ascii) : bool := between "a" "z" c.
Definition upper (c : ascii) : bool := between "A" "Z" c.
Definition alpha (c : ascii) : bool := lower c || upper c.
Definition alnum (c : ascii) : bool := alpha c || digit c.
(** [[0-9a-f]] under [re.I]. *)
Definition hex_i (c : ascii) : bool :=
  digit c || between "a" "f" c || between "A" "F" c.

End Re.

(* ================================================================== *)
(** * src/ccutils/parsers/schema_inspector.py *)
(* ================================================================== *)

From Stdlib Require Import DecimalString.

Module SchemaInspector.

Import Re.

Definition infer_type (value : value) : string :=
  match value with
  | VNone => "null"
  | VBool _ => "boolean"
  | VInt _ => "integer"
  | VFloat _ => "number"
  | VStr _ => "string"
  | VList _ => "array"
  | VDict _ => "object"
  | VTuple _ => "tuple"
  end.

(** r"^[0-9a-f]{8}-[0-9a-f]{4}-[0-9a-f]{4}-[0-9a-f]{4}-[0-9a-f]{12}$", re.I *)
Definition uuid_re : regex :=
  seq [ rep 8 (Chr hex_i); lit "-"; rep 4 (Chr hex_i); lit "-";
        rep 4 (Chr hex_i); lit "-"; rep 4 (Chr hex_i); lit "-";
        rep 12 (Chr hex_i) ].

(** r"^\d{4}-\d{2}-\d{2}$" *)
Definition date_re : regex :=
  seq [ rep 4 (Chr digit); lit "-"; rep 2 (Chr digit); lit "-";
        rep 2 (Chr digit) ].

(** r"^\d{4}-\d{2}-\d{2}T\d{2}:\d{2}:\d{2}" *)
Definition iso8601_re : regex :=
  seq [ date_re; lit "T"; rep 2 (Chr digit); lit ":"; rep 2 (Chr digit);
        lit ":"; rep 2 (Chr digit) ].

(** r"^https?://" *)
Definition url_re : regex :=
  seq [ str "http"; opt (lit "s"); str "://" ].

(** r"^[a-zA-Z0-9._%+-]+@[a-zA-Z0-9.-]+\.[a-zA-Z]{2,}$" *)
Definition email_re : regex :=
  seq [ plus (Chr (fun c => alnum c || one_of "._%+-" c)); lit "@";
        plus (Chr (fun c => alnum c || one_of ".-" c)); lit ".";
        at_least 2 (Chr alpha) ].

(** r"^[a-z_]+$" *)
Definition enum_re : regex :=
  plus (Chr (fun c => lower c || Ascii.eqb c "_")).

Definition classify_string (value : string) : dict :=
  let length := VInt (Z.of_nat (String.length value)) in
  if match_dollar uuid_re value then
    [ (KStr "_type", VStr "string"); (KStr "_format", VStr "uuid");
      (KStr "_length", length) ]
  else if match_prefix iso8601_re value then
    [ (KStr "_type", VStr "string"); (KStr "_format", VStr "iso8601");
      (KStr "_length", length) ]
  else if match_dollar date_re value then
    [ (KStr "_type", VStr "string"); (KStr "_format", VStr "date");
      (KStr "_length", length) ]
  else if String.eqb value "true" || String.eqb value "false" then
    [ (KStr "_type", VStr "string"); (KStr "_format", VStr "boolean_string");
      (KStr "_length", length) ]
  else if match_prefix url_re value then
    [ (KStr "_type", VStr "string"); (KStr "_format", VStr "url");
      (KStr "_length", length) ]
  else if match_dollar email_re value then
    [ (KStr "_type", VStr "string"); (KStr "_format", VStr "email");
      (KStr "_length", length) ]
  else if (String.length value <=? 30)%nat && match_dollar enum_re value then
    [ (KStr "_type", VStr "string"); (KStr "_format", VStr "enum_like");
      (KStr "_length", length); (KStr "_example_pattern", VStr value) ]
  else
    [ (KStr "_type", VStr "string"); (KStr "_length", length) ].

(** ** [collections.Counter], [set], [sorted], [min], [max] *)

Fixpoint counter_add (k : key) (c : list (key * nat)) : list (key * nat) :=
  match c with
  | [] => [(k, 1%nat)]
  | (k', n) :: c' =>
      if key_eqb k k' then (k', S n) :: c' else (k', n) :: counter_add k c'
  end.

(** [Counter(ks)]: the distinct elements in order of first occurrence, with
    their multiplicities. *)
Definition Counter (ks : list key) : list (key * nat) :=
  fold_left (fun c k => counter_add k c) ks [].

(** [dict(counter)]. *)
Definition counter_dict (c : list (key * nat)) : value :=
  VDict (map (fun kn => (fst kn, VInt (Z.of_nat (snd kn)))) c).

(** The values counted and put into sets below are what [.get("_type")],
    [.get("_format")] return on a schema: a [str] or [None], as in every
    schema the inspector builds.  ([Counter] and [set] take any hashable
    value; the keys of the embedding are these two kinds, and any other
    value is refused here as an unhashable one is there.) *)
Definition as_key (v : value) : result key :=
  match v with
  | VNone => Ok KNone
  | VStr s => Ok (KStr s)
  | _ => Raise TypeError
  end.

Definition as_int (v : value) : result Z :=
  match v with
  | VInt z => Ok z
  | _ => Raise TypeError
  end.

Definition as_str (v : value) : result string :=
  match v with
  | VStr s => Ok s
  | _ => Raise TypeError
  end.

Definition min_list (z : Z) (zs : list Z) : Z := fold_left Z.min zs z.
Definition max_list (z : Z) (zs : list Z) : Z := fold_left Z.max zs z.

Fixpoint insert_sorted (s : string) (l : list string) : list string :=
  match l with
  | [] => [s]
  | t :: l' => if String.leb s t then s :: l else t :: insert_sorted s l'
  end.

(** [sorted(set(l))] on strings. *)
Definition sorted_set (l : list string) : list string :=
  fold_right insert_sorted [] (nodup string_dec l).

(** ** [f"{presence:.0%}"]

    [presence] is the binary64 quotient [count / total]; the format
    multiplies it by 100 in binary64 and prints the product rounded to an
    integer, ties to even.  Both roundings are computed exactly. *)

Definition round_half_even (num den : Z) : Z :=
  let q := (num / den)%Z in
  let r := (num mod den)%Z in
  if (2 * r <? den)%Z then q
  else if (den <? 2 * r)%Z then (q + 1)%Z
  else if Z.even q then q else (q + 1)%Z.

(** The binary64 nearest to [num / den] (both positive, the quotient in the
    normal range), as [(m, k)] for [m / 2 ^ k] with [m] of 53 bits. *)
Definition to_binary64 (num den : Z) : Z * Z :=
  let scaled (k : Z) : Z * Z :=
    if (0 <=? k)%Z then ((num * 2 ^ k)%Z, den) else (num, (den * 2 ^ (- k))%Z) in
  let k0 := (53 + Z.log2 den - Z.log2 num)%Z in
  let k := if (2 ^ 53 * snd (scaled k0) <=? fst (scaled k0))%Z
           then (k0 - 1)%Z else k0 in
  (round_half_even (fst (scaled k)) (snd (scaled k)), k).

Definition dyadic_fraction (x : Z * Z) : Z * Z :=
  let (m, k) := x in
  if (0 <=? k)%Z then (m, (2 ^ k)%Z) else ((m * 2 ^ (- k))%Z, 1%Z).

Definition format_percent (count total : nat) : string :=
  let presence := dyadic_fraction (to_binary64 (Z.of_nat count) (Z.of_nat total)) in
  let val := dyadic_fraction (to_binary64 (100 * fst presence) (snd presence)) in
  NilZero.string_of_uint (N.to_uint (Z.to_N (round_half_even (fst val) (snd val))))
  ++ "%".

(** ** The schema mergers *)

Definition key_truthy (k : key) : bool :=
  match k with
  | KNone => false
  | KStr s => negb (String.eqb s "")
  end.

(** [obj[k] = v] on an arbitrary value. *)
Definition set_item (obj : value) (k : key) (v : value) : result value :=
  match obj with
  | VDict d => Ok (VDict (dict_set k v d))
  | _ => Raise TypeError
  end.

Definition merge_string_schemas (schemas : list value) : result dict :=
  match schemas with
  | [] => Ok [ (KStr "_type", VStr "string") ]
  | _ :: _ =>
      format_keys <- mapM (fun s => f <- py_get s "_format" VNone ;; as_key f)
                       schemas ;;
      let formats := Counter format_keys in
      lengths <- mapM (fun s => l <- py_get s "_length" (VInt 0) ;; as_int l)
                   schemas ;;
      let result :=
        [ (KStr "_type", VStr "string");
          (KStr "_length_min", VInt (min_list (hd 0%Z lengths) (tl lengths)));
          (KStr "_length_max", VInt (max_list (hd 0%Z lengths) (tl lengths))) ] in
      let result :=
        match formats with
        | [(fmt, _)] =>
            if key_truthy fmt then dict_set "_format" (key_value fmt) result
            else result
        | [] => result
        | _ => dict_set "_formats" (counter_dict formats) result
        end in
      enum_values <-
        mapM (fun s => py_get s "_example_pattern" VNone)
          (filter (fun s =>
                     match s with
                     | VDict d => eq_str (get d "_format") "enum_like"
                                  && truthy (get d "_example_pattern")
                     | _ => false
                     end) schemas) ;;
      match enum_values with
      | [] => Ok result
      | _ :: _ =>
          values <- mapM as_str enum_values ;;
          let unique_values := sorted_set values in
          if (List.length unique_values <=? 10)%nat
          then Ok (dict_set "_enum_values" (VList (map VStr unique_values)) result)
          else Ok result
      end
  end.

Fixpoint append_key (key : key) (key_schema : value)
    (all_keys : list (Py.key * list value)) : list (Py.key * list value) :=
  match all_keys with
  | [] => [(key, [key_schema])]
  | (k, l) :: rest =>
      if key_eqb key k then (k, (l ++ [key_schema])%list) :: rest
      else (k, l) :: append_key key key_schema rest
  end.

(** The first loop of [merge_object_schemas]: [all_keys] and [key_counts]. *)
Definition collect_keys (schemas : list value)
  : result (list (key * list value) * list (key * nat)) :=
  fold_left
    (fun acc schema =>
       st <- acc ;;
       keys <- py_get schema "_keys" (VDict []) ;;
       match keys with
       | VDict items =>
           Ok (fold_left
                 (fun st kv => (append_key (fst kv) (snd kv) (fst st),
                                counter_add (fst kv) (snd st)))
                 items st)
       | _ => Raise AttributeError
       end)
    schemas (Ok ([], [])).

Definition count_of (k : key) (c : list (key * nat)) : nat :=
  match find (fun kn => key_eqb k (fst kn)) c with
  | Some kn => snd kn
  | None => O
  end.

(** Nesting depth of a value; it bounds the recursion of the merger. *)
Fixpoint depth (v : value) : nat :=
  match v with
  | VList xs | VTuple xs => S (fold_right (fun x d => Nat.max (depth x) d) O xs)
  | VDict items =>
      S (fold_right (fun kv d => Nat.max (depth (snd kv)) d) O items)
  | _ => O
  end.

Fixpoint merge_object_schemas_rec (fuel : nat) (schemas : list value)
  : result dict :=
  match fuel with
  | O => Raise RecursionError
  | S fuel' =>
      match schemas with
      | [] => Ok [ (KStr "_type", VStr "object"); (KStr "_keys", VDict []) ]
      | _ :: _ =>
          st <- collect_keys schemas ;;
          let all_keys := fst st in
          let key_counts := snd st in
          let total := List.length schemas in
          merged_keys <-
            fold_left
              (fun acc entry =>
                 merged_keys <- acc ;;
                 let key := fst entry in
                 let key_schemas := snd entry in
                 merged <-
                   match key_schemas with
                   | [only] => Ok only
                   | _ =>
                       types <- mapM (fun s => t <- py_get s "_type" VNone ;;
                                               as_key t) key_schemas ;;
                       match Counter types with
                       | [(t, _)] =>
                           if key_eqb t "string" then
                             m <- merge_string_schemas key_schemas ;; Ok (VDict m)
                           else if key_eqb t "object" then
                             m <- merge_object_schemas_rec fuel' key_schemas ;;
                             Ok (VDict m)
                           else Ok (hd VNone key_schemas)
                       | c => Ok (VDict [ (KStr "_type", VStr "mixed");
                                          (KStr "_types", counter_dict c) ])
                       end
                   end ;;
                 merged <-
                   (if (count_of key key_counts <? total)%nat
                    then set_item merged "_presence"
                           (VStr (format_percent (count_of key key_counts) total))
                    else Ok merged) ;;
                 Ok (dict_set key merged merged_keys))
              all_keys (Ok []) ;;
          Ok [ (KStr "_type", VStr "object"); (KStr "_keys", VDict merged_keys) ]
      end
  end.

Definition merge_object_schemas (schemas : list value) : result dict :=
  merge_object_schemas_rec (S (depth (VList schemas))) schemas.

(** ** [infer_schema] *)

(** Number of items of [obj[:n]] for a list of [len] items. *)
Definition slice_stop (n : Z) (len : nat) : nat :=
  if (0 <=? n)%Z then Nat.min (Z.to_nat n) len
  else Z.to_nat (Z.of_nat len + n).

Definition take_map {A B} (f : A -> B) : nat -> list A -> list B :=
  fix go (n : nat) (xs : list A) {struct xs} : list B :=
    match n, xs with
    | S n', x :: xs' => f x :: go n' xs'
    | _, _ => []
    end.

Definition sequence {A} (rs : list (result A)) : result (list A) :=
  mapM (fun r => r) rs.

Definition key_string (k : key) : string :=
  match k with
  | KNone => "None"
  | KStr s => s
  end.

(** The recursion is on the value.  On a value nested deeper than the
    interpreter lets calls nest, the function raises [RecursionError]
    where the embedding goes on: what is proved of its results holds of
    the runs within that limit. *)
Fixpoint infer_schema (obj : value) (max_array_samples : Z) (path : string)
    {struct obj} : result dict :=
  match obj with
  | VNone => Ok [ (KStr "_type", VStr "null") ]
  | VBool _ => Ok [ (KStr "_type", VStr "boolean") ]
  | VInt z =>
      Ok [ (KStr "_type", VStr "integer");
           (KStr "_example_range", VTuple [VInt z; VInt z]) ]
  | VFloat _ => Ok [ (KStr "_type", VStr "number") ]
  | VStr s => Ok (classify_string s)
  | VList xs =>
      let schema := [ (KStr "_type", VStr "array");
                      (KStr "_length", VInt (Z.of_nat (List.length xs))) ] in
      match xs with
      | [] => Ok (dict_set "_items" VNone schema)
      | _ :: _ =>
          item_schemas <-
            sequence
              (take_map
                 (fun item => infer_schema item max_array_samples (path ++ "[]"))
                 (slice_stop max_array_samples (List.length xs)) xs) ;;
          item_types <- mapM (fun s => as_key (get s "_type")) item_schemas ;;
          match Counter item_types with
          | [(t, _)] =>
              if key_eqb t "object" then
                m <- merge_object_schemas (map VDict item_schemas) ;;
                Ok (dict_set "_items" (VDict m) schema)
              else if key_eqb t "string" then
                m <- merge_string_schemas (map VDict item_schemas) ;;
                Ok (dict_set "_items" (VDict m) schema)
              else
                Ok (dict_set "_items" (VDict (hd [] item_schemas)) schema)
          | type_counts =>
              let schema := dict_set "_item_types" (counter_dict type_counts)
                              schema in
              match item_schemas with
              | [] => Raise IndexError
              | first :: _ => Ok (dict_set "_items" (VDict first) schema)
              end
          end
      end
  | VDict items =>
      keys <-
        sequence
          (map (fun kv =>
                  s <- infer_schema (snd kv) max_array_samples
                         (path ++ "." ++ key_string (fst kv)) ;;
                  Ok (fst kv, VDict s))
               items) ;;
      Ok [ (KStr "_type", VStr "object");
           (KStr "_keys",
            VDict (fold_left (fun d kv => dict_set (fst kv) (snd kv) d) keys [])) ]
  | VTuple _ => Ok [ (KStr "_type", VStr (infer_type obj)) ]
  end.

End SchemaInspector.

(* ================================================================== *)
(** * MD5 (RFC 1321), the digest behind [hashlib.md5] *)
(* ================================================================== *)

Module MD5.

Open Scope Z_scope.

Definition u32 (x : Z) : Z := x mod 2 ^ 32.
Definition not32 (x : Z) : Z := Z.lxor x 0xffffffff.
Definition rotl32 (x c : Z) : Z :=
  Z.lor (u32 (Z.shiftl x c)) (Z.shiftr x (32 - c)).

Definition K : list Z :=
  [
    0xd76aa478; 0xe8c7b756; 0x242070db; 0xc1bdceee;
    0xf57c0faf; 0x4787c62a; 0xa8304613; 0xfd469501;
    0x698098d8; 0x8b44f7af; 0xffff5bb1; 0x895cd7be;
    0x6b901122; 0xfd987193; 0xa679438e; 0x49b40821;
    0xf61e2562; 0xc040b340; 0x265e5a51; 0xe9b6c7aa;
    0xd62f105d; 0x02441453; 0xd8a1e681; 0xe7d3fbc8;
    0x21e1cde6; 0xc33707d6; 0xf4d50d87; 0x455a14ed;
    0xa9e3e905; 0xfcefa3f8; 0x676f02d9; 0x8d2a4c8a;
    0xfffa3942; 0x8771f681; 0x6d9d6122; 0xfde5380c;
    0xa4beea44; 0x4bdecfa9; 0xf6bb4b60; 0xbebfbc70;
    0x289b7ec6; 0xeaa127fa; 0xd4ef3085; 0x04881d05;
    0xd9d4d039; 0xe6db99e5; 0x1fa27cf8; 0xc4ac5665;
    0xf4292244; 0x432aff97; 0xab9423a7; 0xfc93a039;
    0x655b59c3; 0x8f0ccc92; 0xffeff47d; 0x85845dd1;
    0x6fa87e4f; 0xfe2ce6e0; 0xa3014314; 0x4e0811a1;
    0xf7537e82; 0xbd3af235; 0x2ad7d2bb; 0xeb86d391 ].

Definition shifts : list Z :=
  [ 7; 12; 17; 22; 7; 12; 17; 22; 7; 12; 17; 22; 7; 12; 17; 22;
    5; 9; 14; 20; 5; 9; 14; 20; 5; 9; 14; 20; 5; 9; 14; 20;
    4; 11; 16; 23; 4; 11; 16; 23; 4; 11; 16; 23; 4; 11; 16; 23;
    6; 10; 15; 21; 6; 10; 15; 21; 6; 10; 15; 21; 6; 10; 15; 21 ].

(** A character of the model is a code point below 256; UTF-8 writes the
    upper half on two bytes. *)
Fixpoint utf8 (s : string) : list Z :=
  match s with
  | EmptyString => []
  | String c s' =>
      let n := Z.of_nat (nat_of_ascii c) in
      if n <? 128 then n :: utf8 s'
      else Z.lor 0xc0 (Z.shiftr n 6) :: Z.lor 0x80 (Z.land n 0x3f) :: utf8 s'
  end.

Fixpoint le_bytes (count : nat) (x : Z) : list Z :=
  match count with
  | O => []
  | S count' => x mod 256 :: le_bytes count' (x / 256)
  end.

Fixpoint le_word (bytes : list Z) : Z :=
  match bytes with
  | [] => 0
  | b :: bytes' => b + 256 * le_word bytes'
  end.

(** Padding: a [0x80] byte, zeros up to 56 modulo 64, the bit length on
    eight bytes. *)
Definition pad (msg : list Z) : list Z :=
  let n := Z.of_nat (List.length msg) in
  let zeros := Z.to_nat ((55 - n) mod 64) in
  (msg ++ 0x80 :: repeat 0 zeros ++ le_bytes 8 ((8 * n) mod 2 ^ 64))%list.

Fixpoint chunks (count : nat) (bytes : list Z) : list (list Z) :=
  match count with
  | O => []
  | S count' => firstn 64 bytes :: chunks count' (skipn 64 bytes)
  end.

Fixpoint words (count : nat) (bytes : list Z) : list Z :=
  match count with
  | O => []
  | S count' => le_word (firstn 4 bytes) :: words count' (skipn 4 bytes)
  end.

Definition state : Type := Z * Z * Z * Z.

Definition round (M : list Z) (st : state) (i : nat) : state :=
  let '(A, B, C, D) := st in
  let j := Z.of_nat i in
  let '(F, g) :=
    if j <? 16 then (Z.lor (Z.land B C) (Z.land (not32 B) D), j)
    else if j <? 32 then
      (Z.lor (Z.land D B) (Z.land (not32 D) C), (5 * j + 1) mod 16)
    else if j <? 48 then (Z.lxor B (Z.lxor C D), (3 * j + 5) mod 16)
    else (Z.lxor C (Z.lor B (not32 D)), (7 * j) mod 16) in
  let F := u32 (F + A + nth i K 0 + nth (Z.to_nat g) M 0) in
  (D, u32 (B + rotl32 F (nth i shifts 0)), B, C).

Definition process (st : state) (chunk : list Z) : state :=
  let '(a0, b0, c0, d0) := st in
  let '(A, B, C, D) := fold_left (round (words 16 chunk)) (seq 0 64) st in
  (u32 (a0 + A), u32 (b0 + B), u32 (c0 + C), u32 (d0 + D)).

Definition init : state := (0x67452301, 0xefcdab89, 0x98badcfe, 0x10325476).

Definition digest (msg : list Z) : list Z :=
  let padded := pad msg in
  let '(A, B, C, D) :=
    fold_left process (chunks (List.length padded / 64) padded) init in
  (le_bytes 4 A ++ le_bytes 4 B ++ le_bytes 4 C ++ le_bytes 4 D)%list.

Definition hex_digit (n : Z) : ascii :=
  nth (Z.to_nat (n mod 16))
    (list_ascii_of_string "0123456789abcdef") "0"%char.

Fixpoint hex (bytes : list Z) : string :=
  match bytes with
  | [] => ""
  | b :: bytes' =>
      String (hex_digit (b / 16)) (String (hex_digit b) (hex bytes'))
  end.

(** [hashlib.md5(s.encode()).hexdigest()]. *)
Definition hexdigest (s : string) : string := hex (digest (utf8 s)).

End MD5.

(* ================================================================== *)
(** * Star schema: dimension keys and the session summary *)
(* ================================================================== *)

Module StarSchema.

Section Keys.

(** Modelled from the spec: the token that stands for a [None] component
    ([star_schema/utils.py] is not in the tree); the spec fixes only that it
    is a constant. *)
Variable sentinel : string.

Definition delimiter : string := "|".

Definition component (k : option string) : string :=
  match k with
  | Some s => s
  | None => sentinel
  end.

(** The string that is hashed: the components joined by the delimiter. *)
Definition key_string (natural_keys : list (option string)) : string :=
  String.concat delimiter (map component natural_keys).

(** Modelled from the spec: [generate_dimension_key] of
    [star_schema/utils.py], which is not in the tree.  The spec (4.6) gives
    the algorithm, [tests/test_star_schema.py] the delimiter and the digest:
    [generate_dimension_key("project", "/home/user")] is
    [hashlib.md5("project|/home/user".encode()).hexdigest()]. *)
Definition generate_dimension_key (natural_keys : list (option string))
  : string :=
  MD5.hexdigest (key_string natural_keys).

End Keys.

Record session_summary : Type := SessionSummary {
  total_messages : nat;
  user_messages : nat;
  assistant_messages : nat;
  total_tool_calls : nat;
  session_duration_seconds : Z
}.

(** The store, reduced to the table the summary goes to. *)
Record store : Type := Store {
  fact_session_summary : list session_summary
}.

(** The aggregates the loop over the loglines keeps. *)
Record running : Type := Running {
  messages : nat;
  from_user : nat;
  from_assistant : nat;
  tool_calls : nat;
  first_timestamp : option value;
  last_timestamp : option value
}.

Definition is_tool_use (block : value) : bool :=
  match block with
  | VDict b => eq_str (get b "type") "tool_use"
  | _ => false
  end.

(** The [tool_use] blocks of a logline; a message whose content is a plain
    string has none. *)
Definition tool_uses (logline : dict) : nat :=
  match get logline "message" with
  | VDict message =>
      match get message "content" with
      | VList blocks => List.length (filter is_tool_use blocks)
      | _ => O
      end
  | _ => O
  end.

Definition has_type (t : string) (logline : dict) : bool :=
  eq_str (get logline "type") t.

Definition observe (r : running) (logline : dict) : running :=
  let timestamp := get logline "timestamp" in
  Running (S (messages r))
    (if has_type "user" logline then S (from_user r) else from_user r)
    (if has_type "assistant" logline
     then S (from_assistant r) else from_assistant r)
    (tool_calls r + tool_uses logline)
    (match first_timestamp r with
     | Some t => Some t
     | None => Some timestamp
     end)
    (Some timestamp).

Section ETL.

(** Modelled from the spec: the reader of logline timestamps, giving the
    instant in microseconds, [None] for a timestamp it cannot parse
    ([star_schema/etl.py] is not in the tree). *)
Variable parse_timestamp : string -> option Z.

Definition instant (timestamp : option value) : option Z :=
  match timestamp with
  | Some (VStr s) => parse_timestamp s
  | _ => None
  end.

(** Whole seconds from [first] to [last], zero when either is unreadable. *)
Definition duration_seconds (first last : option value) : Z :=
  match instant first, instant last with
  | Some a, Some b => Z.quot (b - a) 1000000
  | _, _ => 0%Z
  end.

(** Modelled from the spec: the session summary of [run_star_schema_etl]
    ([star_schema/etl.py] is not in the tree), spec 4.8: the loop over the
    session's loglines, then one row appended to [fact_session_summary].
    The dimension rows and the other fact tables are left out. *)
Definition run_star_schema_etl (conn : store) (loglines : list dict) : store :=
  let r := fold_left observe loglines (Running 0 0 0 0 None None) in
  Store (fact_session_summary conn
           ++ [ SessionSummary (messages r) (from_user r) (from_assistant r)
                  (tool_calls r)
                  (duration_seconds (first_timestamp r) (last_timestamp r)) ]).

End ETL.

(** ** A timestamp reader for the fixture's format

    [YYYY-MM-DDTHH:MM:SS], an optional fraction of up to six digits, an
    optional [Z]. *)

Definition digit_value (c : ascii) : option Z :=
  if Re.digit c then Some (Z.of_nat (nat_of_ascii c) - 48)%Z else None.

Fixpoint number (count : nat) (acc : Z) (s : string) : option (Z * string) :=
  match count with
  | O => Some (acc, s)
  | S count' =>
      match s with
      | String c s' =>
          match digit_value c with
          | Some d => number count' (10 * acc + d)%Z s'
          | None => None
          end
      | EmptyString => None
      end
  end.

Definition expect (c : ascii) (s : string) : option string :=
  match s with
  | String c' s' => if Ascii.eqb c c' then Some s' else None
  | EmptyString => None
  end.

(** Days from 1970-01-01 to a proleptic Gregorian date. *)
Definition days_from_civil (y m d : Z) : Z :=
  let y := (if m <=? 2 then y - 1 else y)%Z in
  let era := (y / 400)%Z in
  let yoe := (y - era * 400)%Z in
  let doy := ((153 * (if m <=? 2 then m + 9 else m - 3) + 2) / 5 + d - 1)%Z in
  let doe := (yoe * 365 + yoe / 4 - yoe / 100 + doy)%Z in
  (era * 146097 + doe - 719468)%Z.

Fixpoint fraction (count : nat) (scale acc : Z) (s : string) : option Z :=
  match s with
  | EmptyString => Some (acc * scale)%Z
  | String c s' =>
      match digit_value c, count with
      | Some d, S count' => fraction count' (scale / 10) (10 * acc + d)%Z s'
      | Some _, O => None
      | None, _ => if String.eqb s "Z" then Some (acc * scale)%Z else None
      end
  end.

Definition opt_bind {A B} (m : option A) (f : A -> option B) : option B :=
  match m with
  | Some a => f a
  | None => None
  end.

Definition iso8601_micros (s : string) : option Z :=
  opt_bind (number 4 0 s) (fun '(y, s) =>
  opt_bind (expect "-" s) (fun s =>
  opt_bind (number 2 0 s) (fun '(m, s) =>
  opt_bind (expect "-" s) (fun s =>
  opt_bind (number 2 0 s) (fun '(d, s) =>
  opt_bind (expect "T" s) (fun s =>
  opt_bind (number 2 0 s) (fun '(hh, s) =>
  opt_bind (expect ":" s) (fun s =>
  opt_bind (number 2 0 s) (fun '(mm, s) =>
  opt_bind (expect ":" s) (fun s =>
  opt_bind (number 2 0 s) (fun '(ss, s) =>
  opt_bind (match s with
            | String "." s' => fraction 6 1000000 0 s'
            | _ => if String.eqb s "" || String.eqb s "Z" then Some 0%Z else None
            end) (fun us =>
  Some ((((days_from_civil y m d * 24 + hh) * 60 + mm) * 60 + ss) * 1000000
        + us)%Z)))))))))))).

End StarSchema.

(* ================================================================== *)
(** * Vocabulary of the statements *)
(* ================================================================== *)

Module Spec.

Import ClaudeAi.

Definition is_dict (v : value) : bool :=
  match v with
  | VDict _ => true
  | _ => false
  end.

(** [block.get("type")] of a content block. *)
Definition block_type (block : value) : value :=
  match block with
  | VDict b => get b "type"
  | _ => VNone
  end.

Definition is_thinking (block : value) : bool :=
  eq_str (block_type block) "thinking".

(** [logline["message"]["content"]], empty when there is none. *)
Definition content_of (logline : dict) : list value :=
  match lookup "message" logline with
  | Some (VDict message) =>
      match lookup "content" message with
      | Some (VList blocks) => blocks
      | _ => []
      end
  | _ => []
  end.






(** The value [msg_type] is bound to. *)
Definition msg_type_of (m : dict) : value :=
  if eq_str (get_or m "sender" (VStr "")) "human"
  then VStr "user" else get_or m "sender" (VStr "").

Definition is_iterable (v : value) : bool :=
  match iter v with
  | Ok _ => true
  | Raise _ => false
  end.

(** A message object: a dict whose content, when present, can be iterated. *)
Definition valid_message (m : value) : bool :=
  match m with
  | VDict d => is_iterable (get_or d "content" (VList []))
  | _ => false
  end.

(** A conversation object: a dict whose [chat_messages], when present, is
    an array of message objects. *)
Definition valid_conversation (c : value) : bool :=
  match c with
  | VDict d =>
      match get_or d "chat_messages" (VList []) with
      | VList ms => forallb valid_message ms
      | _ => false
      end
  | _ => false
  end.

(** The conversation passes the allowlist. *)
Definition included (conversation_ids : option (list string)) (c : value)
  : bool :=
  match conversation_ids, c with
  | None, _ => true
  | Some ids, VDict d => existsb (eq_str (get_or d "uuid" (VStr ""))) ids
  | Some _, _ => false
  end.

(** [len(conversation["chat_messages"])]. *)
Definition chat_messages_length (c : value) : nat :=
  match c with
  | VDict d =>
      match get_or d "chat_messages" (VList []) with
      | VList ms => List.length ms
      | _ => O
      end
  | _ => O
  end.

(** [stripped l' l]: [l'] is [l] with the thinking blocks taken out of its
    content, the other blocks in place and in order, and nothing else of
    the logline or of its message changed. *)
Definition stripped (l' l : dict) : Prop :=
  content_of l' = filter (fun b => negb (is_thinking b)) (content_of l)
  /\ (forall k, k <> KStr "message" -> lookup k l' = lookup k l)
  /\ (exists message' message,
        lookup "message" l' = Some (VDict message')
        /\ lookup "message" l = Some (VDict message)
        /\ forall k, k <> KStr "content" -> lookup k message' = lookup k message).

(** The messages of a conversation, each with the identifier of the
    conversation: what [for message in chat_messages] goes through. *)
Definition session_messages (c : value) : list (value * value) :=
  match c with
  | VDict d =>
      match iter (get_or d "chat_messages" (VList [])) with
      | Ok ms => map (fun m => (get_or d "uuid" (VStr ""), m)) ms
      | Raise _ => []
      end
  | _ => []
  end.

(** [appears p l]: the logline [l] is the message [snd p] of the
    conversation [fst p], normalised, less its thinking blocks. *)
Definition appears (p : value * value) (l : dict) : Prop :=
  exists full,
    convert_message_to_logline (snd p) (fst p) = Ok full /\ stripped l full.

(** The loglines the message normaliser can return. *)
Definition converted (logline : dict) : Prop :=
  exists message session_id,
    convert_message_to_logline message session_id = Ok logline.

(** Conversation and message identifiers of a logline. *)
Definition ids_of (logline : dict) : value * value :=
  (get logline "sessionId", get logline "uuid").

(** The identifiers of the messages of a conversation, in order: the
    conversation's [uuid] with each message's [uuid], [""] when absent. *)
Definition message_ids (c : value) : list (value * value) :=
  match c with
  | VDict d =>
      match get_or d "chat_messages" (VList []) with
      | VList ms =>
          map (fun m => (get_or d "uuid" (VStr ""),
                         match m with
                         | VDict md => get_or md "uuid" (VStr "")
                         | _ => VNone
                         end)) ms
      | _ => []
      end
  | _ => []
  end.

(** Deepest nesting among a list of values. *)
Definition max_depth (vs : list value) : nat :=
  fold_right (fun x d => Nat.max (SchemaInspector.depth x) d) O vs.

(** Every schema grouped under a key lies two levels below [n]. *)
Definition shallow (n : nat) (all_keys : list (key * list value)) : Prop :=
  forall k ks x,
    In (k, ks) all_keys -> In x ks -> (S (S (SchemaInspector.depth x)) <= n)%nat.






(** [str(e)] of a [json.JSONDecodeError] as CPython's decoder builds it,
    ["%s: line %d column %d (char %d)"]: one of the fixed phrases of its
    scanner, and the position of the fault in the document.  Nothing of
    the document is in it. *)
Definition decoder_causes : list string :=
  [ "Expecting value";
    "Expecting property name enclosed in double quotes";
    "Expecting ':' delimiter";
    "Expecting ',' delimiter";
    "Unterminated string starting at";
    "Invalid control character at";
    "Invalid \escape";
    "Invalid \uXXXX escape";
    "Extra data";
    "Unexpected UTF-8 BOM (decode using utf-8-sig)";
    "Illegal trailing comma before end of object";
    "Illegal trailing comma before end of array" ].

Definition decimal (n : nat) : string :=
  NilZero.string_of_uint (Nat.to_uint n).

Definition decoder_text (cause : string) (line column char : nat) : string :=
  cause ++ ": line " ++ decimal line ++ " column " ++ decimal column
  ++ " (char " ++ decimal char ++ ")".

Definition decoder_message (msg : string) : Prop :=
  exists cause line column char,
    In cause decoder_causes /\ msg = decoder_text cause line column char.

Definition delimiter_free (s : string) : bool :=
  forallb (fun c => negb (Ascii.eqb c "|")) (list_ascii_of_string s).

(** Component sequences on which joining loses nothing: at least one
    component, no delimiter inside a component, no component spelled like
    the sentinel. *)
Definition clean (sentinel : string) (ks : list (option string)) : bool :=
  negb (Nat.eqb (List.length ks) 0)
  && forallb (fun k => match k with
                       | None => true
                       | Some s => delimiter_free s && negb (String.eqb s sentinel)
                       end) ks.

(** The fields of a delimited string: the first one and the others. *)
Fixpoint fields (s : string) : string * list string :=
  match s with
  | EmptyString => (EmptyString, [])
  | String c s' =>
      let (f, r) := fields s' in
      if Ascii.eqb c "|" then (EmptyString, f :: r) else (String c f, r)
  end.

Definition lower_hex (c : ascii) : bool :=
  Re.digit c || Re.between "a" "f" c.

(** Two distinct strings with the same digest. *)
Definition md5_collision (x y : string) : Prop :=
  x <> y /\ MD5.hexdigest x = MD5.hexdigest y.

(** [logline["type"] == t]. *)
Definition of_type (t : string) (logline : dict) : bool :=
  match lookup "type" logline with
  | Some (VStr s) => String.eqb s t
  | _ => false
  end.

(** How many of the loglines are of type [t]. *)
Definition count_type (t : string) (loglines : list dict) : nat :=
  List.length (filter (of_type t) loglines).

(** How many [tool_use] blocks the contents of the loglines hold. *)
Definition count_tool_uses (loglines : list dict) : nat :=
  List.length
    (filter (fun block => eq_str (block_type block) "tool_use")
       (flat_map content_of loglines)).

Definition timestamp_of (logline : dict) : option value :=
  Some (get logline "timestamp").

(** Type, length and format class of a string leaf. *)
Definition same_string_class (s t : string) : bool :=
  Nat.eqb (String.length s) (String.length t)
  && match lookup "_format" (SchemaInspector.classify_string s),
           lookup "_format" (SchemaInspector.classify_string t) with
     | Some (VStr f), Some (VStr g) => String.eqb f g
     | None, None => true
     | _, _ => false
     end.

(** Two JSON values of identical structure: the same types, keys and array
    lengths, and string leaves of the same length and format class. *)
Fixpoint same_shape (a b : value) {struct a} : bool :=
  match a, b with
  | VNone, VNone => true
  | VBool _, VBool _ => true
  | VInt _, VInt _ => true
  | VFloat _, VFloat _ => true
  | VStr s, VStr t => same_string_class s t
  | VList xs, VList ys =>
      (fix go (xs ys : list value) {struct xs} : bool :=
         match xs, ys with
         | [], [] => true
         | x :: xs', y :: ys' => same_shape x y && go xs' ys'
         | _, _ => false
         end) xs ys
  | VDict ps, VDict qs =>
      (fix go (ps qs : list (key * value)) {struct ps} : bool :=
         match ps, qs with
         | [], [] => true
         | p :: ps', q :: qs' =>
             key_eqb (fst p) (fst q) && same_shape (snd p) (snd q) && go ps' qs'
         | _, _ => false
         end) ps qs
  | _, _ => false
  end.

(** What [json.load] can return: no tuple, no [None] key. *)
Fixpoint is_json (v : value) : bool :=
  match v with
  | VTuple _ => false
  | VList xs => forallb is_json xs
  | VDict ps =>
      forallb (fun p => match fst p with
                        | KStr _ => is_json (snd p)
                        | KNone => false
                        end) ps
  | _ => true
  end.

(** The instant of a logline in microseconds, when its timestamp is a
    string that the reader parses. *)
Definition read_timestamp (parse_timestamp : string -> option Z)
    (logline : dict) : option Z :=
  match lookup "timestamp" logline with
  | Some (VStr s) => parse_timestamp s
  | _ => None
  end.

(** The duration the summary is to hold: the whole seconds from the first
    logline's instant to the last one's, zero when one of the two is not
    read and zero without loglines. *)
Definition session_duration (parse_timestamp : string -> option Z)
    (loglines : list dict) : Z :=
  match loglines with
  | [] => 0%Z
  | first :: _ =>
      match read_timestamp parse_timestamp first,
            read_timestamp parse_timestamp (last loglines first) with
      | Some a, Some b => Z.quot (b - a) 1000000
      | _, _ => 0%Z
      end
  end.

End Spec.

(* ================================================================== *)
(** * Sample data, after the fixtures of the test suites *)
(* ================================================================== *)

Module Samples.

Import ClaudeAi.

Definition sample_text_block : value :=
  VDict [ (KStr "start_timestamp", VStr "2026-01-06T21:03:55.204746Z");
          (KStr "stop_timestamp", VStr "2026-01-06T21:03:55.204746Z");
          (KStr "flags", VNone);
          (KStr "type", VStr "text");
          (KStr "text", VStr "Hello, I need help with something.");
          (KStr "citations", VList []) ].

Definition sample_thinking_block : value :=
  VDict [ (KStr "start_timestamp", VStr "2026-01-06T21:03:57.539260Z");
          (KStr "stop_timestamp", VStr "2026-01-06T21:04:15.298243Z");
          (KStr "flags", VNone);
          (KStr "type", VStr "thinking");
          (KStr "thinking", VStr "Let me analyze this request carefully...");
          (KStr "summaries",
           VList [ VDict [ (KStr "summary", VStr "Analyzing the user request.") ];
                   VDict [ (KStr "summary",
                            VStr "Considering different approaches.") ] ]);
          (KStr "cut_off", VBool false);
          (KStr "alternative_display_type", VNone) ].

Definition sample_human_message : dict :=
  [ (KStr "uuid", VStr "019b951f-9af0-71be-86b2-5484cc86644c");
    (KStr "text", VStr "Hello, I need help with something.");
    (KStr "content", VList [sample_text_block]);
    (KStr "sender", VStr "human");
    (KStr "created_at", VStr "2026-01-06T21:03:55.210564Z");
    (KStr "updated_at", VStr "2026-01-06T21:03:55.210564Z");
    (KStr "attachments", VList []);
    (KStr "files", VList []) ].

Definition sample_assistant_message : dict :=
  [ (KStr "uuid", VStr "019b951f-9af0-71be-86b2-response123");
    (KStr "text", VStr "Hello, I need help with something.");
    (KStr "content", VList [sample_thinking_block; sample_text_block]);
    (KStr "sender", VStr "assistant");
    (KStr "created_at", VStr "2026-01-06T21:04:00.000000Z");
    (KStr "updated_at", VStr "2026-01-06T21:04:15.000000Z");
    (KStr "attachments", VList []);
    (KStr "files", VList []) ].

Definition sample_conversation : value :=
  VDict [ (KStr "uuid", VStr "d3dc7225-1cfd-4e73-90c4-9fc54cbf7f87");
          (KStr "name", VStr "Test conversation");
          (KStr "summary", VStr "A test conversation for unit tests");
          (KStr "created_at", VStr "2026-01-06T21:03:50.592817Z");
          (KStr "updated_at", VStr "2026-01-06T21:14:03.149457Z");
          (KStr "account", VDict [ (KStr "uuid", VStr "user-123");
                                   (KStr "full_name", VStr "Test User") ]);
          (KStr "chat_messages", VList [ VDict sample_human_message;
                                         VDict sample_assistant_message ]) ].

(** A message that has neither [uuid] nor [created_at], from an unknown
    sender. *)
Definition bare_message : dict :=
  [ (KStr "sender", VStr "system");
    (KStr "content", VList [sample_text_block]) ].

(** A message whose content is a string. *)
Definition string_content_message : dict :=
  [ (KStr "uuid", VStr "msg-1");
    (KStr "sender", VStr "human");
    (KStr "content", VStr "Hello");
    (KStr "created_at", VStr "2026-01-01T00:00:00Z") ].

(** The export directory of the test suite's [export_dir] fixture. *)
Definition export_dir : directory :=
  fun name =>
    if String.eqb name "conversations.json" then
      Some (JsonFile (VList [sample_conversation]))
    else if String.eqb name "projects.json" then
      Some (JsonFile (VList [ VDict [ (KStr "uuid", VStr "proj-123");
                                      (KStr "name", VStr "Test Project") ] ]))
    else if String.eqb name "users.json" then
      Some (JsonFile (VList [ VDict [ (KStr "uuid", VStr "user-123");
                                      (KStr "full_name", VStr "Test User") ] ]))
    else if String.eqb name "memories.json" then
      Some (JsonFile (VList [ VDict [ (KStr "account_uuid", VStr "user-123") ] ]))
    else None.

(** A directory with only [conversations.json]. *)
Definition conversations_only : directory :=
  fun name =>
    if String.eqb name "conversations.json"
    then Some (JsonFile (VList [sample_conversation]))
    else None.

Definition empty_dir : directory := fun _ => None.


(** What the parser returns on [export_dir] with thinking included. *)
Definition sample_export : export :=
  Eval vm_compute in
    match parse_claude_ai_export "/data/export" export_dir None true with
    | Ok r => r
    | Raise _ => Export [] []
    end.

(** Two records of one structure: an integer and a short lowercase word. *)
Definition ticket_a : value :=
  VDict [ (KStr "id", VInt 7); (KStr "status", VStr "active") ].

Definition ticket_b : value :=
  VDict [ (KStr "id", VInt 9); (KStr "status", VStr "closed") ].

(** The session of [sample_session_file] in [tests/test_star_schema.py]. *)
Definition session_logline (type uuid timestamp : string) (content : value)
  : dict :=
  [ (KStr "type", VStr type);
    (KStr "uuid", VStr uuid);
    (KStr "sessionId", VStr "session-123");
    (KStr "timestamp", VStr timestamp);
    (KStr "message", VDict [ (KStr "role", VStr type);
                             (KStr "content", content) ]) ].

Definition sample_session : list dict :=
  [ session_logline "user" "user-001" "2025-01-15T10:00:00.000Z"
      (VStr "Help me write a hello world program");
    session_logline "assistant" "asst-001" "2025-01-15T10:00:05.000Z"
      (VList [ VDict [ (KStr "type", VStr "text");
                       (KStr "text", VStr "I'll create that for you.") ];
               VDict [ (KStr "type", VStr "tool_use");
                       (KStr "id", VStr "tool-001");
                       (KStr "name", VStr "Write");
                       (KStr "input", VDict []) ] ]);
    session_logline "user" "user-002" "2025-01-15T10:00:10.000Z"
      (VList [ VDict [ (KStr "type", VStr "tool_result");
                       (KStr "tool_use_id", VStr "tool-001");
                       (KStr "content", VStr "File written successfully") ] ]);
    session_logline "assistant" "asst-002" "2025-01-15T10:00:15.000Z"
      (VList [ VDict [ (KStr "type", VStr "thinking");
                       (KStr "thinking",
                        VStr "The file was created. Let me verify it.") ];
               VDict [ (KStr "type", VStr "text");
                       (KStr "text", VStr "Let me verify the file.") ];
               VDict [ (KStr "type", VStr "tool_use");
                       (KStr "id", VStr "tool-002");
                       (KStr "name", VStr "Read");
                       (KStr "input", VDict []) ] ]);
    session_logline "user" "user-003" "2025-01-15T10:00:20.000Z"
      (VList [ VDict [ (KStr "type", VStr "tool_result");
                       (KStr "tool_use_id", VStr "tool-002");
                       (KStr "content", VStr "print('Hello, World!')") ] ]);
    session_logline "assistant" "asst-003" "2025-01-15T10:00:25.000Z"
      (VList [ VDict [ (KStr "type", VStr "text");
                       (KStr "text", VStr "Done!") ] ]) ].

(** A session whose last timestamp cannot be read. *)
Definition undated_session : list dict :=
  [ session_logline "user" "user-001" "2025-01-15T10:00:00.000Z"
      (VStr "Hello");
    session_logline "assistant" "asst-001" "yesterday"
      (VList [ VDict [ (KStr "type", VStr "text"); (KStr "text", VStr "Hi") ] ]) ].

End Samples.

(* ================================================================== *)
(** * More vocabulary: the normalisers and the parser *)
(* ================================================================== *)

Module SpecMore.

Import ClaudeAi Spec.

Definition keys_of (v : value) : list key :=
  match v with
  | VDict d => map fst d
  | _ => []
  end.

(** The block is a thinking block whose [summaries] are kept. *)
Definition has_summaries (block : dict) : bool :=
  eq_str (get block "type") "thinking" && truthy (get block "summaries").

(** One of the four types the block normaliser knows. *)
Definition known_type (t : value) : bool :=
  eq_str t "text" || eq_str t "thinking" || eq_str t "tool_use"
  || eq_str t "tool_result".

(** A conversation the normaliser accepts: an object whose [chat_messages],
    when present, can be iterated and yields message objects with iterable
    content. *)
Definition conversation_ok (c : value) : bool :=
  match c with
  | VDict d =>
      match iter (get_or d "chat_messages" (VList [])) with
      | Ok ms => forallb valid_message ms
      | Raise _ => false
      end
  | _ => false
  end.

End SpecMore.

(* ================================================================== *)
(** * More vocabulary: schemas *)
(* ================================================================== *)

Module SchemaSpec.

Import SchemaInspector.

(** The fields the string merger reads are of the types it expects: a
    format that is a [str] or absent, an [int] length, and a [str] pattern
    wherever an enum-like format comes with a pattern. *)
Definition string_schema_ok (d : dict) : bool :=
  match get d "_format" with
  | VNone | VStr _ => true
  | _ => false
  end
  && match get_or d "_length" (VInt 0) with
     | VInt _ => true
     | _ => false
     end
  && (negb (eq_str (get d "_format") "enum_like"
            && truthy (get d "_example_pattern"))
      || match get d "_example_pattern" with
         | VStr _ => true
         | _ => false
         end).

(** Schemas the mergers can work on: objects tagged with a type, a string
    schema with well-typed fields, an object schema whose [_keys] are such
    schemas in turn. *)
Inductive well_formed : value -> Prop :=
| wf_string (d : dict) :
    get d "_type" = VStr "string" ->
    string_schema_ok d = true ->
    well_formed (VDict d)
| wf_object (d : dict) (items : list (key * value)) :
    get d "_type" = VStr "object" ->
    get_or d "_keys" (VDict []) = VDict items ->
    (forall k v, In (k, v) items -> well_formed v) ->
    well_formed (VDict d)
| wf_other (d : dict) (t : string) :
    get d "_type" = VStr t ->
    t <> "string" -> t <> "object" ->
    well_formed (VDict d).

(** The characters of an enum-like word. *)
Definition word_char (c : ascii) : bool := Re.lower c || Ascii.eqb c "_".

(** Word characters up to the end, or up to a newline that ends the
    string. *)
Fixpoint word_tail (s : string) : bool :=
  match s with
  | EmptyString => true
  | String c s' =>
      (Ascii.eqb c Re.newline && String.eqb s' "")
      || (word_char c && word_tail s')
  end.

(** A non-empty run of [a-z_], with at most a final newline after it. *)
Definition enum_word (s : string) : bool :=
  match s with
  | EmptyString => false
  | String c s' => word_char c && word_tail s'
  end.

(** The schema of a string that is not enum-like: type, length and at most
    a format tag. *)
Definition redacted (s : string) (schema : dict) : Prop :=
  schema = [ (KStr "_type", VStr "string");
             (KStr "_length", VInt (Z.of_nat (String.length s))) ]
  \/ exists f,
       schema = [ (KStr "_type", VStr "string");
                  (KStr "_format", VStr f);
                  (KStr "_length", VInt (Z.of_nat (String.length s))) ].

(** Every schema grouped under a key has the property [P]. *)
Definition grouped (P : value -> Prop) (all_keys : list (key * list value))
  : Prop :=
  forall k ks x, In (k, ks) all_keys -> In x ks -> P x.

(** String schemas the string merger can read. *)
Definition string_schemas (schemas : list value) : Prop :=
  forall s, In s schemas -> exists d, s = VDict d /\ string_schema_ok d = true.

(** Object schemas whose [_keys] hold well-formed schemas. *)
Definition object_schemas (schemas : list value) : Prop :=
  forall s, In s schemas ->
    exists d items,
      s = VDict d
      /\ get_or d "_keys" (VDict []) = VDict items
      /\ forall k v, In (k, v) items -> well_formed v.

(** The computation returns a well-formed schema. *)
Definition returns_well_formed (r : result dict) : Prop :=
  exists schema, r = Ok schema /\ well_formed (VDict schema).

(** The errors the operations of the inspector raise themselves (a
    subscript out of range, a missing attribute or key, an operand of the
    wrong type), as opposed to the interpreter's [RecursionError] on deep
    nesting and to the errors of reading a file. *)
Definition own_error (e : exn) : bool :=
  match e with
  | AttributeError | TypeError | KeyError | IndexError => true
  | _ => false
  end.

(** The schema of the string holds the string. *)
Definition exposed (s : string) : bool :=
  match lookup "_example_pattern" (classify_string s) with
  | Some _ => true
  | None => false
  end.

End SchemaSpec.

(* ================================================================== *)
(** * src/ccutils/parsers/schema_inspector.py: files and directories *)
(* ================================================================== *)

Module Inspect.

Import ClaudeAi SchemaInspector.

(** A line of a JSONL file once stripped: empty, or text on which
    [json.loads] returns a value, or text on which it raises
    [JSONDecodeError], or text on which it raises something else
    ([ValueError] on an integer literal beyond the digit limit,
    [RecursionError] on nesting beyond the decoder's). *)
Inductive jsonl_line : Type :=
| BlankLine
| JsonLine (v : value)
| InvalidLine
| FailingLine (e : exn).

(** A file on disk, by what the inspector asks of it: its name, its size,
    what [open] and [json.load] make of it (the value, or the exception
    raised: [JSONDecodeError], but also [ValueError], [UnicodeDecodeError],
    [RecursionError] or an [OSError]), and what reading it line by line
    gives: the lines the iteration yields, and the exception that ends it
    when the file does not open (no line then) or when its bytes stop
    being UTF-8 ([UnicodeDecodeError]). *)
Record disk_file : Type := DiskFile {
  name : string;
  st_size : Z;
  whole : result value;
  lines : list jsonl_line;
  read_error : option exn
}.

(** [str.lower()] on a character below code point 256. *)
Definition lower_char (c : ascii) : ascii :=
  let n := nat_of_ascii c in
  if ((65 <=? n) && (n <=? 90)
      || (192 <=? n) && (n <=? 222) && negb (n =? 215))%nat
  then ascii_of_nat (n + 32) else c.

Fixpoint lower (s : string) : string :=
  match s with
  | EmptyString => EmptyString
  | String c s' => String (lower_char c) (lower s')
  end.

(** The part of [s] from its last dot on. *)
Fixpoint from_last_dot (s : string) : option string :=
  match s with
  | EmptyString => None
  | String c s' =>
      match from_last_dot s' with
      | Some t => Some t
      | None => if Ascii.eqb c "." then Some s else None
      end
  end.

(** [PurePath.suffix]: [name[i:]] for the last dot [i] of the name, when
    [0 < i < len(name) - 1], else [""]. *)
Definition suffix (name : string) : string :=
  match name with
  | EmptyString => ""
  | String _ rest =>
      match from_last_dot rest with
      | Some t => if String.eqb t "." then "" else t
      | None => ""
      end
  end.

(** The first loop over a JSONL file: blank and invalid lines are passed
    over, valid ones collected until [line_count >= max_array_samples * 2];
    [except json.JSONDecodeError] lets any other exception of [json.loads]
    through. *)
Fixpoint sample_lines (ls : list jsonl_line) (read_error : option exn)
    (max_array_samples : Z) (items : list value) (line_count : Z)
  : result (list value) :=
  match ls with
  | [] =>
      match read_error with
      | Some e => Raise e
      | None => Ok items
      end
  | BlankLine :: rest =>
      sample_lines rest read_error max_array_samples items line_count
  | InvalidLine :: rest =>
      sample_lines rest read_error max_array_samples items line_count
  | FailingLine e :: _ => Raise e
  | JsonLine v :: rest =>
      let items := (items ++ [v])%list in
      let line_count := (line_count + 1)%Z in
      if (line_count >=? max_array_samples * 2)%Z then Ok items
      else sample_lines rest read_error max_array_samples items line_count
  end.

(** [sum(1 for line in f if line.strip())], which reads the file to its
    end. *)
Definition total_lines (ls : list jsonl_line) (read_error : option exn)
  : result nat :=
  match read_error with
  | Some e => Raise e
  | None =>
      Ok (List.length (filter (fun l => match l with
                                        | BlankLine => false
                                        | _ => true
                                        end) ls))
  end.

Definition inspect_json_file (file_path : disk_file) (max_array_samples : Z)
  : result dict :=
  let is_jsonl := String.eqb (lower (suffix (name file_path))) ".jsonl" in
  if is_jsonl then
    items <- sample_lines (lines file_path) (read_error file_path)
               max_array_samples [] 0 ;;
    match items with
    | [] =>
        Ok [ (KStr "file", VStr (name file_path));
             (KStr "size_bytes", VInt (st_size file_path));
             (KStr "format", VStr "jsonl");
             (KStr "error", VStr "No valid JSON lines found") ]
    | _ :: _ =>
        total <- total_lines (lines file_path) (read_error file_path) ;;
        schema <- infer_schema (VList items) max_array_samples "$" ;;
        Ok [ (KStr "file", VStr (name file_path));
             (KStr "size_bytes", VInt (st_size file_path));
             (KStr "format", VStr "jsonl");
             (KStr "line_count", VInt (Z.of_nat total));
             (KStr "schema", VDict schema) ]
    end
  else
    data <- whole file_path ;;
    schema <- infer_schema data max_array_samples "$" ;;
    Ok [ (KStr "file", VStr (name file_path));
         (KStr "size_bytes", VInt (st_size file_path));
         (KStr "format", VStr "json");
         (KStr "schema", VDict schema) ].

(** [fnmatch(name, "*.json")]. *)
Fixpoint ends_with (suf s : string) : bool :=
  String.eqb s suf
  || match s with
     | EmptyString => false
     | String _ s' => ends_with suf s'
     end.

Fixpoint insert_by_name (f : disk_file) (l : list disk_file)
  : list disk_file :=
  match l with
  | [] => [f]
  | g :: l' =>
      if String.leb (name f) (name g) then f :: l else g :: insert_by_name f l'
  end.

(** [sorted(export_path.glob("*.json"))] over the files of the directory. *)
Definition sorted_json_files (entries : list disk_file) : list disk_file :=
  fold_right insert_by_name []
    (filter (fun f => ends_with ".json" (name f)) entries).

(** [except (json.JSONDecodeError, IOError) as e]: the exceptions the loop
    catches ([IOError] is [OSError], of which [FileNotFoundError] is one),
    with [str(e)]. *)
Definition caught (e : exn) : option string :=
  match e with
  | JSONDecodeError msg | FileNotFoundError msg | OSError msg => Some msg
  | _ => None
  end.

(** The body of the loop: what is caught becomes the file's entry,
    anything else goes through. *)
Definition inspect_entry (results : dict) (json_file : disk_file)
    (max_array_samples : Z) : result dict :=
  match inspect_json_file json_file max_array_samples with
  | Ok r => Ok (dict_set (name json_file) (VDict r) results)
  | Raise e =>
      match caught e with
      | Some msg =>
          Ok (dict_set (name json_file) (VDict [ (KStr "error", VStr msg) ])
                results)
      | None => Raise e
      end
  end.

(** The directory is given by the files in it. *)
Definition inspect_export_directory (entries : list disk_file)
    (max_array_samples : Z) : result dict :=
  fold_left
    (fun results json_file =>
       rs <- results ;; inspect_entry rs json_file max_array_samples)
    (sorted_json_files entries) (Ok []).

End Inspect.

(* ================================================================== *)
(** * More vocabulary: inspected files *)
(* ================================================================== *)

Module InspectSpec.

Import ClaudeAi SchemaInspector Inspect.

(** The values of the valid lines, in order. *)
Fixpoint valid_lines (ls : list jsonl_line) : list value :=
  match ls with
  | [] => []
  | JsonLine v :: rest => v :: valid_lines rest
  | _ :: rest => valid_lines rest
  end.

(** How many valid lines the first loop takes: twice the sample size, and
    one when that is not positive. *)
Definition sample_size (max_array_samples : Z) : nat :=
  Z.to_nat (Z.max 1 (2 * max_array_samples)).

Definition is_jsonl (f : disk_file) : bool :=
  String.eqb (lower (suffix (name f))) ".jsonl".

(** The value holds a non-empty array somewhere [infer_schema] goes. *)
Fixpoint has_items (v : value) : bool :=
  match v with
  | VList xs => negb (Nat.eqb (List.length xs) 0)
  | VDict items => existsb (fun kv => has_items (snd kv)) items
  | _ => false
  end.

(** The file reads to its end, and none of its lines makes [json.loads]
    raise anything but [JSONDecodeError]. *)
Definition reads (f : disk_file) : Prop :=
  read_error f = None /\ forall e, ~ In (FailingLine e) (lines f).

(** How many lines of the file are not blank. *)
Definition nonblank_lines (ls : list jsonl_line) : nat :=
  List.length (filter (fun l => match l with
                                | BlankLine => false
                                | _ => true
                                end) ls).

(** A file the directory inspector looks at. *)
Definition json_file (entries : list disk_file) (f : disk_file) : Prop :=
  In f entries /\ ends_with ".json" (name f) = true.

(** The entry of a file that was inspected. *)
Definition schema_entry (f : disk_file) (schema : dict) : value :=
  VDict [ (KStr "file", VStr (name f));
          (KStr "size_bytes", VInt (st_size f));
          (KStr "format", VStr "json");
          (KStr "schema", VDict schema) ].

(** The entry of a file whose reading raised an error the loop catches. *)
Definition error_entry (msg : string) : value :=
  VDict [ (KStr "error", VStr msg) ].

(** What the directory inspector records for a file, when it records
    something. *)
Definition entry_of (f : disk_file) (max_array_samples : Z) : option value :=
  match inspect_json_file f max_array_samples with
  | Ok r => Some (VDict r)
  | Raise e =>
      match caught e with
      | Some msg => Some (error_entry msg)
      | None => None
      end
  end.

End InspectSpec.

(* ================================================================== *)
(** * Embedding of [ccutils/parsers/schema_inspector.py]: the formatter *)
(* ================================================================== *)

Module Formatter.

Import ClaudeAi SchemaInspector.

(** ** [str] and [repr] *)

(** [str(z)] for an [int]. *)
Definition int_str (z : Z) : string := NilZero.string_of_int (Z.to_int z).

Definition hex_char (n : nat) : ascii :=
  ascii_of_nat (if (n <? 10)%nat then 48 + n else 87 + n).

(** [str.isprintable] on a code point below 256. *)
Definition printable (n : nat) : bool :=
  ((32 <=? n) && (n <? 127) || (161 <=? n) && negb (n =? 173))%nat.

Definition single_quote : ascii := ascii_of_nat 39.
Definition double_quote : ascii := ascii_of_nat 34.
Definition backslash : ascii := ascii_of_nat 92.

Fixpoint has_char (c : ascii) (s : string) : bool :=
  match s with
  | EmptyString => false
  | String d s' => Ascii.eqb c d || has_char c s'
  end.

(** One character of [repr(s)] between the quotes [quote]. *)
Definition escape_char (quote c : ascii) : string :=
  let n := nat_of_ascii c in
  if Ascii.eqb c quote || Ascii.eqb c backslash
  then String backslash (String c EmptyString)
  else if (n =? 9)%nat then String backslash "t"
  else if (n =? 10)%nat then String backslash "n"
  else if (n =? 13)%nat then String backslash "r"
  else if printable n then String c EmptyString
  else String backslash
         (String "x" (String (hex_char (n / 16))
                        (String (hex_char (n mod 16)) EmptyString))).

Fixpoint escape (quote : ascii) (s : string) : string :=
  match s with
  | EmptyString => EmptyString
  | String c s' => escape_char quote c ++ escape quote s'
  end.

(** [repr(s)] for a [str]: double quotes when the text has a single quote
    and no double one, single quotes otherwise. *)
Definition str_repr (s : string) : string :=
  let quote := if has_char single_quote s && negb (has_char double_quote s)
               then double_quote else single_quote in
  String quote (escape quote s ++ String quote EmptyString).

(** [sep.join(parts)] on strings. *)
Fixpoint join (sep : string) (parts : list string) : string :=
  match parts with
  | [] => ""
  | [p] => p
  | p :: rest => p ++ sep ++ join sep rest
  end.

Definition key_repr (k : key) : string :=
  match k with
  | KNone => "None"
  | KStr s => str_repr s
  end.

Section Builtins.

(** [repr] of a [float], given by its bits, and [==] on two values are
    left to the interpreter. *)
Variable float_repr : Z -> string.
Variable py_eq : value -> value -> bool.

Fixpoint py_repr (v : value) : string :=
  match v with
  | VNone => "None"
  | VBool true => "True"
  | VBool false => "False"
  | VInt z => int_str z
  | VFloat bits => float_repr bits
  | VStr s => str_repr s
  | VList xs => "[" ++ join ", " (map py_repr xs) ++ "]"
  | VTuple [x] => "(" ++ py_repr x ++ ",)"
  | VTuple xs => "(" ++ join ", " (map py_repr xs) ++ ")"
  | VDict items =>
      "{" ++ join ", " (map (fun kv => key_repr (fst kv) ++ ": "
                                         ++ py_repr (snd kv)) items) ++ "}"
  end.

(** What an f-string puts for [{v}]. *)
Definition py_str (v : value) : string :=
  match v with
  | VStr s => s
  | _ => py_repr v
  end.

(** ** The operations of the formatter *)

(** [s * n] for a [str]. *)
Definition repeat_str (s : string) (n : Z) : string :=
  String.concat "" (repeat s (Z.to_nat n)).

(** [k in d]. *)
Definition has_key (d : dict) (k : key) : bool :=
  match lookup k d with
  | Some _ => true
  | None => false
  end.

(** [v[i]] for an [int] index that is not negative. *)
Definition py_index (v : value) (i : nat) : result value :=
  match v with
  | VList xs | VTuple xs =>
      match nth_error xs i with
      | Some x => Ok x
      | None => Raise IndexError
      end
  | VStr s =>
      match String.get i s with
      | Some c => Ok (VStr (String c EmptyString))
      | None => Raise IndexError
      end
  | VDict _ => Raise KeyError
  | VNone | VBool _ | VInt _ | VFloat _ => Raise TypeError
  end.

(** [v.items()]. *)
Definition py_items (v : value) : result (list (key * value)) :=
  match v with
  | VDict items => Ok items
  | _ => Raise AttributeError
  end.

(** [sep.join(parts)] where the parts may be anything: only strings join. *)
Definition join_values (sep : string) (parts : list value) : result string :=
  strs <- mapM (fun p => match p with
                         | VStr s => Ok s
                         | _ => Raise TypeError
                         end) parts ;;
  Ok (join sep strs).

Definition line_feed : string := String (ascii_of_nat 10) EmptyString.

(** The annotations of a string schema, in a list as the source builds it. *)
Definition string_annotations (schema : dict) : result (list value) :=
  let annotations := [] in
  let annotations :=
    if has_key schema "_format"
    then (annotations ++ [get schema "_format"])%list else annotations in
  let annotations :=
    if has_key schema "_length_min" && has_key schema "_length_max" then
      if py_eq (get schema "_length_min") (get schema "_length_max")
      then (annotations
              ++ [VStr (py_str (get schema "_length_min") ++ " chars")])%list
      else (annotations
              ++ [VStr (py_str (get schema "_length_min") ++ "-"
                          ++ py_str (get schema "_length_max")
                          ++ " chars")])%list
    else if has_key schema "_length"
    then (annotations ++ [VStr (py_str (get schema "_length") ++ " chars")])%list
    else annotations in
  if has_key schema "_enum_values" then
    let vals := get schema "_enum_values" in
    n <- len vals ;;
    if (n <=? 5)%nat
    then Ok (annotations ++ [VStr ("values: " ++ py_str vals)])%list
    else Ok (annotations
               ++ [VStr (int_str (Z.of_nat n) ++ " unique values")])%list
  else Ok annotations.

(** The first line: the type, the annotations of the type and the mark of
    an optional key. *)
Definition first_line (schema : dict) (indent : Z) (key_name : key)
  : result string :=
  let prefix := repeat_str "  " indent in
  let type_name := get_or schema "_type" (VStr "unknown") in
  let line :=
    if key_truthy key_name
    then prefix ++ key_string key_name ++ ": " ++ py_str type_name
    else prefix ++ py_str type_name in
  line <-
    (if eq_str type_name "string" then
       annotations <- string_annotations schema ;;
       match annotations with
       | [] => Ok line
       | _ :: _ =>
           joined <- join_values ", " annotations ;;
           Ok (line ++ " (" ++ joined ++ ")")
       end
     else if eq_str type_name "array" then
       Ok (line ++ " [" ++ py_str (get_or schema "_length" (VStr "?"))
                ++ " items]")
     else if eq_str type_name "integer" then
       if has_key schema "_example_range" then
         let r := get schema "_example_range" in
         r0 <- py_index r 0 ;;
         r1 <- py_index r 1 ;;
         if py_eq r0 r1
         then Ok (line ++ " (e.g. " ++ py_str r0 ++ ")")
         else Ok line
       else Ok line
     else Ok line) ;;
  if has_key schema "_presence"
  then Ok (line ++ " (optional, " ++ py_str (get schema "_presence") ++ ")")
  else Ok line.

(** [format_schema], with the recursion bounded by [fuel]: each call
    descends into the schema it is given. *)
Fixpoint format_schema_rec (fuel : nat) (schema : value) (indent : Z)
    (key_name : key) : result string :=
  match fuel with
  | O => Raise RecursionError
  | S fuel' =>
      match schema with
      | VDict d =>
          let prefix := repeat_str "  " indent in
          let type_name := get_or d "_type" (VStr "unknown") in
          line <- first_line d indent key_name ;;
          lines <-
            (if eq_str type_name "object" && has_key d "_keys" then
               items <- py_items (get d "_keys") ;;
               rest <- mapM (fun kv =>
                               format_schema_rec fuel' (snd kv) (indent + 1)
                                 (fst kv)) items ;;
               Ok (line :: rest)
             else if eq_str type_name "array" && has_key d "_items"
                     && truthy (get d "_items") then
               let items_schema := get d "_items" in
               items_type <- py_get items_schema "_type" VNone ;;
               if eq_str items_type "object" then
                 keys <- py_get items_schema "_keys" (VDict []) ;;
                 items <- py_items keys ;;
                 rest <- mapM (fun kv =>
                                 format_schema_rec fuel' (snd kv) (indent + 2)
                                   (fst kv)) items ;;
                 Ok (line :: (prefix ++ "  []: object") :: rest)
               else
                 sub <- format_schema_rec fuel' items_schema (indent + 1)
                          (KStr "[]") ;;
                 Ok [line; sub]
             else Ok [line]) ;;
          Ok (join line_feed lines)
      | _ => Raise AttributeError
      end
  end.

(** The depth of the schema is fuel enough (see
    [format_schema_fuel]): the fuel changes no result.  The interpreter's
    own limit on nested calls is not part of the embedding. *)
Definition format_schema (schema : value) (indent : Z) (key_name : key)
  : result string :=
  format_schema_rec (S (depth schema)) schema indent key_name.

End Builtins.

End Formatter.

(* ================================================================== *)
(** * More vocabulary: schemas the formatter can print *)
(* ================================================================== *)

Module FormatSpec.

Import SchemaInspector SchemaSpec Formatter.

(** [schema.get("_type", "unknown")]. *)
Definition type_of (schema : dict) : value :=
  get_or schema "_type" (VStr "unknown").

Definition is_str (v : value) : bool :=
  match v with
  | VStr _ => true
  | _ => false
  end.

(** [len(v)] returns. *)
Definition has_len (v : value) : bool :=
  match len v with
  | Ok _ => true
  | Raise _ => false
  end.

(** [v[0]] and [v[1]] return. *)
Definition pair_like (v : value) : bool :=
  match py_index v 0, py_index v 1 with
  | Ok _, Ok _ => true
  | _, _ => false
  end.

(** What the formatter reads is of the kind it expects: in a string
    schema a [str] format and enum values that have a length, in an integer
    schema a range with two ends, in an object schema a dict of such
    schemas, in an array schema items that are empty or such a schema. *)
Inductive formattable : value -> Prop :=
| formattable_schema (d : dict) :
    (eq_str (type_of d) "string" = true ->
     (forall v, lookup "_format" d = Some v -> is_str v = true)
     /\ (forall v, lookup "_enum_values" d = Some v -> has_len v = true)) ->
    (eq_str (type_of d) "integer" = true ->
     forall r, lookup "_example_range" d = Some r -> pair_like r = true) ->
    (eq_str (type_of d) "object" = true ->
     forall v, lookup "_keys" d = Some v ->
               exists items,
                 v = VDict items
                 /\ forall k x, In (k, x) items -> formattable x) ->
    (eq_str (type_of d) "array" = true ->
     forall v, lookup "_items" d = Some v -> truthy v = true ->
               formattable v) ->
    formattable (VDict d).

(** [==] on two [int]s, as far as the schemas of the inspector need it. *)
Definition int_eq (a b : value) : bool :=
  match a, b with
  | VInt x, VInt y => Z.eqb x y
  | _, _ => false
  end.

(** A schema the mergers can read and the formatter can print. *)
Definition ready (v : value) : Prop := well_formed v /\ formattable v.

(** Object schemas whose [_keys] hold ready schemas. *)
Definition ready_objects (schemas : list value) : Prop :=
  forall s, In s schemas ->
    exists d items,
      s = VDict d
      /\ get_or d "_keys" (VDict []) = VDict items
      /\ forall k v, In (k, v) items -> ready v.

(** The computation returns a ready schema. *)
Definition returns_ready (r : result dict) : Prop :=
  exists schema, r = Ok schema /\ ready (VDict schema).

(** Settles [formattable] on a schema without nested schemas. *)
Ltac formattable_leaf :=
  constructor; unfold type_of; cbn;
  try discriminate;
  intros; repeat split; intros;
  repeat match goal with
         | H : Some _ = Some _ |- _ => inversion H; clear H; subst
         | H : None = Some _ |- _ => discriminate H
         | H : true = false |- _ => discriminate H
         | H : false = true |- _ => discriminate H
         end;
  try reflexivity; try discriminate.

End FormatSpec.

(* ================================================================== *)
(** * More vocabulary: keys of merged objects *)
(* ================================================================== *)

Module MergeSpec.

Import SchemaInspector SchemaSpec Formatter.

(** How many of the objects have the key. *)
Definition holders (k : key) (objs : list dict) : nat :=
  List.length (filter (fun o => has_key o k) objs).

(** An object schema with the given key schemas. *)
Definition object_schema (subs : dict) : value :=
  VDict [ (KStr "_type", VStr "object"); (KStr "_keys", VDict subs) ].

(** A schema that carries no [_presence]. *)
Definition unmarked (v : value) : Prop :=
  exists d, v = VDict d /\ lookup "_presence" d = None.

(** A key schema as [infer_schema] hands it to the merger. *)
Definition plain (v : value) : Prop := well_formed v /\ unmarked v.

(** The mark the merger puts on a key that [count] of [total] objects
    have. *)
Definition presence_mark (count total : nat) : option value :=
  if (count <? total)%nat then Some (VStr (format_percent count total))
  else None.

End MergeSpec.

(* ================================================================== *)
(** * Properties *)
(* ================================================================== *)

Import ClaudeAi Spec.

(** ** Dictionaries *)

Lemma key_eqb_eq (a b : key) : key_eqb a b = true <-> a = b.
Proof.
  destruct a as [|s], b as [|t]; simpl; split; intro H;
    try reflexivity; try discriminate.
  - apply String.eqb_eq in H. now subst.
  - inversion H. apply String.eqb_refl.
Qed.

Lemma key_eqb_refl (a : key) : key_eqb a a = true.
Proof. now apply key_eqb_eq. Qed.

Lemma key_eqb_neq (a b : key) : key_eqb a b = false <-> a <> b.
Proof.
  split; intro H.
  - intro E. apply key_eqb_eq in E. congruence.
  - destruct (key_eqb a b) eqn:E; [|reflexivity].
    apply key_eqb_eq in E. contradiction.
Qed.

Lemma lookup_dict_set_same (k : key) (v : value) (d : dict) :
  lookup k (dict_set k v d) = Some v.
Proof.
  induction d as [|[k' v'] d IH]; simpl.
  - now rewrite key_eqb_refl.
  - destruct (key_eqb k k') eqn:E; simpl; rewrite E; [reflexivity|exact IH].
Qed.

Lemma lookup_dict_set_other (k k' : key) (v : value) (d : dict) :
  k <> k' -> lookup k (dict_set k' v d) = lookup k d.
Proof.
  intro N. induction d as [|[k0 v0] d IH]; simpl.
  - apply key_eqb_neq in N. now rewrite N.
  - destruct (key_eqb k' k0) eqn:E; simpl.
    + apply key_eqb_eq in E. subst k0.
      apply key_eqb_neq in N. now rewrite N.
    + now rewrite IH.
Qed.

(** ** The message normaliser *)

Lemma convert_blocks_chars (s : string) : convert_blocks (chars s) = [].
Proof. induction s as [|c s IH]; simpl; [reflexivity|exact IH]. Qed.

Lemma convert_content_block_dict (block : dict) :
  is_dict (convert_content_block block) = true.
Proof.
  unfold convert_content_block.
  repeat match goal with
         | |- context [if ?b then _ else _] => destruct b
         end; reflexivity.
Qed.

Lemma convert_blocks_dicts (blocks : list value) :
  forallb is_dict (convert_blocks blocks) = true.
Proof.
  induction blocks as [|b blocks IH]; simpl; [reflexivity|].
  destruct b; simpl; try exact IH.
  now rewrite convert_content_block_dict, IH.
Qed.

Lemma convert_message_dict (m : dict) (session_id : value) (blocks : list value) :
  iter (get_or m "content" (VList [])) = Ok blocks ->
  convert_message_to_logline (VDict m) session_id
  = Ok [ (KStr "type", msg_type_of m);
         (KStr "timestamp", get_or m "created_at" (VStr ""));
         (KStr "sessionId", session_id);
         (KStr "uuid", get_or m "uuid" (VStr ""));
         (KStr "message",
          VDict [ (KStr "role", msg_type_of m);
                  (KStr "content", VList (convert_blocks blocks)) ]) ].
Proof.
  intro H. unfold convert_message_to_logline, msg_type_of. simpl.
  rewrite H. reflexivity.
Qed.

Lemma convert_message_inv (message session_id : value) (logline : dict) :
  convert_message_to_logline message session_id = Ok logline ->
  exists m blocks,
    message = VDict m
    /\ iter (get_or m "content" (VList [])) = Ok blocks
    /\ logline
       = [ (KStr "type", msg_type_of m);
           (KStr "timestamp", get_or m "created_at" (VStr ""));
           (KStr "sessionId", session_id);
           (KStr "uuid", get_or m "uuid" (VStr ""));
           (KStr "message",
            VDict [ (KStr "role", msg_type_of m);
                    (KStr "content", VList (convert_blocks blocks)) ]) ].
Proof.
  intro H. destruct message as [| | | | | |m0|m]; try discriminate H.
  destruct (iter (get_or m "content" (VList []))) as [blocks|e] eqn:E.
  - exists m, blocks. rewrite (convert_message_dict m session_id blocks E) in H.
    inversion H. auto.
  - unfold convert_message_to_logline in H. simpl in H. rewrite E in H.
    discriminate H.
Qed.

(** C10.  A raw message whose [content] is a string gives, without error, a
    logline whose [message.content] is the empty list: the characters of the
    string are not objects and are all skipped. *)
Theorem string_content_is_discarded (m : dict) (s : string) (session_id : value) :
  lookup "content" m = Some (VStr s) ->
  exists logline message,
    convert_message_to_logline (VDict m) session_id = Ok logline
    /\ lookup "message" logline = Some (VDict message)
    /\ lookup "content" message = Some (VList []).
Proof.
  intro H.
  assert (E : iter (get_or m "content" (VList [])) = Ok (chars s)).
  { unfold get_or. rewrite H. reflexivity. }
  rewrite (convert_message_dict m session_id _ E).
  eexists. eexists. split; [reflexivity|]. simpl. split; [reflexivity|].
  now rewrite convert_blocks_chars.
Qed.

Lemma string_content_is_discarded_witness :
  lookup "content" Samples.string_content_message = Some (VStr "Hello")
  /\ exists logline message,
       convert_message_to_logline (VDict Samples.string_content_message)
         (VStr "conv-1") = Ok logline
       /\ lookup "message" logline = Some (VDict message)
       /\ lookup "content" message = Some (VList []).
Proof.
  split; [reflexivity|].
  apply (string_content_is_discarded Samples.string_content_message "Hello").
  reflexivity.
Defined.

(** C8.  On a message object whose content can be iterated the normaliser
    returns a logline; sender ["human"] gives type and role ["user"], any
    other sender value is both the type and the role, unchanged; an absent
    [uuid] or [created_at] gives the empty string. *)
Theorem sender_mapping_and_defaults (m : dict) (session_id : value)
    (blocks : list value) :
  iter (get_or m "content" (VList [])) = Ok blocks ->
  exists logline message,
    convert_message_to_logline (VDict m) session_id = Ok logline
    /\ lookup "message" logline = Some (VDict message)
    /\ (lookup "sender" m = Some (VStr "human") ->
        lookup "type" logline = Some (VStr "user")
        /\ lookup "role" message = Some (VStr "user"))
    /\ (forall sender, lookup "sender" m = Some sender ->
        sender <> VStr "human" ->
        lookup "type" logline = Some sender
        /\ lookup "role" message = Some sender)
    /\ (lookup "uuid" m = None -> lookup "uuid" logline = Some (VStr ""))
    /\ (lookup "created_at" m = None ->
        lookup "timestamp" logline = Some (VStr "")).
Proof.
  intro H. rewrite (convert_message_dict m session_id _ H).
  eexists. eexists. split; [reflexivity|]. simpl. split; [reflexivity|].
  unfold msg_type_of, get_or.
  split; [intro S; rewrite S; split; reflexivity|].
  split.
  { intros sender S N. rewrite S.
    destruct (eq_str sender "human") eqn:E; [|split; reflexivity].
    destruct sender; try discriminate E. simpl in E.
    apply String.eqb_eq in E. subst. contradiction. }
  split; intro S; rewrite S; reflexivity.
Qed.

Lemma sender_mapping_and_defaults_witness :
  exists logline message,
    convert_message_to_logline (VDict Samples.bare_message) (VStr "conv-1")
    = Ok logline
    /\ lookup "message" logline = Some (VDict message)
    /\ (lookup "sender" Samples.bare_message = Some (VStr "human") ->
        lookup "type" logline = Some (VStr "user")
        /\ lookup "role" message = Some (VStr "user"))
    /\ (forall sender, lookup "sender" Samples.bare_message = Some sender ->
        sender <> VStr "human" ->
        lookup "type" logline = Some sender
        /\ lookup "role" message = Some sender)
    /\ (lookup "uuid" Samples.bare_message = None ->
        lookup "uuid" logline = Some (VStr ""))
    /\ (lookup "created_at" Samples.bare_message = None ->
        lookup "timestamp" logline = Some (VStr "")).
Proof.
  apply (sender_mapping_and_defaults Samples.bare_message (VStr "conv-1")
           [Samples.sample_text_block]).
  reflexivity.
Defined.

(** ** The export loader *)

Lemma load_optional_absent (dir : directory) (name : string) :
  dir name = None -> load_optional dir name = Ok (VList []).
Proof. intro H. unfold load_optional. now rewrite H. Qed.

Lemma load_optional_cases (dir : directory) (name : string) :
  (dir name = None /\ load_optional dir name = Ok (VList []))
  \/ (exists v, dir name = Some (JsonFile v) /\ load_optional dir name = Ok v)
  \/ (exists msg, dir name = Some (MalformedFile msg)
                  /\ load_optional dir name = Raise (JSONDecodeError msg)).
Proof.
  unfold load_optional. destruct (dir name) as [[v|msg]|].
  - right. left. now exists v.
  - right. right. now exists msg.
  - now left.
Qed.

Lemma load_export_files_readable (export_path : string) (dir : directory)
    (c : value) :
  dir "conversations.json" = Some (JsonFile c) ->
  (forall name, In name ["projects.json"; "users.json"; "memories.json"] ->
     dir name = None \/ exists v, dir name = Some (JsonFile v)) ->
  exists data,
    load_export_files export_path dir = Ok data /\ conversations data = c.
Proof.
  unfold load_export_files. intros C O. rewrite C. simpl.
  assert (L : forall name,
             In name ["projects.json"; "users.json"; "memories.json"] ->
             exists v, load_optional dir name = Ok v).
  { intros name I. destruct (O name I) as [A|[v A]].
    - exists (VList []). now apply load_optional_absent.
    - exists v. unfold load_optional. now rewrite A. }
  destruct (L "projects.json") as [p P]; [simpl; auto|].
  destruct (L "users.json") as [u U]; [simpl; auto|].
  destruct (L "memories.json") as [w M]; [simpl; auto|].
  rewrite P, U, M. simpl. eexists. split; reflexivity.
Qed.

(** C6.  The loader raises the missing-required-file error exactly when
    [conversations.json] is absent; whenever it returns a bundle, the entry
    of each optional file that is absent is the empty list; and the absence
    of optional files raises nothing: with [conversations.json] readable and
    each optional file absent or readable, a bundle is returned. *)
Theorem required_and_optional_files (export_path : string) (dir : directory) :
  ((exists msg,
       load_export_files export_path dir = Raise (FileNotFoundError msg))
   <-> dir "conversations.json" = None)
  /\ (forall data, load_export_files export_path dir = Ok data ->
        (dir "projects.json" = None -> projects data = VList [])
        /\ (dir "users.json" = None -> users data = VList [])
        /\ (dir "memories.json" = None -> memories data = VList []))
  /\ (forall c, dir "conversations.json" = Some (JsonFile c) ->
        (forall name, In name ["projects.json"; "users.json"; "memories.json"] ->
           dir name = None \/ exists v, dir name = Some (JsonFile v)) ->
        exists data,
          load_export_files export_path dir = Ok data
          /\ conversations data = c).
Proof.
  unfold load_export_files. split; [|split].
  - split.
    + intros [msg H]. destruct (dir "conversations.json") as [[c|m]|];
        [|discriminate H|reflexivity].
      simpl in H.
      destruct (load_optional_cases dir "projects.json")
        as [[_ P]|[[v [_ P]]|[m [_ P]]]]; rewrite P in H; simpl in H;
        try discriminate H;
        destruct (load_optional_cases dir "users.json")
          as [[_ U]|[[u [_ U]]|[m [_ U]]]]; rewrite U in H; simpl in H;
          try discriminate H;
          destruct (load_optional_cases dir "memories.json")
            as [[_ M]|[[w [_ M]]|[m [_ M]]]]; rewrite M in H; simpl in H;
            discriminate H.
    + intro H. rewrite H. eexists. reflexivity.
  - intros data H.
    destruct (dir "conversations.json") as [[c|m]|]; try discriminate H.
    simpl in H.
    destruct (load_optional dir "projects.json") as [p|] eqn:P;
      [|discriminate H]; simpl in H.
    destruct (load_optional dir "users.json") as [u|] eqn:U;
      [|discriminate H]; simpl in H.
    destruct (load_optional dir "memories.json") as [w|] eqn:M;
      [|discriminate H]; simpl in H.
    inversion H; subst data; simpl.
    repeat split; intro A; apply load_optional_absent in A; congruence.
  - intros c C O. fold (load_export_files export_path dir).
    exact (load_export_files_readable export_path dir c C O).
Qed.

Lemma required_and_optional_files_witness :
  exists data,
    load_export_files "/data/export" Samples.conversations_only = Ok data
    /\ conversations data = VList [Samples.sample_conversation].
Proof.
  apply (proj2 (proj2 (required_and_optional_files "/data/export"
                         Samples.conversations_only))).
  - reflexivity.
  - intros name [E|[E|[E|[]]]]; subst name; left; reflexivity.
Defined.












(** The decoder's message of the broken fixture is of the decoder's
    making: the phrase ["Expecting value"] at line 1, column 1. *)
Example decoder_message_of_empty_file :
  decoder_message "Expecting value: line 1 column 1 (char 0)"
  /\ decoder_text "Extra data" 2 1 3 = "Extra data: line 2 column 1 (char 3)".
Proof.
  split; [|reflexivity].
  exists "Expecting value", 1%nat, 1%nat, 0%nat.
  split; [simpl; tauto|reflexivity].
Qed.

(** ** The export parser *)

Lemma mapM_Forall2 {A B} (f : A -> result B) (xs : list A) (ys : list B) :
  mapM f xs = Ok ys -> Forall2 (fun x y => f x = Ok y) xs ys.
Proof.
  revert ys. induction xs as [|x xs IH]; simpl; intros ys H.
  - inversion H. constructor.
  - destruct (f x) as [y|] eqn:E; [|discriminate H]. simpl in H.
    destruct (mapM f xs) as [ys'|]; [|discriminate H]. simpl in H.
    inversion H. constructor; auto.
Qed.

Lemma mapM_total {A B} (f : A -> result B) (xs : list A) :
  (forall x, In x xs -> exists y, f x = Ok y) ->
  exists ys, mapM f xs = Ok ys.
Proof.
  induction xs as [|x xs IH]; simpl; intro H.
  - now exists [].
  - destruct (H x) as [y E]; [auto|]. rewrite E. simpl.
    destruct IH as [ys E']; [auto|]. rewrite E'. simpl. now eexists.
Qed.

Lemma mapM_length {A B} (f : A -> result B) (xs : list A) (ys : list B) :
  mapM f xs = Ok ys -> List.length ys = List.length xs.
Proof.
  intro H. apply mapM_Forall2 in H. symmetry.
  exact (Forall2_length H).
Qed.

Lemma without_thinking_dicts (blocks : list value) :
  forallb is_dict blocks = true ->
  without_thinking blocks = Ok (filter (fun b => negb (is_thinking b)) blocks).
Proof.
  induction blocks as [|b blocks IH]; simpl; intro H; [reflexivity|].
  apply andb_true_iff in H. destruct H as [D H].
  destruct b; try discriminate D. simpl. rewrite (IH H). simpl.
  reflexivity.
Qed.

Lemma filter_no_thinking (blocks : list value) :
  forallb (fun b => negb (is_thinking b))
    (filter (fun b => negb (is_thinking b)) blocks) = true.
Proof.
  induction blocks as [|b blocks IH]; simpl; [reflexivity|].
  destruct (negb (is_thinking b)) eqn:E; simpl; [rewrite E|]; exact IH.
Qed.

Lemma key_neq_eqb (k : key) (s : string) :
  k <> KStr s -> key_eqb k (KStr s) = false.
Proof. intro N. now apply key_eqb_neq. Qed.

Lemma drop_thinking_converted (logline : dict) :
  converted logline ->
  exists logline', drop_thinking logline = Ok logline'
                   /\ stripped logline' logline.
Proof.
  intros [message [session_id H]].
  apply convert_message_inv in H. destruct H as [m [blocks [_ [_ L]]]].
  subst logline. unfold drop_thinking. simpl.
  rewrite (without_thinking_dicts _ (convert_blocks_dicts blocks)). simpl.
  eexists. split; [reflexivity|].
  unfold stripped, content_of. simpl. split; [reflexivity|]. split.
  - intros k N. apply key_neq_eqb in N.
    destruct k as [|s]; [reflexivity|]. simpl in *.
    repeat match goal with
           | |- context [String.eqb s ?t] => destruct (String.eqb s t)
           end; try reflexivity; discriminate N.
  - eexists. eexists. split; [reflexivity|]. split; [reflexivity|].
    intros k N. apply key_neq_eqb in N.
    destruct k as [|s]; [reflexivity|]. simpl in *.
    destruct (String.eqb s "role"); [reflexivity|]. now rewrite N.
Qed.

Lemma mapM_drop_thinking (ls : list dict) :
  Forall converted ls ->
  exists ls', mapM drop_thinking ls = Ok ls' /\ Forall2 stripped ls' ls.
Proof.
  induction 1 as [|l ls C _ IH]; simpl.
  - exists []. split; [reflexivity|constructor].
  - destruct (drop_thinking_converted l C) as [l' [E S]].
    destruct IH as [ls' [E' S']]. rewrite E, E'. simpl.
    exists (l' :: ls'). split; [reflexivity|]. now constructor.
Qed.

Lemma conversation_loglines_converted (conversation : value) (ls : list dict) :
  convert_conversation_to_loglines conversation = Ok ls ->
  Forall converted ls.
Proof.
  unfold convert_conversation_to_loglines. intro H.
  destruct (py_get conversation "uuid" (VStr "")) as [sid|]; [|discriminate H].
  simpl in H.
  destruct (py_get conversation "chat_messages" (VList [])) as [cm|];
    [|discriminate H].
  simpl in H. destruct (iter cm) as [ms|]; [|discriminate H]. simpl in H.
  apply mapM_Forall2 in H.
  induction H as [|m l ms ls E _ IH]; constructor; [|exact IH].
  now exists m, sid.
Qed.



Lemma valid_conversation_loglines (c : value) :
  valid_conversation c = true ->
  exists ls, convert_conversation_to_loglines c = Ok ls
             /\ List.length ls = chat_messages_length c
             /\ map ids_of ls = message_ids c.
Proof.
  destruct c as [| | | | | | |d]; try discriminate. simpl.
  unfold convert_conversation_to_loglines. simpl.
  destruct (get_or d "chat_messages" (VList [])) as [| | | | |ms| |];
    try discriminate.
  intro V. simpl.
  destruct (mapM_total
              (fun message =>
                 convert_message_to_logline message (get_or d "uuid" (VStr "")))
              ms) as [ls E].
  { intros m I. rewrite forallb_forall in V. specialize (V m I).
    destruct m as [| | | | | | |md]; try discriminate V. simpl in V.
    unfold is_iterable in V.
    destruct (iter (get_or md "content" (VList []))) as [blocks|] eqn:B;
      [|discriminate V].
    eexists. apply (convert_message_dict md _ blocks B). }
  exists ls. split; [exact E|]. split; [exact (mapM_length _ _ _ E)|].
  apply mapM_Forall2 in E. clear V.
  induction E as [|m l ms ls C _ IH]; simpl; [reflexivity|].
  rewrite IH. f_equal.
  apply convert_message_inv in C. destruct C as [md [blocks [Em [_ L]]]].
  subst m l. reflexivity.
Qed.

Lemma stripped_ids (ls' ls : list dict) :
  Forall2 stripped ls' ls -> map ids_of ls' = map ids_of ls.
Proof.
  induction 1 as [|l' l ls' ls [_ [K _]] _ IH]; simpl; [reflexivity|].
  rewrite IH. f_equal. unfold ids_of, get.
  rewrite !K; [reflexivity|discriminate|discriminate].
Qed.

Lemma skip_included (ids : option (list string)) (d : dict) :
  match ids with
  | Some l => not_in (get_or d "uuid" (VStr "")) l
  | None => false
  end = negb (included ids (VDict d)).
Proof.
  destruct ids as [l|]; simpl; [|reflexivity].
  unfold not_in. reflexivity.
Qed.

Lemma for_each_valid (convs : list value) (ids : option (list string))
    (it : bool) (acc : list dict) :
  forallb valid_conversation convs = true ->
  exists out,
    for_each_conversation convs ids it acc = Ok (acc ++ out)%list
    /\ List.length out
       = list_sum (map chat_messages_length (filter (included ids) convs))
    /\ map ids_of out = flat_map message_ids (filter (included ids) convs).
Proof.
  revert acc. induction convs as [|c convs IH]; simpl; intros acc V.
  - exists []. rewrite app_nil_r. repeat split; reflexivity.
  - apply andb_true_iff in V. destruct V as [Vc V].
    destruct (valid_conversation_loglines c Vc) as [ls [E [Len Ids]]].
    destruct c as [| | | | | | |d]; try discriminate Vc.
    cbn [py_get bind]. rewrite skip_included.
    destruct (included ids (VDict d)); cbn [negb].
    + rewrite E. cbn [bind].
      assert (X : exists ls', (if negb it then mapM drop_thinking ls else Ok ls)
                              = Ok ls' /\ List.length ls' = List.length ls
                              /\ map ids_of ls' = map ids_of ls).
      { destruct it; cbn [negb].
        - exists ls. repeat split; reflexivity.
        - destruct (mapM_drop_thinking ls
                      (conversation_loglines_converted _ _ E)) as [ls' [D S]].
          exists ls'. split; [exact D|].
          split; [exact (Forall2_length S)|exact (stripped_ids _ _ S)]. }
      destruct X as [ls' [D [L' I']]]. rewrite D. cbn [bind].
      destruct (IH (acc ++ ls')%list V) as [out [O [Lo Io]]].
      exists (ls' ++ out)%list. rewrite app_assoc. split; [exact O|].
      cbn [map list_sum flat_map].
      rewrite length_app, map_app, Lo, Io, L', I', Len, Ids.
      split; reflexivity.
    + destruct (IH acc V) as [out [O Lo]]. exists out. split; assumption.
Qed.

(** C1.  For an export directory whose [conversations.json] is an array of
    conversation objects (their [chat_messages] arrays of message objects
    with iterable content) and none of whose files is unreadable, the
    parser returns, whatever [include_thinking] is, a loglines list whose
    length is the sum of the [chat_messages] lengths of the conversations
    that pass the allowlist; the loglines are, by conversation and message
    identifier, the messages of those conversations in order, none dropped
    and none repeated. *)
Theorem loglines_count (export_path : string) (dir : directory)
    (conversation_ids : option (list string)) (include_thinking : bool)
    (convs : list value) :
  dir "conversations.json" = Some (JsonFile (VList convs)) ->
  forallb valid_conversation convs = true ->
  (forall name msg, dir name <> Some (MalformedFile msg)) ->
  exists r,
    parse_claude_ai_export export_path dir conversation_ids include_thinking
    = Ok r
    /\ List.length (loglines r)
       = list_sum (map chat_messages_length
                     (filter (included conversation_ids) convs))
    /\ map ids_of (loglines r)
       = flat_map message_ids (filter (included conversation_ids) convs).
Proof.
  intros C V M.
  destruct (load_export_files_readable export_path dir (VList convs) C)
    as [data [L Cd]].
  { intros name _. destruct (dir name) as [[v|msg]|] eqn:E.
    - right. now exists v.
    - exfalso. exact (M name msg E).
    - now left. }
  unfold parse_claude_ai_export. rewrite L. cbn [bind]. rewrite Cd.
  cbn [iter bind].
  destruct (for_each_valid convs conversation_ids include_thinking [] V)
    as [out [O Len]].
  rewrite O. cbn [bind len]. eexists. split; [reflexivity|].
  simpl. exact Len.
Qed.

Lemma loglines_count_witness :
  exists r,
    parse_claude_ai_export "/data/export" Samples.export_dir
      (Some ["d3dc7225-1cfd-4e73-90c4-9fc54cbf7f87"]) false = Ok r
    /\ List.length (loglines r)
       = list_sum (map chat_messages_length
                     (filter (included
                                (Some ["d3dc7225-1cfd-4e73-90c4-9fc54cbf7f87"]))
                        [Samples.sample_conversation]))
    /\ map ids_of (loglines r)
       = flat_map message_ids
           (filter (included (Some ["d3dc7225-1cfd-4e73-90c4-9fc54cbf7f87"]))
              [Samples.sample_conversation]).
Proof.
  apply (loglines_count "/data/export" Samples.export_dir
           (Some ["d3dc7225-1cfd-4e73-90c4-9fc54cbf7f87"]) false
           [Samples.sample_conversation]).
  - reflexivity.
  - reflexivity.
  - intros name msg. unfold Samples.export_dir.
    repeat match goal with
           | |- context [String.eqb name ?t] => destruct (String.eqb name t)
           end; discriminate.
Defined.

Lemma parse_inv (export_path : string) (dir : directory)
    (ids : option (list string)) (it : bool) (r : export) :
  parse_claude_ai_export export_path dir ids it = Ok r ->
  exists data convs count,
    load_export_files export_path dir = Ok data
    /\ iter (conversations data) = Ok convs
    /\ for_each_conversation convs ids it [] = Ok (loglines r)
    /\ len (conversations data) = Ok count
    /\ metadata r
       = [ (KStr "source", VStr "claude_ai_export");
           (KStr "export_path", VStr export_path);
           (KStr "projects", projects data);
           (KStr "memories", memories data);
           (KStr "users", users data);
           (KStr "conversation_count", VInt (Z.of_nat count)) ].
Proof.
  unfold parse_claude_ai_export. intro H.
  destruct (load_export_files export_path dir) as [data|] eqn:L;
    [|discriminate H].
  cbn [bind] in H.
  destruct (iter (conversations data)) as [convs|] eqn:I; [|discriminate H].
  cbn [bind] in H.
  destruct (for_each_conversation convs ids it []) as [out|] eqn:F;
    [|discriminate H].
  cbn [bind] in H.
  destruct (len (conversations data)) as [count|] eqn:N; [|discriminate H].
  cbn [bind] in H. inversion H. subst r. simpl. exists data, convs, count.
  repeat split; assumption.
Qed.





Lemma for_each_flag (convs : list value) (ids : option (list string))
    (acc out acc' : list dict) :
  for_each_conversation convs ids true acc = Ok out ->
  Forall2 stripped acc' acc ->
  exists out',
    for_each_conversation convs ids false acc' = Ok out'
    /\ Forall2 stripped out' out.
Proof.
  revert acc acc'. induction convs as [|c convs IH]; simpl; intros acc acc' H A.
  - inversion H; subst. now exists acc'.
  - destruct (py_get c "uuid" (VStr "")) as [conv_id|]; [|discriminate H].
    cbn [bind] in *.
    destruct (match ids with
              | Some l => not_in conv_id l
              | None => false
              end); [exact (IH acc acc' H A)|].
    destruct (convert_conversation_to_loglines c) as [ls|] eqn:E;
      [|discriminate H].
    cbn [bind negb] in *.
    destruct (mapM_drop_thinking ls (conversation_loglines_converted _ _ E))
      as [ls' [D S]].
    rewrite D. cbn [bind].
    apply (IH _ _ H). now apply Forall2_app.
Qed.

Lemma stripped_no_thinking (l' l : dict) :
  stripped l' l ->
  forallb (fun b => negb (is_thinking b)) (content_of l') = true.
Proof. intros [C _]. rewrite C. apply filter_no_thinking. Qed.

Lemma drop_thinking_stripped (l l' : dict) :
  converted l -> drop_thinking l = Ok l' -> stripped l' l.
Proof.
  intros C D. destruct (drop_thinking_converted l C) as [l'' [E S]].
  rewrite D in E. inversion E. now subst l''.
Qed.

Lemma conversation_messages_appear (d : dict) (ls ls' : list dict) :
  convert_conversation_to_loglines (VDict d) = Ok ls ->
  mapM drop_thinking ls = Ok ls' ->
  Forall2 appears (session_messages (VDict d)) ls'.
Proof.
  unfold convert_conversation_to_loglines, session_messages.
  cbn [py_get bind]. intros H D.
  destruct (iter (get_or d "chat_messages" (VList []))) as [ms|];
    [|discriminate H].
  cbn [bind] in H. apply mapM_Forall2 in H. apply mapM_Forall2 in D.
  revert ls' D. induction H as [|m l ms ls C _ IH]; intros ls' D.
  - inversion D. constructor.
  - inversion D as [|? l' ? ls'' Dl Dls]; subst. cbn [map].
    constructor; [|now apply IH].
    exists l. split; [exact C|].
    apply (drop_thinking_stripped l l'); [|exact Dl].
    now exists m, (get_or d "uuid" (VStr "")).
Qed.

(** Without the thinking blocks the loop adds, for each conversation that
    passes the allowlist and in their order, one logline per message. *)
Lemma for_each_appear (convs : list value) (ids : option (list string)) :
  forall acc out : list dict,
    for_each_conversation convs ids false acc = Ok out ->
    exists new,
      out = (acc ++ new)%list
      /\ Forall2 appears
           (flat_map session_messages (filter (included ids) convs)) new.
Proof.
  induction convs as [|c convs IH]; intros acc out H.
  - inversion H. exists []. split; [now rewrite app_nil_r|constructor].
  - cbn [for_each_conversation] in H.
    destruct c as [| | | | | | |d]; try discriminate H.
    cbn [py_get bind] in H. rewrite skip_included in H.
    cbn [filter]. destruct (included ids (VDict d)); cbn [negb] in H.
    + destruct (convert_conversation_to_loglines (VDict d)) as [ls|] eqn:E;
        [|discriminate H].
      cbn [bind negb] in H.
      destruct (mapM drop_thinking ls) as [ls'|] eqn:D; [|discriminate H].
      cbn [bind] in H. destruct (IH _ _ H) as [new [O F]].
      exists (ls' ++ new)%list. split; [now rewrite O, app_assoc|].
      cbn [flat_map]. apply Forall2_app; [|exact F].
      exact (conversation_messages_appear d ls ls' E D).
    + exact (IH _ _ H).
Qed.

(** C3.  Where the parser returns with the thinking blocks included, it
    also returns with [include_thinking=False], with the same metadata and
    as many loglines, in the same order; the content of each is the content
    of its counterpart without the blocks whose type is ["thinking"], the
    other blocks in place and in order, no thinking block is left, and
    nothing else of the logline differs.  Every message of every
    conversation that passes the allowlist still appears: the loglines
    are, one for one and in order, the messages of those conversations,
    normalised and less their thinking blocks. *)
Theorem thinking_blocks_removed (export_path : string) (dir : directory)
    (conversation_ids : option (list string)) (r_all : export) :
  parse_claude_ai_export export_path dir conversation_ids true = Ok r_all ->
  exists r,
    parse_claude_ai_export export_path dir conversation_ids false = Ok r
    /\ List.length (loglines r) = List.length (loglines r_all)
    /\ Forall2 stripped (loglines r) (loglines r_all)
    /\ Forall (fun l => forallb (fun b => negb (is_thinking b)) (content_of l)
                        = true) (loglines r)
    /\ metadata r = metadata r_all
    /\ exists data convs,
         load_export_files export_path dir = Ok data
         /\ iter (conversations data) = Ok convs
         /\ Forall2 appears
              (flat_map session_messages
                 (filter (included conversation_ids) convs))
              (loglines r).
Proof.
  intro H. apply parse_inv in H.
  destruct H as [data [convs [count [L [I [F [N M]]]]]]].
  destruct (for_each_flag convs conversation_ids [] (loglines r_all) [] F)
    as [out' [F' S]]; [constructor|].
  unfold parse_claude_ai_export. rewrite L. cbn [bind]. rewrite I.
  cbn [bind]. rewrite F'. cbn [bind]. rewrite N. cbn [bind].
  eexists. split; [reflexivity|]. cbn [loglines metadata].
  split; [exact (Forall2_length S)|]. split; [exact S|].
  split; [|split; [now rewrite M|]].
  - clear - S. induction S as [|l' l ls' ls Sl _ IHS]; constructor.
    + exact (stripped_no_thinking _ _ Sl).
    + exact IHS.
  - exists data, convs. split; [reflexivity|]. split; [exact I|].
    destruct (for_each_appear _ _ _ _ F') as [new [O A]].
    simpl in O. now subst out'.
Qed.

Lemma thinking_blocks_removed_witness :
  parse_claude_ai_export "/data/export" Samples.export_dir None true
  = Ok Samples.sample_export
  /\ exists r,
       parse_claude_ai_export "/data/export" Samples.export_dir None false
       = Ok r
       /\ List.length (loglines r) = List.length (loglines Samples.sample_export)
       /\ Forall2 stripped (loglines r) (loglines Samples.sample_export)
       /\ Forall (fun l => forallb (fun b => negb (is_thinking b)) (content_of l)
                           = true) (loglines r)
       /\ metadata r = metadata Samples.sample_export
       /\ exists data convs,
            load_export_files "/data/export" Samples.export_dir = Ok data
            /\ iter (conversations data) = Ok convs
            /\ Forall2 appears
                 (flat_map session_messages (filter (included None) convs))
                 (loglines r).
Proof.
  split; [reflexivity|].
  apply (thinking_blocks_removed "/data/export" Samples.export_dir None
           Samples.sample_export).
  reflexivity.
Defined.

(** ** The schema inspector *)

Import SchemaInspector.

(** C9, the code falls short of it.  Two records of identical structure (an
    integer, and a lowercase word of six letters, classified alike) get
    different schemas, and each schema holds the record's own values: the
    integer in [_example_range], the word in [_example_pattern]; an array
    of such words has them listed in [_enum_values]. *)
Theorem schema_holds_leaf_values :
  is_json Samples.ticket_a = true
  /\ is_json Samples.ticket_b = true
  /\ same_shape Samples.ticket_a Samples.ticket_b = true
  /\ infer_schema Samples.ticket_a 5 "$"
     = Ok [ (KStr "_type", VStr "object");
            (KStr "_keys",
             VDict [ (KStr "id",
                      VDict [ (KStr "_type", VStr "integer");
                              (KStr "_example_range",
                               VTuple [VInt 7; VInt 7]) ]);
                     (KStr "status",
                      VDict [ (KStr "_type", VStr "string");
                              (KStr "_format", VStr "enum_like");
                              (KStr "_length", VInt 6);
                              (KStr "_example_pattern", VStr "active") ]) ]) ]
  /\ infer_schema Samples.ticket_a 5 "$" <> infer_schema Samples.ticket_b 5 "$"
  /\ infer_schema (VList [VStr "active"; VStr "closed"]) 5 "$"
     = Ok [ (KStr "_type", VStr "array");
            (KStr "_length", VInt 2);
            (KStr "_items",
             VDict [ (KStr "_type", VStr "string");
                     (KStr "_length_min", VInt 6);
                     (KStr "_length_max", VInt 6);
                     (KStr "_format", VStr "enum_like");
                     (KStr "_enum_values",
                      VList [VStr "active"; VStr "closed"]) ]) ].
Proof.
  repeat split; try (vm_compute; reflexivity).
  vm_compute. discriminate.
Qed.

(** *** The merger never runs out of fuel

    [merge_object_schemas_rec] recurses on the schemas found two levels
    below its arguments, so the depth of the arguments is fuel enough: in
    the embedding [RecursionError] is never the outcome, that is, the
    fuel changes no result.  (This says nothing of the interpreter's own
    limit, which a value nested deep enough does reach.) *)

Lemma bind_in_fuel {A B} (m : result A) (f : A -> result B) :
  m <> Raise RecursionError ->
  (forall a, m = Ok a -> f a <> Raise RecursionError) ->
  bind m f <> Raise RecursionError.
Proof.
  intros M F. destruct m as [a|e]; simpl.
  - now apply F.
  - congruence.
Qed.

Lemma mapM_in_fuel {A B} (f : A -> result B) (xs : list A) :
  (forall x, In x xs -> f x <> Raise RecursionError) ->
  mapM f xs <> Raise RecursionError.
Proof.
  induction xs as [|x xs IH]; simpl; intro H; [discriminate|].
  apply bind_in_fuel; [auto|]. intros y _.
  apply bind_in_fuel; [auto|]. discriminate.
Qed.

Lemma py_get_in_fuel (v : value) (k : key) (d : value) :
  py_get v k d <> Raise RecursionError.
Proof. destruct v; discriminate. Qed.

Lemma as_key_in_fuel (v : value) : as_key v <> Raise RecursionError.
Proof. destruct v; discriminate. Qed.

Lemma as_int_in_fuel (v : value) : as_int v <> Raise RecursionError.
Proof. destruct v; discriminate. Qed.

Lemma as_str_in_fuel (v : value) : as_str v <> Raise RecursionError.
Proof. destruct v; discriminate. Qed.

Lemma set_item_in_fuel (v : value) (k : key) (x : value) :
  set_item v k x <> Raise RecursionError.
Proof. destruct v; discriminate. Qed.

Lemma merge_string_schemas_in_fuel (schemas : list value) :
  merge_string_schemas schemas <> Raise RecursionError.
Proof.
  unfold merge_string_schemas. destruct schemas as [|s schemas]; [discriminate|].
  apply bind_in_fuel.
  { apply mapM_in_fuel. intros x _.
    apply bind_in_fuel; [apply py_get_in_fuel|].
    intros; apply as_key_in_fuel. }
  intros formats _. apply bind_in_fuel.
  { apply mapM_in_fuel. intros x _.
    apply bind_in_fuel; [apply py_get_in_fuel|].
    intros; apply as_int_in_fuel. }
  intros lengths _. apply bind_in_fuel.
  { apply mapM_in_fuel. intros x _. apply py_get_in_fuel. }
  intros enum_values _. destruct enum_values; [discriminate|].
  apply bind_in_fuel.
  { apply mapM_in_fuel. intros x _. apply as_str_in_fuel. }
  intros values _.
  match goal with |- (if ?c then _ else _) <> _ => destruct c end; discriminate.
Qed.

Lemma max_depth_In (v : value) (vs : list value) :
  In v vs -> (depth v <= max_depth vs)%nat.
Proof.
  unfold max_depth.
  induction vs as [|x vs IH]; simpl; [intros []|intros [E|I]].
  - subst. lia.
  - specialize (IH I). lia.
Qed.

Lemma depth_list (xs : list value) : depth (VList xs) = S (max_depth xs).
Proof. reflexivity. Qed.

Lemma depth_item (k : key) (v : value) (items : list (key * value)) :
  In (k, v) items -> (S (depth v) <= depth (VDict items))%nat.
Proof.
  simpl. induction items as [|[k' v'] items IH]; simpl;
    [intros []|intros [E|I]].
  - inversion E; subst. lia.
  - specialize (IH I). lia.
Qed.

Lemma lookup_In (k : key) (d : dict) (v : value) :
  lookup k d = Some v -> exists k', In (k', v) d.
Proof.
  induction d as [|[k' v'] d IH]; simpl; [discriminate|].
  destruct (key_eqb k k').
  - intro E. inversion E; subst. exists k'. now left.
  - intro E. destruct (IH E) as [k0 I]. exists k0. now right.
Qed.

Lemma append_key_In (key k : Py.key) (s x : value) (ks : list value)
    (all_keys : list (Py.key * list value)) :
  In (k, ks) (append_key key s all_keys) -> In x ks ->
  x = s \/ exists ks0, In (k, ks0) all_keys /\ In x ks0.
Proof.
  induction all_keys as [|[k0 l0] rest IH]; simpl.
  - intros [E|[]] I. inversion E; subst. destruct I as [I|[]]. now left.
  - destruct (key_eqb key k0); simpl; intros [E|I0] I.
    + inversion E; subst. apply in_app_or in I. destruct I as [I|[I|[]]].
      * right. exists l0. auto.
      * now left.
    + right. exists ks. auto.
    + inversion E; subst. right. exists ks. auto.
    + destruct (IH I0 I) as [L|[ks0 [I1 I2]]]; [now left|].
      right. exists ks0. auto.
Qed.

Lemma collect_items_shallow (n : nat) (items : list (key * value))
    (st : list (key * list value) * list (key * nat)) :
  shallow n (fst st) ->
  (forall kv, In kv items -> (S (S (depth (snd kv))) <= n)%nat) ->
  shallow n
    (fst (fold_left
            (fun st kv => (append_key (fst kv) (snd kv) (fst st),
                           counter_add (fst kv) (snd st)))
            items st)).
Proof.
  revert st. induction items as [|kv items IH]; simpl; intros st S0 H;
    [exact S0|].
  apply IH; [|auto]. simpl. intros k ks x I Ix.
  destruct (append_key_In _ _ _ _ _ _ I Ix) as [E|[ks0 [I1 I2]]].
  - subst x. auto.
  - exact (S0 k ks0 x I1 I2).
Qed.

Lemma fold_raise {A B} (f : A -> B -> result A) (xs : list B) (e : exn) :
  fold_left (fun acc x => bind acc (fun a => f a x)) xs (Raise e) = Raise e.
Proof. induction xs as [|x xs IH]; simpl; [reflexivity|exact IH]. Qed.

Lemma collect_keys_shallow (schemas : list value)
    (st : list (key * list value) * list (key * nat)) :
  collect_keys schemas = Ok st -> shallow (max_depth schemas) (fst st).
Proof.
  unfold collect_keys.
  assert (G : forall n acc,
             (forall s, In s schemas -> (depth s <= n)%nat) ->
             (forall st0, acc = Ok st0 -> shallow n (fst st0)) ->
             fold_left
               (fun acc schema =>
                  st <- acc ;;
                  keys <- py_get schema "_keys" (VDict []) ;;
                  match keys with
                  | VDict items =>
                      Ok (fold_left
                            (fun st kv => (append_key (fst kv) (snd kv) (fst st),
                                           counter_add (fst kv) (snd st)))
                            items st)
                  | _ => Raise AttributeError
                  end) schemas acc = Ok st ->
             shallow n (fst st)).
  { intro n. induction schemas as [|s schemas IH]; simpl; intros acc D A H.
    - now apply A.
    - apply (IH _ (fun x I => D x (or_intror I))) in H; [exact H|].
      intros st0 E. destruct acc as [st1|e]; [|discriminate E].
      simpl in E. destruct s as [| | | | | | |d]; try discriminate E.
      simpl in E.
      destruct (get_or d "_keys" (VDict [])) as [| | | | | | |items] eqn:K;
        try discriminate E.
      inversion E. apply collect_items_shallow; [now apply A|].
      intros [k v] I. simpl.
      unfold get_or in K. destruct (lookup "_keys" d) as [v0|] eqn:L.
      + subst v0. destruct (lookup_In _ _ _ L) as [k' I'].
        pose proof (depth_item _ _ _ I'). pose proof (depth_item _ _ _ I).
        pose proof (D (VDict d) (or_introl eq_refl)). lia.
      + inversion K; subst. destruct I. }
  apply G.
  - intros s I. now apply max_depth_In.
  - intros st0 E. inversion E. intros k ks x [].
Qed.

Lemma fold_in_fuel {A B} (g : B -> A -> result A) (xs : list B)
    (init : result A) :
  init <> Raise RecursionError ->
  (forall x a, In x xs -> g x a <> Raise RecursionError) ->
  fold_left (fun acc x => bind acc (g x)) xs init <> Raise RecursionError.
Proof.
  revert init. induction xs as [|x xs IH]; simpl; intros init I G;
    [exact I|].
  apply IH; [|auto]. apply bind_in_fuel; [exact I|]. intros a _. auto.
Qed.

Lemma merge_rec_in_fuel (fuel : nat) (schemas : list value) :
  (max_depth schemas < fuel)%nat ->
  merge_object_schemas_rec fuel schemas <> Raise RecursionError.
Proof.
  revert schemas. induction fuel as [|fuel IH]; intros schemas D; [lia|].
  cbn [merge_object_schemas_rec]. destruct schemas as [|s0 schemas0];
    [discriminate|].
  remember (s0 :: schemas0) as schemas eqn:Es.
  apply bind_in_fuel.
  { unfold collect_keys. apply fold_in_fuel; [discriminate|].
    intros x a _. apply bind_in_fuel; [apply py_get_in_fuel|].
    intros keys _. destruct keys; discriminate. }
  intros st C. apply collect_keys_shallow in C.
  apply bind_in_fuel; [|discriminate].
  apply fold_in_fuel; [discriminate|].
  intros [key key_schemas] merged_keys I. cbn [fst snd].
  apply bind_in_fuel.
  - destruct key_schemas as [|s1 [|s2 rest]];
      [cbn; discriminate|discriminate|].
    remember (s1 :: s2 :: rest) as ks eqn:Ek.
      apply bind_in_fuel.
      { apply mapM_in_fuel. intros x _.
        apply bind_in_fuel; [apply py_get_in_fuel|].
        intros; apply as_key_in_fuel. }
      intros types _. destruct (Counter types) as [|[t n] [|]]; try discriminate.
      destruct (key_eqb t "string").
      { apply bind_in_fuel; [apply merge_string_schemas_in_fuel|].
        discriminate. }
      destruct (key_eqb t "object"); [|discriminate].
      apply bind_in_fuel; [|discriminate].
      apply IH.
      assert (B : forall x, In x ks -> (S (S (depth x)) <= max_depth schemas)%nat).
      { intros x Ix. exact (C key ks x I Ix). }
      assert (M : (max_depth ks <= max_depth schemas - 2)%nat).
      { clear - B. unfold max_depth in *.
        induction ks as [|y ks IHk]; simpl; [lia|].
        pose proof (B y (or_introl eq_refl)).
        specialize (IHk (fun x Ix => B x (or_intror Ix))). lia. }
      pose proof (B s1 ltac:(subst ks; now left)). lia.
  - intros merged _. apply bind_in_fuel; [|discriminate].
    destruct (_ <? _)%nat; [apply set_item_in_fuel|discriminate].
Qed.

Lemma merge_object_schemas_fuel (schemas : list value) :
  merge_object_schemas schemas <> Raise RecursionError.
Proof.
  unfold merge_object_schemas. apply merge_rec_in_fuel.
  rewrite depth_list. lia.
Qed.

Lemma take_map_In {A B} (f : A -> B) (n : nat) (xs : list A) (y : B) :
  In y (take_map f n xs) -> exists x, In x xs /\ y = f x.
Proof.
  revert n. induction xs as [|x xs IH]; intros [|n]; simpl; try tauto.
  intros [E|I].
  - exists x. auto.
  - destruct (IH n I) as [x' [I' E']]. exists x'. auto.
Qed.

Lemma infer_schema_in_fuel (n : nat) (obj : value) :
  (depth obj <= n)%nat ->
  forall samples path, infer_schema obj samples path <> Raise RecursionError.
Proof.
  revert obj. induction n as [|n IH]; intros obj D samples path;
    destruct obj as [| | | | |xs|xs|items]; try discriminate;
    try (simpl in D; lia).
  - cbn [infer_schema]. destruct xs as [|x0 xs0]; [discriminate|].
    remember (x0 :: xs0) as xs eqn:Ex.
    apply bind_in_fuel.
    { unfold sequence. apply mapM_in_fuel. intros r I.
      apply take_map_In in I. destruct I as [x [I E]]. subst r.
      apply IH. pose proof (max_depth_In _ _ I). rewrite depth_list in D. lia. }
    intros item_schemas _. apply bind_in_fuel.
    { apply mapM_in_fuel. intros s _. apply as_key_in_fuel. }
    intros item_types _.
    destruct (Counter item_types) as [|[t c] [|]].
    + destruct item_schemas; discriminate.
    + destruct (key_eqb t "object").
      { apply bind_in_fuel; [apply merge_object_schemas_fuel|discriminate]. }
      destruct (key_eqb t "string"); [|discriminate].
      apply bind_in_fuel; [apply merge_string_schemas_in_fuel|].
      discriminate.
    + destruct item_schemas; discriminate.
  - cbn [infer_schema]. apply bind_in_fuel; [|discriminate].
    unfold sequence. apply mapM_in_fuel. intros r I.
    apply in_map_iff in I. destruct I as [[k v] [E I]]. subst r.
    apply bind_in_fuel; [|discriminate]. apply IH.
    pose proof (depth_item _ _ _ I). simpl in *. lia.
Qed.

(** Nor is [RecursionError] an outcome of the embedding of
    [infer_schema], which has no limit to reach. *)
Lemma infer_schema_fuel (obj : value) (samples : Z) (path : string) :
  infer_schema obj samples path <> Raise RecursionError.
Proof. now apply (infer_schema_in_fuel (depth obj)). Qed.

(** ** Dimension keys *)

Lemma le_bytes_length (count : nat) (x : Z) :
  List.length (MD5.le_bytes count x) = count.
Proof.
  revert x. induction count as [|count IH]; simpl; intro x;
    [reflexivity|now rewrite IH].
Qed.

Lemma digest_length (msg : list Z) : List.length (MD5.digest msg) = 16%nat.
Proof.
  unfold MD5.digest.
  destruct (fold_left MD5.process _ MD5.init) as [[[A B] C] D].
  rewrite !length_app, !le_bytes_length. reflexivity.
Qed.

Lemma hex_length (bytes : list Z) :
  String.length (MD5.hex bytes) = (2 * List.length bytes)%nat.
Proof.
  induction bytes as [|b bytes IH]; simpl; [reflexivity|]. rewrite IH. lia.
Qed.

Lemma hex_digit_lower (n : Z) : lower_hex (MD5.hex_digit n) = true.
Proof.
  unfold MD5.hex_digit.
  assert (B : (Z.to_nat (n mod 16) < 16)%nat).
  { pose proof (Z.mod_pos_bound n 16 ltac:(lia)). lia. }
  remember (Z.to_nat (n mod 16)) as k eqn:E. clear E.
  do 16 (destruct k as [|k]; [reflexivity|]). lia.
Qed.

Lemma hex_lower (bytes : list Z) :
  forallb lower_hex (list_ascii_of_string (MD5.hex bytes)) = true.
Proof.
  induction bytes as [|b bytes IH]; simpl; [reflexivity|].
  now rewrite !hex_digit_lower, IH.
Qed.

Lemma hexdigest_format (s : string) :
  String.length (MD5.hexdigest s) = 32%nat
  /\ forallb lower_hex (list_ascii_of_string (MD5.hexdigest s)) = true.
Proof.
  unfold MD5.hexdigest. split.
  - now rewrite hex_length, digest_length.
  - apply hex_lower.
Qed.

Lemma fields_free (x : string) :
  delimiter_free x = true -> fields x = (x, []).
Proof.
  unfold delimiter_free. induction x as [|c x IH]; simpl; intro H;
    [reflexivity|].
  apply andb_true_iff in H. destruct H as [C H]. rewrite (IH H).
  apply negb_true_iff in C. now rewrite C.
Qed.

Lemma fields_app (x rest : string) :
  delimiter_free x = true ->
  fields (x ++ String "|" rest)
  = (x, fst (fields rest) :: snd (fields rest)).
Proof.
  unfold delimiter_free. induction x as [|c x IH]; simpl; intro H.
  - destruct (fields rest). reflexivity.
  - apply andb_true_iff in H. destruct H as [C H]. rewrite (IH H).
    apply negb_true_iff in C. now rewrite C.
Qed.

Lemma fields_concat (x : string) (l : list string) :
  forallb delimiter_free (x :: l) = true ->
  fields (String.concat "|" (x :: l)) = (x, l).
Proof.
  revert x. induction l as [|y l IH]; intros x H.
  - simpl in H. rewrite andb_true_r in H. simpl. now apply fields_free.
  - simpl in H. apply andb_true_iff in H. destruct H as [X H].
    change (String.concat "|" (x :: y :: l))
      with (x ++ String "|" (String.concat "|" (y :: l))).
    rewrite (fields_app _ _ X), (IH y H). reflexivity.
Qed.

Lemma concat_injective (a b : list string) :
  a <> [] -> b <> [] ->
  forallb delimiter_free a = true -> forallb delimiter_free b = true ->
  String.concat "|" a = String.concat "|" b -> a = b.
Proof.
  intros Na Nb Fa Fb E.
  destruct a as [|x a]; [contradiction|]. destruct b as [|y b]; [contradiction|].
  pose proof (fields_concat x a Fa) as Ha.
  pose proof (fields_concat y b Fb) as Hb.
  rewrite E in Ha. rewrite Ha in Hb. now inversion Hb.
Qed.

Lemma clean_components (sentinel : string) (ks : list (option string)) :
  delimiter_free sentinel = true -> clean sentinel ks = true ->
  map (StarSchema.component sentinel) ks <> []
  /\ forallb delimiter_free (map (StarSchema.component sentinel) ks) = true.
Proof.
  unfold clean. intros S H. apply andb_true_iff in H. destruct H as [N F].
  split.
  - destruct ks; [discriminate N|discriminate].
  - clear N. induction ks as [|k ks IH]; simpl in *; [reflexivity|].
    apply andb_true_iff in F. destruct F as [K F]. rewrite (IH F).
    destruct k as [s|]; simpl.
    + apply andb_true_iff in K. destruct K as [K _]. now rewrite K.
    + now rewrite S.
Qed.

Lemma components_injective (sentinel : string) (a b : list (option string)) :
  clean sentinel a = true -> clean sentinel b = true ->
  map (StarSchema.component sentinel) a = map (StarSchema.component sentinel) b ->
  a = b.
Proof.
  unfold clean. intros Ha Hb.
  apply andb_true_iff in Ha. destruct Ha as [_ Fa].
  apply andb_true_iff in Hb. destruct Hb as [_ Fb].
  revert b Fb. induction a as [|x a IH]; intros [|y b] Fb E;
    try discriminate E; [reflexivity|].
  simpl in *. apply andb_true_iff in Fa. destruct Fa as [X Fa].
  apply andb_true_iff in Fb. destruct Fb as [Y Fb].
  inversion E as [[E1 E2]]. rewrite (IH Fa b Fb E2). f_equal.
  destruct x as [s|], y as [t|]; simpl in E1; subst; try reflexivity.
  - apply andb_true_iff in X. destruct X as [_ X].
    apply negb_true_iff in X. now rewrite String.eqb_refl in X.
  - apply andb_true_iff in Y. destruct Y as [_ Y].
    apply negb_true_iff in Y. now rewrite String.eqb_refl in Y.
Qed.

Lemma key_string_injective (sentinel : string) (a b : list (option string)) :
  delimiter_free sentinel = true ->
  clean sentinel a = true -> clean sentinel b = true ->
  StarSchema.key_string sentinel a = StarSchema.key_string sentinel b ->
  a = b.
Proof.
  intros S Ca Cb E. apply (components_injective sentinel a b Ca Cb).
  destruct (clean_components sentinel a S Ca) as [Na Fa].
  destruct (clean_components sentinel b S Cb) as [Nb Fb].
  exact (concat_injective _ _ Na Nb Fa Fb E).
Qed.

(** C4, as amended.  The key is a function of the components, an absent
    one counting as the sentinel: sequences with the same components get
    the same key.  For every sequence, [(None,)] included, it is 32
    lowercase hexadecimal digits.  Distinct sequences can share a key
    with no digest collision: [(None,)] and the sequence that spells the
    sentinel do.  With a sentinel that holds no delimiter, on sequences
    that are not empty, whose components hold no delimiter and are not
    spelled like the sentinel, two distinct sequences are hashed from
    distinct strings, so that their keys are equal only where MD5
    collides. *)
Theorem dimension_key_properties (sentinel : string) :
  (forall a b,
      map (StarSchema.component sentinel) a
      = map (StarSchema.component sentinel) b ->
      StarSchema.generate_dimension_key sentinel a
      = StarSchema.generate_dimension_key sentinel b)
  /\ (forall ks,
        String.length (StarSchema.generate_dimension_key sentinel ks) = 32%nat
        /\ forallb lower_hex
             (list_ascii_of_string
                (StarSchema.generate_dimension_key sentinel ks)) = true)
  /\ StarSchema.generate_dimension_key sentinel [None]
     = StarSchema.generate_dimension_key sentinel [Some sentinel]
  /\ (delimiter_free sentinel = true ->
      forall a b,
        clean sentinel a = true -> clean sentinel b = true -> a <> b ->
        StarSchema.key_string sentinel a <> StarSchema.key_string sentinel b
        /\ (StarSchema.generate_dimension_key sentinel a
            = StarSchema.generate_dimension_key sentinel b ->
            md5_collision (StarSchema.key_string sentinel a)
              (StarSchema.key_string sentinel b))).
Proof.
  split; [|split; [|split]].
  - intros a b E. unfold StarSchema.generate_dimension_key,
      StarSchema.key_string. now rewrite E.
  - intro ks. apply hexdigest_format.
  - reflexivity.
  - intros S a b Ca Cb N.
    assert (K : StarSchema.key_string sentinel a
                <> StarSchema.key_string sentinel b).
    { intro E. apply N. exact (key_string_injective sentinel a b S Ca Cb E). }
    split; [exact K|]. intro E. split; [exact K|exact E].
Qed.

Lemma dimension_key_properties_witness :
  StarSchema.key_string "NULL" [Some "project"; Some "/home/user"]
  <> StarSchema.key_string "NULL" [None; Some "/home/user"]
  /\ (StarSchema.generate_dimension_key "NULL"
        [Some "project"; Some "/home/user"]
      = StarSchema.generate_dimension_key "NULL" [None; Some "/home/user"] ->
      md5_collision
        (StarSchema.key_string "NULL" [Some "project"; Some "/home/user"])
        (StarSchema.key_string "NULL" [None; Some "/home/user"])).
Proof.
  apply (proj2 (proj2 (proj2 (dimension_key_properties "NULL")))).
  - reflexivity.
  - reflexivity.
  - reflexivity.
  - discriminate.
Defined.

(** C4, the claim fails.  By the algorithm of the specification an absent
    component is hashed as the sentinel string, so [(None,)] and the
    one-component sequence that spells the sentinel are hashed from the
    same string: two distinct sequences, of one component each and
    without a delimiter, that get the same key with no digest collision
    involved.  So it is with the sentinel ["NULL"], and with any other:
    as functions of the sentinel the two keys are the same. *)
Lemma distinct_sequences_same_key :
  [None] <> [Some "NULL"]
  /\ StarSchema.key_string "NULL" [None]
     = StarSchema.key_string "NULL" [Some "NULL"]
  /\ StarSchema.generate_dimension_key "NULL" [None]
     = StarSchema.generate_dimension_key "NULL" [Some "NULL"]
  /\ (fun sentinel => StarSchema.generate_dimension_key sentinel [None])
     = (fun sentinel =>
          StarSchema.generate_dimension_key sentinel [Some sentinel]).
Proof.
  split; [discriminate|]. split; [reflexivity|].
  unfold StarSchema.generate_dimension_key, StarSchema.key_string.
  cbn [map StarSchema.component String.concat].
  split; reflexivity.
Qed.

(** The keys of the test suite: the MD5 of the joined components. *)
Example dimension_key_values :
  StarSchema.generate_dimension_key "NULL" [Some "project"; Some "/home/user"]
  = "c40bc64de4addf478225348a36c4adff"
  /\ StarSchema.generate_dimension_key "NULL" [Some "Write"]
     = "1129c0e4d43f2d121652a7302712cff6"
  /\ StarSchema.generate_dimension_key "NULL" [Some "Read"]
     <> StarSchema.generate_dimension_key "NULL" [Some "Write"].
Proof.
  split; [vm_compute; reflexivity|]. split; [vm_compute; reflexivity|].
  vm_compute. discriminate.
Qed.

(** ** The session summary *)

Section Summary.

Variable parse_timestamp : string -> option Z.

Lemma has_type_of_type (t : string) (l : dict) :
  StarSchema.has_type t l = of_type t l.
Proof.
  unfold StarSchema.has_type, of_type, get.
  now destruct (lookup "type" l) as [[| | | | | | |]|].
Qed.

Lemma tool_uses_content (l : dict) :
  StarSchema.tool_uses l
  = List.length (filter (fun block => eq_str (block_type block) "tool_use")
                   (content_of l)).
Proof.
  unfold StarSchema.tool_uses, content_of, get.
  destruct (lookup "message" l) as [[| | | | | | |message]|]; try reflexivity.
  destruct (lookup "content" message) as [[| | | | |blocks| |]|];
    try reflexivity.
  f_equal. induction blocks as [|b blocks IH]; [reflexivity|].
  simpl. rewrite IH.
  now destruct b as [| | | | | | |d].
Qed.

Lemma instant_read_timestamp (l : dict) :
  StarSchema.instant parse_timestamp (timestamp_of l)
  = read_timestamp parse_timestamp l.
Proof.
  unfold StarSchema.instant, timestamp_of, read_timestamp, get.
  now destruct (lookup "timestamp" l) as [[| | | | | | |]|].
Qed.

Lemma count_type_cons (t : string) (l : dict) (ls : list dict) :
  count_type t (l :: ls)
  = ((if StarSchema.has_type t l then 1 else 0) + count_type t ls)%nat.
Proof.
  rewrite has_type_of_type. unfold count_type. simpl.
  now destruct (of_type t l).
Qed.

Lemma count_tool_uses_cons (l : dict) (ls : list dict) :
  count_tool_uses (l :: ls) = (StarSchema.tool_uses l + count_tool_uses ls)%nat.
Proof.
  rewrite tool_uses_content. unfold count_tool_uses.
  cbn [flat_map]. now rewrite filter_app, length_app.
Qed.

Lemma last_cons_default {A} (x d d' : A) (xs : list A) :
  last (x :: xs) d = last (x :: xs) d'.
Proof.
  revert x. induction xs as [|y ys IH]; intro x; [reflexivity|].
  change (last (x :: y :: ys) d) with (last (y :: ys) d).
  change (last (x :: y :: ys) d') with (last (y :: ys) d').
  apply IH.
Qed.

Lemma observe_fold (loglines : list dict) (r : StarSchema.running) :
  let r' := fold_left StarSchema.observe loglines r in
  StarSchema.messages r' = (StarSchema.messages r + List.length loglines)%nat
  /\ StarSchema.from_user r'
     = (StarSchema.from_user r + count_type "user" loglines)%nat
  /\ StarSchema.from_assistant r'
     = (StarSchema.from_assistant r + count_type "assistant" loglines)%nat
  /\ StarSchema.tool_calls r'
     = (StarSchema.tool_calls r + count_tool_uses loglines)%nat
  /\ StarSchema.first_timestamp r'
     = match StarSchema.first_timestamp r, loglines with
       | Some t, _ => Some t
       | None, first :: _ => timestamp_of first
       | None, [] => None
       end
  /\ StarSchema.last_timestamp r'
     = match loglines with
       | [] => StarSchema.last_timestamp r
       | first :: _ => timestamp_of (last loglines first)
       end.
Proof.
  revert r. induction loglines as [|l ls IH]; intro r.
  - cbv zeta. cbn [fold_left List.length].
    change (count_type "user" []) with O.
    change (count_type "assistant" []) with O.
    change (count_tool_uses []) with O.
    rewrite !Nat.add_0_r.
    repeat (split; [reflexivity|]). split; [|reflexivity].
    now destruct (StarSchema.first_timestamp r).
  - cbn [fold_left]. specialize (IH (StarSchema.observe r l)).
    cbv zeta in IH. destruct IH as [M [U [A [T [F L]]]]].
    cbv zeta. rewrite M, U, A, T, F, L.
    rewrite !count_type_cons, count_tool_uses_cons.
    cbn [StarSchema.observe StarSchema.messages StarSchema.from_user
         StarSchema.from_assistant StarSchema.tool_calls
         StarSchema.first_timestamp StarSchema.last_timestamp List.length].
    split; [lia|].
    split; [destruct (StarSchema.has_type "user" l); lia|].
    split; [destruct (StarSchema.has_type "assistant" l); lia|].
    split; [lia|].
    split; [now destruct (StarSchema.first_timestamp r)|].
    destruct ls as [|l' ls']; [reflexivity|].
    unfold timestamp_of. f_equal. f_equal.
    change (last (l :: l' :: ls') l) with (last (l' :: ls') l).
    apply last_cons_default.
Qed.

Lemma duration_same_instant (t : option value) :
  StarSchema.duration_seconds parse_timestamp t t = 0%Z.
Proof.
  unfold StarSchema.duration_seconds.
  destruct (StarSchema.instant parse_timestamp t); [|reflexivity].
  now rewrite Z.sub_diag.
Qed.

(** C5.  Whatever the reader of timestamps, one run over a session's
    loglines appends exactly one row to [fact_session_summary]; its counts
    are the number of loglines, of those whose [type] is ["user"], of those
    whose [type] is ["assistant"], and of the [tool_use] blocks in their
    contents; its duration is the whole number of seconds from the first
    logline's timestamp to the last one's, zero for a single logline and
    zero when either timestamp cannot be read.  The run is a total
    function: there is no input on which it aborts. *)
Theorem session_summary_row (conn : StarSchema.store) (loglines : list dict) :
  exists row,
    StarSchema.fact_session_summary
      (StarSchema.run_star_schema_etl parse_timestamp conn loglines)
    = (StarSchema.fact_session_summary conn ++ [row])%list
    /\ StarSchema.total_messages row = List.length loglines
    /\ StarSchema.user_messages row = count_type "user" loglines
    /\ StarSchema.assistant_messages row = count_type "assistant" loglines
    /\ StarSchema.total_tool_calls row = count_tool_uses loglines
    /\ StarSchema.session_duration_seconds row
       = session_duration parse_timestamp loglines
    /\ (forall first a b,
          hd_error loglines = Some first ->
          read_timestamp parse_timestamp first = Some a ->
          read_timestamp parse_timestamp (last loglines first) = Some b ->
          StarSchema.session_duration_seconds row = Z.quot (b - a) 1000000)
    /\ (List.length loglines = 1%nat ->
        StarSchema.session_duration_seconds row = 0%Z)
    /\ (forall first,
          hd_error loglines = Some first ->
          read_timestamp parse_timestamp first = None
          \/ read_timestamp parse_timestamp (last loglines first) = None ->
          StarSchema.session_duration_seconds row = 0%Z).
Proof.
  unfold StarSchema.run_star_schema_etl.
  pose proof (observe_fold loglines (StarSchema.Running 0 0 0 0 None None))
    as H.
  cbv zeta in H. destruct H as [M [U [A [T [F L]]]]].
  eexists. split; [reflexivity|].
  cbn [StarSchema.total_messages StarSchema.user_messages
       StarSchema.assistant_messages StarSchema.total_tool_calls
       StarSchema.session_duration_seconds].
  rewrite M, U, A, T, F, L.
  cbn [StarSchema.messages StarSchema.from_user StarSchema.from_assistant
       StarSchema.tool_calls StarSchema.first_timestamp
       StarSchema.last_timestamp].
  assert (D : StarSchema.duration_seconds parse_timestamp
                match loglines with
                | [] => None
                | first :: _ => timestamp_of first
                end
                match loglines with
                | [] => None
                | first :: _ => timestamp_of (last loglines first)
                end
              = session_duration parse_timestamp loglines).
  { destruct loglines as [|l ls]; [reflexivity|].
    unfold StarSchema.duration_seconds, session_duration.
    now rewrite !instant_read_timestamp. }
  rewrite D.
  repeat (split; [reflexivity|]).
  split; [|split].
  - intros first a b Hd Ia Ib.
    destruct loglines as [|l ls]; [discriminate Hd|].
    inversion Hd; subst first.
    unfold session_duration. now rewrite Ia, Ib.
  - intro One. destruct loglines as [|l [|l' ls]]; try discriminate One.
    unfold session_duration. cbn [last].
    destruct (read_timestamp parse_timestamp l); [|reflexivity].
    now rewrite Z.sub_diag.
  - intros first Hd [N|N]; destruct loglines as [|l ls];
      try discriminate Hd; inversion Hd; subst first;
      unfold session_duration; rewrite N; [reflexivity|].
    now destruct (read_timestamp parse_timestamp l).
Qed.

End Summary.

Lemma session_summary_row_witness :
  exists row,
    StarSchema.fact_session_summary
      (StarSchema.run_star_schema_etl StarSchema.iso8601_micros
         (StarSchema.Store []) Samples.sample_session)
    = ([] ++ [row])%list
    /\ StarSchema.total_messages row = List.length Samples.sample_session
    /\ StarSchema.user_messages row = count_type "user" Samples.sample_session
    /\ StarSchema.assistant_messages row
       = count_type "assistant" Samples.sample_session
    /\ StarSchema.total_tool_calls row = count_tool_uses Samples.sample_session
    /\ StarSchema.session_duration_seconds row
       = session_duration StarSchema.iso8601_micros Samples.sample_session
    /\ (forall first a b,
          hd_error Samples.sample_session = Some first ->
          read_timestamp StarSchema.iso8601_micros first = Some a ->
          read_timestamp StarSchema.iso8601_micros
            (last Samples.sample_session first) = Some b ->
          StarSchema.session_duration_seconds row = Z.quot (b - a) 1000000)
    /\ (List.length Samples.sample_session = 1%nat ->
        StarSchema.session_duration_seconds row = 0%Z)
    /\ (forall first,
          hd_error Samples.sample_session = Some first ->
          read_timestamp StarSchema.iso8601_micros first = None
          \/ read_timestamp StarSchema.iso8601_micros
               (last Samples.sample_session first) = None ->
          StarSchema.session_duration_seconds row = 0%Z).
Proof.
  exact (session_summary_row StarSchema.iso8601_micros (StarSchema.Store [])
           Samples.sample_session).
Defined.

(** The canonical fixture: six loglines, three from each side, two tool
    calls, 10:00:00 to 10:00:25; and a session whose last timestamp is not
    a timestamp. *)
Example fixture_summary :
  StarSchema.run_star_schema_etl StarSchema.iso8601_micros
    (StarSchema.Store []) Samples.sample_session
  = StarSchema.Store [StarSchema.SessionSummary 6 3 3 2 25]
  /\ StarSchema.run_star_schema_etl StarSchema.iso8601_micros
       (StarSchema.Store []) Samples.undated_session
     = StarSchema.Store [StarSchema.SessionSummary 2 1 1 0 0].
Proof. split; vm_compute; reflexivity. Qed.

(** The same numbers, counted over the fixture's loglines. *)
Example fixture_counts :
  List.length Samples.sample_session = 6%nat
  /\ count_type "user" Samples.sample_session = 3%nat
  /\ count_type "assistant" Samples.sample_session = 3%nat
  /\ count_tool_uses Samples.sample_session = 2%nat
  /\ session_duration StarSchema.iso8601_micros Samples.sample_session = 25%Z.
Proof. repeat split; vm_compute; reflexivity. Qed.

(* ================================================================== *)
(** * Further properties of the normalisers and of the parser *)
(* ================================================================== *)

Import SpecMore.

Lemma eq_str_true (v : value) (s : string) :
  eq_str v s = true -> v = VStr s.
Proof.
  destruct v; simpl; try discriminate. intro H.
  apply String.eqb_eq in H. now subst.
Qed.

Lemma convert_content_block_type (block : dict) :
  block_type (convert_content_block block) = get block "type".
Proof.
  unfold convert_content_block.
  destruct (eq_str (get block "type") "text") eqn:T1;
    [now apply eq_str_true in T1|].
  destruct (eq_str (get block "type") "thinking") eqn:T2.
  { apply eq_str_true in T2. now destruct (truthy (get block "summaries")). }
  destruct (eq_str (get block "type") "tool_use") eqn:T3;
    [now apply eq_str_true in T3|].
  destruct (eq_str (get block "type") "tool_result") eqn:T4;
    [now apply eq_str_true in T4|].
  reflexivity.
Qed.

(** X1.  The block normaliser keeps the type of every block: the [type] of
    its result is [block.get("type")], [None] when the block has none. *)
Theorem block_type_preserved (block : dict) :
  block_type (convert_content_block block) = get block "type".
Proof. exact (convert_content_block_type block). Qed.

(** X2.  Whatever other keys a block of a known type carries, the result
    has the canonical keys of its type and no other; [_summaries] is there
    exactly for a thinking block whose [summaries] are truthy, and holds
    them as they are. *)
Theorem known_blocks_keep_canonical_keys (block : dict) :
  (eq_str (get block "type") "text" = true ->
   keys_of (convert_content_block block) = [KStr "type"; KStr "text"])
  /\ (eq_str (get block "type") "tool_use" = true ->
      keys_of (convert_content_block block)
      = [KStr "type"; KStr "id"; KStr "name"; KStr "input"])
  /\ (eq_str (get block "type") "tool_result" = true ->
      keys_of (convert_content_block block)
      = [KStr "type"; KStr "tool_use_id"; KStr "content"; KStr "is_error"])
  /\ (eq_str (get block "type") "thinking" = true ->
      if truthy (get block "summaries")
      then convert_content_block block
           = VDict [ (KStr "type", VStr "thinking");
                     (KStr "thinking", get_or block "thinking" (VStr ""));
                     (KStr "_summaries", get block "summaries") ]
      else keys_of (convert_content_block block)
           = [KStr "type"; KStr "thinking"]).
Proof.
  unfold convert_content_block. repeat split; intro H.
  - now rewrite H.
  - apply eq_str_true in H. now rewrite H.
  - apply eq_str_true in H. now rewrite H.
  - apply eq_str_true in H. rewrite H. simpl.
    now destruct (truthy (get block "summaries")).
Qed.

Lemma known_blocks_keep_canonical_keys_witness :
  keys_of (convert_content_block
             [ (KStr "start_timestamp", VStr "2026-01-06T21:03:55.204746Z");
               (KStr "type", VStr "text");
               (KStr "text", VStr "Hello");
               (KStr "citations", VList []) ])
  = [KStr "type"; KStr "text"].
Proof.
  apply (proj1 (known_blocks_keep_canonical_keys
                  [ (KStr "start_timestamp", VStr "2026-01-06T21:03:55.204746Z");
                    (KStr "type", VStr "text");
                    (KStr "text", VStr "Hello");
                    (KStr "citations", VList []) ])).
  reflexivity.
Defined.

Lemma lookup_filter_other (k : key) (block : dict) :
  k <> KStr "type" ->
  lookup k (filter (fun kv => negb (key_eqb (fst kv) "type")) block)
  = lookup k block.
Proof.
  intro N. induction block as [|[k' v] block IH]; simpl; [reflexivity|].
  destruct (key_eqb k' "type") eqn:E; simpl.
  - apply key_eqb_eq in E. subst k'.
    apply key_eqb_neq in N. now rewrite N.
  - now rewrite IH.
Qed.

(** X3.  A block of any other type passes through: every key but [type]
    keeps its value (none is added, none is lost), and [type] is set to
    [block.get("type")], also when the block had no such key. *)
Theorem unknown_blocks_pass_through (block : dict) :
  known_type (get block "type") = false ->
  exists out,
    convert_content_block block = VDict out
    /\ lookup "type" out = Some (get block "type")
    /\ forall k, k <> KStr "type" -> lookup k out = lookup k block.
Proof.
  unfold known_type, convert_content_block. intro H.
  apply orb_false_iff in H. destruct H as [H T4].
  apply orb_false_iff in H. destruct H as [H T3].
  apply orb_false_iff in H. destruct H as [T1 T2].
  rewrite T1, T2, T3, T4. eexists. split; [reflexivity|].
  split; [reflexivity|].
  intros k N. simpl. rewrite (proj2 (key_eqb_neq k "type") N).
  now apply lookup_filter_other.
Qed.

Lemma unknown_blocks_pass_through_witness :
  exists out,
    convert_content_block
      [ (KStr "source", VStr "upload"); (KStr "type", VStr "image") ]
    = VDict out
    /\ lookup "type" out = Some (VStr "image")
    /\ forall k, k <> KStr "type" ->
         lookup k out
         = lookup k [ (KStr "source", VStr "upload");
                      (KStr "type", VStr "image") ].
Proof.
  apply (unknown_blocks_pass_through
           [ (KStr "source", VStr "upload"); (KStr "type", VStr "image") ]).
  reflexivity.
Defined.

Lemma filter_type_twice (block : dict) :
  filter (fun kv => negb (key_eqb (fst kv) "type"))
    (filter (fun kv => negb (key_eqb (fst kv) "type")) block)
  = filter (fun kv => negb (key_eqb (fst kv) "type")) block.
Proof.
  induction block as [|kv block IH]; simpl; [reflexivity|].
  destruct (negb (key_eqb (fst kv) "type")) eqn:E; simpl;
    [rewrite E, IH|]; auto.
Qed.

Lemma convert_unknown (block : dict) :
  known_type (get block "type") = false ->
  convert_content_block block
  = VDict ((KStr "type", get block "type")
             :: filter (fun kv => negb (key_eqb (fst kv) "type")) block).
Proof.
  unfold known_type, convert_content_block. intro H.
  apply orb_false_iff in H. destruct H as [H T4].
  apply orb_false_iff in H. destruct H as [H T3].
  apply orb_false_iff in H. destruct H as [T1 T2].
  now rewrite T1, T2, T3, T4.
Qed.

(** X4.  Normalising a block a second time changes nothing, with one
    exception: a thinking block whose summaries were kept loses them,
    because the second pass looks for [summaries] and finds [_summaries]. *)
Theorem block_normalised_twice (block : dict) :
  exists out,
    convert_content_block block = VDict out
    /\ (has_summaries block = false -> convert_content_block out = VDict out)
    /\ (has_summaries block = true ->
        lookup "_summaries" out = Some (get block "summaries")
        /\ convert_content_block out
           = VDict [ (KStr "type", VStr "thinking");
                     (KStr "thinking", get_or block "thinking" (VStr "")) ]).
Proof.
  destruct (known_type (get block "type")) eqn:K.
  - unfold has_summaries, convert_content_block at 1.
    unfold known_type in K.
    destruct (eq_str (get block "type") "text") eqn:T1.
    { eexists. split; [reflexivity|]. rewrite (eq_str_true _ _ T1).
      split; [reflexivity|discriminate]. }
    destruct (eq_str (get block "type") "thinking") eqn:T2.
    { destruct (truthy (get block "summaries")) eqn:S;
        (eexists; split; [reflexivity|]); simpl;
        (split; [intro; try discriminate; reflexivity
                |intro; try discriminate; split; reflexivity]). }
    destruct (eq_str (get block "type") "tool_use") eqn:T3.
    { eexists. split; [reflexivity|]. split; [reflexivity|discriminate]. }
    destruct (eq_str (get block "type") "tool_result") eqn:T4;
      [|discriminate K].
    eexists. split; [reflexivity|]. split; [reflexivity|discriminate].
  - rewrite (convert_unknown block K). eexists. split; [reflexivity|].
    assert (T2 : has_summaries block = false).
    { unfold has_summaries. unfold known_type in K.
      destruct (eq_str (get block "type") "thinking"); [|reflexivity].
      rewrite orb_true_r in K. discriminate K. }
    rewrite T2. split; [|discriminate]. intros _.
    rewrite convert_unknown; [|exact K].
    change (get ((KStr "type", get block "type")
                   :: filter (fun kv => negb (key_eqb (fst kv) "type")) block)
              "type") with (get block "type").
    simpl filter. now rewrite filter_type_twice.
Qed.

Lemma block_normalised_twice_witness :
  exists out,
    convert_content_block
      [ (KStr "type", VStr "thinking"); (KStr "thinking", VStr "hm");
        (KStr "summaries", VList [VStr "s"]) ] = VDict out
    /\ lookup "_summaries" out = Some (VList [VStr "s"])
    /\ convert_content_block out
       = VDict [ (KStr "type", VStr "thinking"); (KStr "thinking", VStr "hm") ].
Proof.
  destruct (block_normalised_twice
              [ (KStr "type", VStr "thinking"); (KStr "thinking", VStr "hm");
                (KStr "summaries", VList [VStr "s"]) ]) as [out [E [_ H]]].
  exists out. split; [exact E|]. apply H. reflexivity.
Defined.

Lemma valid_message_iff (message session_id : value) :
  (exists logline, convert_message_to_logline message session_id = Ok logline)
  <-> valid_message message = true.
Proof.
  split.
  - intros [logline H]. apply convert_message_inv in H.
    destruct H as [m [blocks [E [I _]]]]. subst message. simpl.
    unfold is_iterable. now rewrite I.
  - destruct message as [| | | | | | |m]; try discriminate. simpl.
    unfold is_iterable.
    destruct (iter (get_or m "content" (VList []))) as [blocks|] eqn:I;
      [|discriminate].
    intros _. eexists. exact (convert_message_dict m session_id blocks I).
Qed.

(** X5.  The message normaliser returns exactly on message objects whose
    content can be iterated; it raises [AttributeError] on anything that is
    not an object and [TypeError] on an object whose content is [null], a
    boolean or a number. *)
Theorem message_normaliser_errors (message session_id : value) :
  ((exists logline, convert_message_to_logline message session_id = Ok logline)
   <-> valid_message message = true)
  /\ (is_dict message = false ->
      convert_message_to_logline message session_id = Raise AttributeError)
  /\ (forall m, message = VDict m ->
      is_iterable (get_or m "content" (VList [])) = false ->
      convert_message_to_logline message session_id = Raise TypeError).
Proof.
  split; [exact (valid_message_iff message session_id)|split].
  - destruct message; try discriminate; reflexivity.
  - intros m E I. subst message. unfold is_iterable in I.
    unfold convert_message_to_logline. simpl.
    destruct (get_or m "content" (VList [])); try discriminate I; reflexivity.
Qed.

Lemma message_normaliser_errors_witness :
  convert_message_to_logline
    (VDict [ (KStr "sender", VStr "human"); (KStr "content", VNone) ])
    (VStr "conv-1") = Raise TypeError.
Proof.
  apply (proj2 (proj2 (message_normaliser_errors
                         (VDict [ (KStr "sender", VStr "human");
                                  (KStr "content", VNone) ])
                         (VStr "conv-1")))
           [ (KStr "sender", VStr "human"); (KStr "content", VNone) ]).
  - reflexivity.
  - reflexivity.
Defined.

Lemma convert_blocks_types (blocks : list value) :
  map block_type (convert_blocks blocks)
  = map block_type (filter is_dict blocks).
Proof.
  induction blocks as [|b blocks IH]; simpl; [reflexivity|].
  destruct b; simpl; try exact IH.
  now rewrite IH, convert_content_block_type.
Qed.

(** X6.  The content of a logline has one block for each element of the
    message's content that is an object, in the same order and of the same
    type; the elements that are not objects are skipped. *)
Theorem content_order_preserved (message session_id : value) (logline : dict) :
  convert_message_to_logline message session_id = Ok logline ->
  exists m blocks,
    message = VDict m
    /\ iter (get_or m "content" (VList [])) = Ok blocks
    /\ List.length (content_of logline) = List.length (filter is_dict blocks)
    /\ map block_type (content_of logline)
       = map block_type (filter is_dict blocks).
Proof.
  intro H. apply convert_message_inv in H.
  destruct H as [m [blocks [E [I L]]]]. exists m, blocks.
  split; [exact E|]. split; [exact I|]. subst logline.
  unfold content_of. simpl.
  pose proof (convert_blocks_types blocks) as T.
  split; [|exact T].
  rewrite <- (length_map block_type), T. apply length_map.
Qed.

Lemma content_order_preserved_witness :
  exists m blocks,
    VDict Samples.sample_assistant_message = VDict m
    /\ iter (get_or m "content" (VList [])) = Ok blocks
    /\ List.length
         (content_of
            [ (KStr "type", VStr "assistant");
              (KStr "timestamp", VStr "2026-01-06T21:04:00.000000Z");
              (KStr "sessionId", VStr "s");
              (KStr "uuid", VStr "019b951f-9af0-71be-86b2-response123");
              (KStr "message",
               VDict [ (KStr "role", VStr "assistant");
                       (KStr "content",
                        VList (convert_blocks
                                 [ Samples.sample_thinking_block;
                                   Samples.sample_text_block ])) ]) ])
       = List.length (filter is_dict blocks)
    /\ map block_type
         (content_of
            [ (KStr "type", VStr "assistant");
              (KStr "timestamp", VStr "2026-01-06T21:04:00.000000Z");
              (KStr "sessionId", VStr "s");
              (KStr "uuid", VStr "019b951f-9af0-71be-86b2-response123");
              (KStr "message",
               VDict [ (KStr "role", VStr "assistant");
                       (KStr "content",
                        VList (convert_blocks
                                 [ Samples.sample_thinking_block;
                                   Samples.sample_text_block ])) ]) ])
       = map block_type (filter is_dict blocks).
Proof.
  apply (content_order_preserved (VDict Samples.sample_assistant_message)
           (VStr "s")).
  reflexivity.
Defined.

(** ** When the parser returns *)

Lemma conversation_ok_iff (c : value) :
  (exists ls, convert_conversation_to_loglines c = Ok ls)
  <-> conversation_ok c = true.
Proof.
  split.
  - intros [ls H]. unfold convert_conversation_to_loglines in H.
    destruct c as [| | | | | | |d]; try discriminate H. simpl in *.
    destruct (iter (get_or d "chat_messages" (VList []))) as [ms|];
      [|discriminate H].
    simpl in H. apply mapM_Forall2 in H.
    induction H as [|m l ms ls C _ IH]; simpl; [reflexivity|].
    rewrite IH, andb_true_r.
    apply (proj1 (valid_message_iff m (get_or d "uuid" (VStr "")))).
    now exists l.
  - destruct c as [| | | | | | |d]; try discriminate. simpl.
    unfold convert_conversation_to_loglines. simpl.
    destruct (iter (get_or d "chat_messages" (VList []))) as [ms|];
      [|discriminate].
    intro V. simpl. apply mapM_total. intros m I.
    rewrite forallb_forall in V.
    apply (proj2 (valid_message_iff m (get_or d "uuid" (VStr "")))).
    now apply V.
Qed.

Lemma for_each_returns (convs : list value) (ids : option (list string))
    (it : bool) (acc : list dict) :
  (exists out, for_each_conversation convs ids it acc = Ok out)
  <-> forallb is_dict convs = true
      /\ forallb conversation_ok (filter (included ids) convs) = true.
Proof.
  revert acc. induction convs as [|c convs IH]; intro acc.
  - simpl. split; [auto|]. intros _. now exists acc.
  - cbn [for_each_conversation forallb filter].
    destruct c as [| | | | | | |d];
      try (cbn [py_get bind is_dict andb]; split;
           [intros [out H]; discriminate H|intros [H _]; discriminate H]).
    cbn [py_get bind is_dict andb]. rewrite skip_included.
    destruct (included ids (VDict d)) eqn:Inc; cbn [negb].
    + cbn [forallb]. split.
      * intros [out H].
        destruct (convert_conversation_to_loglines (VDict d)) as [ls|] eqn:E;
          [|discriminate H].
        cbn [bind] in H.
        destruct (if negb it then mapM drop_thinking ls else Ok ls)
          as [ls'|] eqn:D; [|discriminate H].
        cbn [bind] in H.
        destruct (proj1 (IH _) (ex_intro _ out H)) as [A B].
        split; [exact A|]. rewrite B, andb_true_r.
        apply conversation_ok_iff. now exists ls.
      * intros [A B]. apply andb_true_iff in B. destruct B as [Bc B].
        apply conversation_ok_iff in Bc. destruct Bc as [ls E].
        rewrite E. cbn [bind].
        assert (X : exists ls', (if negb it then mapM drop_thinking ls
                                 else Ok ls) = Ok ls').
        { destruct it; cbn [negb]; [now exists ls|].
          destruct (mapM_drop_thinking ls
                      (conversation_loglines_converted _ _ E)) as [ls' [D _]].
          now exists ls'. }
        destruct X as [ls' D]. rewrite D. cbn [bind].
        apply IH. now split.
    + apply IH.
Qed.

Lemma iter_len (v : value) (xs : list value) :
  iter v = Ok xs -> len v = Ok (List.length xs).
Proof.
  destruct v; simpl; try discriminate; intro H; inversion H; subst;
    try reflexivity.
  - f_equal. clear. induction s as [|c s IH]; simpl; [reflexivity|].
    now rewrite IH.
  - now rewrite length_map.
Qed.

(** X7.  The parser returns exactly when the loader returns, the
    conversations can be iterated, every conversation (included or not) is
    an object, and every conversation that passes the allowlist is well
    formed down to the content of its messages.  So one message that is not
    an object makes the whole export fail, while a conversation the
    allowlist excludes is never looked into. *)
Theorem parser_returns_iff (export_path : string) (dir : directory)
    (conversation_ids : option (list string)) (include_thinking : bool) :
  (exists r,
      parse_claude_ai_export export_path dir conversation_ids include_thinking
      = Ok r)
  <-> exists data convs,
        load_export_files export_path dir = Ok data
        /\ iter (conversations data) = Ok convs
        /\ forallb is_dict convs = true
        /\ forallb conversation_ok (filter (included conversation_ids) convs)
           = true.
Proof.
  split.
  - intros [r H]. apply parse_inv in H.
    destruct H as [data [convs [count [L [I [F _]]]]]].
    exists data, convs. split; [exact L|]. split; [exact I|].
    apply (proj1 (for_each_returns convs conversation_ids include_thinking [])).
    now exists (loglines r).
  - intros [data [convs [L [I [D V]]]]].
    destruct (proj2 (for_each_returns convs conversation_ids include_thinking
                       []) (conj D V)) as [out F].
    unfold parse_claude_ai_export. rewrite L. cbn [bind]. rewrite I.
    cbn [bind]. rewrite F. cbn [bind]. rewrite (iter_len _ _ I). cbn [bind].
    eexists. reflexivity.
Qed.

Lemma for_each_none_included (convs : list value) (ids : option (list string))
    (it : bool) (acc : list dict) :
  forallb is_dict convs = true ->
  filter (included ids) convs = [] ->
  for_each_conversation convs ids it acc = Ok acc.
Proof.
  induction convs as [|c convs IH]; simpl; intros D F; [reflexivity|].
  apply andb_true_iff in D. destruct D as [Dc D].
  destruct c as [| | | | | | |d]; try discriminate Dc.
  cbn [py_get bind]. rewrite skip_included.
  destruct (included ids (VDict d)); [discriminate F|]. cbn [negb].
  now apply IH.
Qed.

(** X8.  With an allowlist that no conversation of the export passes (the
    empty allowlist, for one) the parser returns no logline and no error,
    whatever is inside the conversation objects; [conversation_count] still
    counts every conversation of the export. *)
Theorem nothing_passes_allowlist (export_path : string) (dir : directory)
    (ids : list string) (include_thinking : bool) (data : bundle)
    (convs : list value) :
  load_export_files export_path dir = Ok data ->
  conversations data = VList convs ->
  forallb is_dict convs = true ->
  filter (included (Some ids)) convs = [] ->
  exists r,
    parse_claude_ai_export export_path dir (Some ids) include_thinking = Ok r
    /\ loglines r = []
    /\ lookup "conversation_count" (metadata r)
       = Some (VInt (Z.of_nat (List.length convs))).
Proof.
  intros L C D F. unfold parse_claude_ai_export.
  rewrite L. cbn [bind]. rewrite C. cbn [iter bind].
  rewrite (for_each_none_included convs (Some ids) include_thinking [] D F).
  cbn [bind len]. eexists. repeat split; reflexivity.
Qed.

Lemma nothing_passes_allowlist_witness :
  exists r,
    parse_claude_ai_export "/data/export" Samples.export_dir
      (Some ["nonexistent"]) true = Ok r
    /\ loglines r = []
    /\ lookup "conversation_count" (metadata r)
       = Some (VInt (Z.of_nat (List.length [Samples.sample_conversation]))).
Proof.
  apply (nothing_passes_allowlist "/data/export" Samples.export_dir
           ["nonexistent"] true
           (Bundle (VList [Samples.sample_conversation])
              (VList [ VDict [ (KStr "uuid", VStr "proj-123");
                               (KStr "name", VStr "Test Project") ] ])
              (VList [ VDict [ (KStr "uuid", VStr "user-123");
                               (KStr "full_name", VStr "Test User") ] ])
              (VList [ VDict [ (KStr "account_uuid", VStr "user-123") ] ]))
           [Samples.sample_conversation]);
    reflexivity.
Defined.

(** X9.  The metadata of the envelope does not depend on the allowlist nor
    on [include_thinking]: two runs over the same directory that both
    return carry the same metadata, the conversation count being that of
    the raw export. *)
Theorem metadata_ignores_filters (export_path : string) (dir : directory)
    (ids ids' : option (list string)) (it it' : bool) (r r' : export) :
  parse_claude_ai_export export_path dir ids it = Ok r ->
  parse_claude_ai_export export_path dir ids' it' = Ok r' ->
  metadata r = metadata r'
  /\ exists data count,
       load_export_files export_path dir = Ok data
       /\ len (conversations data) = Ok count
       /\ metadata r
          = [ (KStr "source", VStr "claude_ai_export");
              (KStr "export_path", VStr export_path);
              (KStr "projects", projects data);
              (KStr "memories", memories data);
              (KStr "users", users data);
              (KStr "conversation_count", VInt (Z.of_nat count)) ].
Proof.
  intros H H'. apply parse_inv in H. apply parse_inv in H'.
  destruct H as [data [convs [count [L [_ [_ [N M]]]]]]].
  destruct H' as [data' [convs' [count' [L' [_ [_ [N' M']]]]]]].
  rewrite L in L'. inversion L'; subst data'.
  rewrite N in N'. inversion N'; subst count'.
  split; [now rewrite M, M'|]. exists data, count. auto.
Qed.

Lemma metadata_ignores_filters_witness :
  metadata Samples.sample_export = metadata (Export [] (metadata Samples.sample_export))
  /\ exists data count,
       load_export_files "/data/export" Samples.export_dir = Ok data
       /\ len (conversations data) = Ok count
       /\ metadata Samples.sample_export
          = [ (KStr "source", VStr "claude_ai_export");
              (KStr "export_path", VStr "/data/export");
              (KStr "projects", projects data);
              (KStr "memories", memories data);
              (KStr "users", users data);
              (KStr "conversation_count", VInt (Z.of_nat count)) ].
Proof.
  apply (metadata_ignores_filters "/data/export" Samples.export_dir None
           (Some ["nonexistent"]) true false Samples.sample_export
           (Export [] (metadata Samples.sample_export)));
    reflexivity.
Defined.



(* ================================================================== *)
(** * Further properties of the schema inspector *)
(* ================================================================== *)

Import SchemaSpec.

(** ** Dictionaries, counters *)

Lemma get_dict_set_same (k : key) (v : value) (d : dict) :
  get (dict_set k v d) k = v.
Proof. unfold get. now rewrite lookup_dict_set_same. Qed.

Lemma get_dict_set_other (k k' : key) (v : value) (d : dict) :
  k <> k' -> get (dict_set k' v d) k = get d k.
Proof. intro N. unfold get. now rewrite lookup_dict_set_other. Qed.

Lemma get_or_dict_set_other (k k' : key) (v x : value) (d : dict) :
  k <> k' -> get_or (dict_set k' v d) k x = get_or d k x.
Proof. intro N. unfold get_or. now rewrite lookup_dict_set_other. Qed.

Lemma dict_set_In (k k0 : key) (v v0 : value) (d : dict) :
  In (k, v) (dict_set k0 v0 d) -> v = v0 \/ In (k, v) d.
Proof.
  induction d as [|[k1 v1] d IH]; simpl.
  - intros [E|[]]. inversion E. now left.
  - destruct (key_eqb k0 k1); simpl; intros [E|I].
    + inversion E. now left.
    + right. now right.
    + right. now left.
    + destruct (IH I) as [A|A]; [now left|right; now right].
Qed.

Lemma counter_add_keys (k k0 : key) (c : list (key * nat)) :
  In k (map fst (counter_add k0 c)) <-> k = k0 \/ In k (map fst c).
Proof.
  induction c as [|[k1 n] c IH]; simpl.
  - intuition.
  - destruct (key_eqb k0 k1) eqn:E; simpl.
    + apply key_eqb_eq in E. subst k1. intuition.
    + rewrite IH. intuition.
Qed.

Lemma Counter_keys (ks : list key) (k : key) :
  In k (map fst (Counter ks)) <-> In k ks.
Proof.
  unfold Counter.
  assert (G : forall acc,
             In k (map fst (fold_left (fun c k => counter_add k c) ks acc))
             <-> In k ks \/ In k (map fst acc)).
  { induction ks as [|k0 ks IH]; intro acc; simpl; [intuition|].
    rewrite IH, counter_add_keys. intuition. }
  rewrite G. simpl. intuition.
Qed.

Lemma Counter_single (ks : list key) (t : key) (n : nat) :
  Counter ks = [(t, n)] -> forall k, In k ks -> k = t.
Proof.
  intros H k I. apply (Counter_keys ks k) in I. rewrite H in I.
  simpl in I. intuition.
Qed.

Lemma Counter_nil (ks : list key) : Counter ks = [] -> ks = [].
Proof.
  intro H. destruct ks as [|k ks]; [reflexivity|].
  assert (I : In k (map fst (Counter (k :: ks)))).
  { apply Counter_keys. now left. }
  rewrite H in I. destruct I.
Qed.

Lemma as_key_str (v : value) (s : string) :
  as_key v = Ok (KStr s) -> v = VStr s.
Proof. destruct v; simpl; intro H; inversion H; reflexivity. Qed.

(** ** Well-formed schemas *)

Lemma classify_string_shape (s : string) :
  redacted s (classify_string s)
  \/ classify_string s
     = [ (KStr "_type", VStr "string"); (KStr "_format", VStr "enum_like");
         (KStr "_length", VInt (Z.of_nat (String.length s)));
         (KStr "_example_pattern", VStr s) ]
       /\ (String.length s <=? 30)%nat = true
       /\ Re.match_dollar enum_re s = true.
Proof.
  unfold classify_string, redacted.
  repeat match goal with
         | |- context [if ?b then _ else _] =>
             destruct b eqn:?; [left; right; eexists; reflexivity|]
         end.
  destruct ((String.length s <=? 30)%nat && Re.match_dollar enum_re s) eqn:E.
  - right. apply andb_true_iff in E. tauto.
  - left. now left.
Qed.

Lemma classify_string_ok (s : string) :
  get (classify_string s) "_type" = VStr "string"
  /\ string_schema_ok (classify_string s) = true.
Proof.
  destruct (classify_string_shape s) as [[E|[f E]]|[E _]]; rewrite E;
    (split; [reflexivity|]); unfold string_schema_ok; simpl;
    rewrite ?andb_false_r, ?orb_true_r; reflexivity.
Qed.

Lemma merge_string_schemas_ok (schemas : list value) :
  string_schemas schemas ->
  exists m, merge_string_schemas schemas = Ok m
            /\ get m "_type" = VStr "string"
            /\ string_schema_ok m = true.
Proof.
  intro W. unfold merge_string_schemas.
  destruct schemas as [|s0 schemas0]; [now eexists|].
  remember (s0 :: schemas0) as schemas eqn:Es. clear Es s0 schemas0.
  destruct (mapM_total (fun s => f <- py_get s "_format" VNone ;; as_key f)
              schemas) as [format_keys Ef].
  { intros s I. destruct (W s I) as [d [E O]]. subst s. simpl.
    unfold string_schema_ok in O.
    change (get_or d "_format" VNone) with (get d "_format").
    destruct (get d "_format"); try discriminate O; simpl; now eexists. }
  rewrite Ef. cbn [bind].
  destruct (mapM_total (fun s => l <- py_get s "_length" (VInt 0) ;; as_int l)
              schemas) as [lengths El].
  { intros s I. destruct (W s I) as [d [E O]]. subst s. simpl.
    unfold string_schema_ok in O.
    destruct (get_or d "_length" (VInt 0));
      try (rewrite andb_false_r in O; discriminate O).
    simpl. now eexists. }
  rewrite El. cbn [bind].
  match goal with
  | |- context [mapM (fun s => py_get s (KStr "_example_pattern") VNone) ?l] =>
      remember l as enums eqn:Ee
  end.
  assert (En : forall s, In s enums ->
             exists d p, s = VDict d /\ get d "_example_pattern" = VStr p).
  { intros s I. subst enums. apply filter_In in I. destruct I as [I F].
    destruct (W s I) as [d [E O]]. subst s. exists d.
    unfold string_schema_ok in O. rewrite F in O. simpl in O.
    apply andb_true_iff in O. destruct O as [_ O].
    destruct (get d "_example_pattern"); try discriminate O. now eexists. }
  destruct (mapM_total (fun s => py_get s "_example_pattern" VNone) enums)
    as [enum_values Ev].
  { intros s I. destruct (En s I) as [d [p [E _]]]. subst s. now eexists. }
  rewrite Ev. cbn [bind].
  set (base := [ (KStr "_type", VStr "string");
                 (KStr "_length_min",
                  VInt (min_list (hd 0%Z lengths) (tl lengths)));
                 (KStr "_length_max",
                  VInt (max_list (hd 0%Z lengths) (tl lengths))) ]).
  set (result := match Counter format_keys with
                 | [] => base
                 | [(fmt, _)] =>
                     if key_truthy fmt
                     then dict_set "_format" (key_value fmt) base else base
                 | (fmt, _) :: _ :: _ =>
                     dict_set "_formats" (counter_dict (Counter format_keys))
                       base
                 end).
  assert (R : get result "_type" = VStr "string"
              /\ string_schema_ok result = true
              /\ get result "_example_pattern" = VNone
              /\ get_or result "_length" (VInt 0) = VInt 0
              /\ (get result "_format" = VNone
                  \/ exists f, get result "_format" = VStr f)).
  { assert (T : forall r : dict,
               get r "_type" = VStr "string" ->
               get r "_example_pattern" = VNone ->
               get_or r "_length" (VInt 0) = VInt 0 ->
               (get r "_format" = VNone \/ exists f, get r "_format" = VStr f) ->
               get r "_type" = VStr "string"
               /\ string_schema_ok r = true
               /\ get r "_example_pattern" = VNone
               /\ get_or r "_length" (VInt 0) = VInt 0
               /\ (get r "_format" = VNone
                   \/ exists f, get r "_format" = VStr f)).
    { intros r A B C D. repeat (split; [assumption|]).
      split; [|auto]. unfold string_schema_ok. rewrite B, C. simpl.
      rewrite andb_false_r. simpl.
      destruct D as [D|[f D]]; rewrite D; reflexivity. }
    subst result. destruct (Counter format_keys) as [|[fmt n] [|p rest]].
    - apply T; try reflexivity. now left.
    - destruct fmt as [|f]; simpl; [apply T; try reflexivity; now left|].
      destruct (negb (f =? "")%string); simpl.
      + apply T; try reflexivity. right. now eexists.
      + apply T; try reflexivity. now left.
    - apply T; try reflexivity. now left. }
  destruct R as [R1 [R2 [R3 [R4 R5]]]].
  destruct enum_values as [|e enum_values0]; [exists result; auto|].
  remember (e :: enum_values0) as enum_values eqn:Een.
  destruct (mapM_total as_str enum_values) as [values Es].
  { intros v I. apply mapM_Forall2 in Ev.
    clear - Ev I En.
    induction Ev as [|s v0 enums vs E _ IH]; [destruct I|].
    destruct I as [I|I].
    - subst v0. destruct (En s (or_introl eq_refl)) as [d [p [Ed P]]].
      subst s. simpl in E. inversion E.
      change (get_or d "_example_pattern" VNone)
        with (get d "_example_pattern").
      rewrite P. now eexists.
    - apply IH; [|exact I]. intros s' I'. apply En. now right. }
  rewrite Es. cbn [bind].
  destruct (List.length (sorted_set values) <=? 10)%nat;
    [|exists result; auto].
  eexists. split; [reflexivity|].
  assert (Ty : get (dict_set "_enum_values"
                      (VList (map VStr (sorted_set values))) result) "_type"
               = VStr "string").
  { rewrite get_dict_set_other; [exact R1|discriminate]. }
  split; [exact Ty|].
  unfold string_schema_ok.
  rewrite !get_dict_set_other, get_or_dict_set_other by discriminate.
  rewrite R3, R4. simpl. rewrite andb_false_r. simpl.
  destruct R5 as [R5|[f R5]]; rewrite R5; reflexivity.
Qed.

Lemma wf_type (v : value) :
  well_formed v -> exists d t, v = VDict d /\ get d "_type" = VStr t.
Proof. intros [d T _|d items T _ _|d t T _ _]; eauto. Qed.

Lemma wf_string_inv (d : dict) :
  well_formed (VDict d) -> get d "_type" = VStr "string" ->
  string_schema_ok d = true.
Proof.
  intros W T. inversion W as [d0 _ O|d0 items T0 _ _|d0 t T0 N _]; subst.
  - exact O.
  - rewrite T in T0. discriminate T0.
  - rewrite T in T0. inversion T0. congruence.
Qed.

Lemma wf_object_inv (d : dict) :
  well_formed (VDict d) -> get d "_type" = VStr "object" ->
  exists items, get_or d "_keys" (VDict []) = VDict items
                /\ forall k v, In (k, v) items -> well_formed v.
Proof.
  intros W T. inversion W as [d0 T0 _|d0 items _ K A|d0 t T0 _ N]; subst.
  - rewrite T in T0. discriminate T0.
  - now exists items.
  - rewrite T in T0. inversion T0. congruence.
Qed.

Lemma wf_presence (d : dict) (x : value) :
  well_formed (VDict d) -> well_formed (VDict (dict_set "_presence" x d)).
Proof.
  intro W. inversion W as [d0 T O|d0 items T K A|d0 t T N1 N2]; subst.
  - apply wf_string.
    + rewrite get_dict_set_other; [exact T|discriminate].
    + unfold string_schema_ok in *.
      rewrite !get_dict_set_other, get_or_dict_set_other by discriminate.
      exact O.
  - apply (wf_object _ items).
    + rewrite get_dict_set_other; [exact T|discriminate].
    + rewrite get_or_dict_set_other; [exact K|discriminate].
    + exact A.
  - apply (wf_other _ t); [|exact N1|exact N2].
    rewrite get_dict_set_other; [exact T|discriminate].
Qed.

Lemma wf_mixed (c : list (key * nat)) :
  well_formed (VDict [ (KStr "_type", VStr "mixed");
                       (KStr "_types", counter_dict c) ]).
Proof. apply (wf_other _ "mixed"); [reflexivity|discriminate|discriminate]. Qed.

Lemma collect_items_wf (items : list (key * value))
    (st : list (key * list value) * list (key * nat)) :
  grouped well_formed (fst st) ->
  (forall k v, In (k, v) items -> well_formed v) ->
  grouped well_formed
    (fst (fold_left
            (fun st kv => (append_key (fst kv) (snd kv) (fst st),
                           counter_add (fst kv) (snd st)))
            items st)).
Proof.
  revert st. induction items as [|[k0 v0] items IH]; simpl; intros st S0 H;
    [exact S0|].
  apply IH; [|intros k v I; apply (H k v); now right]. simpl.
  intros k ks x I Ix.
  destruct (append_key_In _ _ _ _ _ _ I Ix) as [E|[ks0 [I1 I2]]].
  - subst x. apply (H k0 v0). now left.
  - exact (S0 k ks0 x I1 I2).
Qed.

Lemma collect_keys_wf (schemas : list value) :
  object_schemas schemas ->
  exists st, collect_keys schemas = Ok st /\ grouped well_formed (fst st).
Proof.
  unfold collect_keys.
  assert (G : forall st0,
             object_schemas schemas -> grouped well_formed (fst st0) ->
             exists st,
               fold_left
                 (fun acc schema =>
                    st <- acc ;;
                    keys <- py_get schema "_keys" (VDict []) ;;
                    match keys with
                    | VDict items =>
                        Ok (fold_left
                              (fun st kv =>
                                 (append_key (fst kv) (snd kv) (fst st),
                                  counter_add (fst kv) (snd st)))
                              items st)
                    | _ => Raise AttributeError
                    end) schemas (Ok st0) = Ok st
               /\ grouped well_formed (fst st)).
  { induction schemas as [|s schemas IH]; intros st0 O A.
    - now exists st0.
    - destruct (O s (or_introl eq_refl)) as [d [items [E [K W]]]]. subst s.
      cbn [fold_left bind py_get]. rewrite K.
      apply IH.
      + intros s I. apply O. now right.
      + now apply collect_items_wf. }
  intro O. apply G; [exact O|]. intros k ks x [].
Qed.

Lemma fold_ok {A B} (Inv : A -> Prop) (f : result A -> B -> result A)
    (xs : list B) (init : A) :
  Inv init ->
  (forall x a, In x xs -> Inv a -> exists a', f (Ok a) x = Ok a' /\ Inv a') ->
  exists r, fold_left f xs (Ok init) = Ok r /\ Inv r.
Proof.
  revert init. induction xs as [|x xs IH]; simpl; intros init I G.
  - now exists init.
  - destruct (G x init (or_introl eq_refl) I) as [a' [E I']]. rewrite E.
    apply IH; [exact I'|]. intros y a Iy. apply G. now right.
Qed.

Lemma Forall2_In_l {A B} (R : A -> B -> Prop) (xs : list A) (ys : list B)
    (x : A) :
  Forall2 R xs ys -> In x xs -> exists y, In y ys /\ R x y.
Proof.
  induction 1 as [|a b xs ys Rab _ IH]; intros []; subst.
  - exists b. split; [now left|exact Rab].
  - destruct (IH H) as [y [I Ry]]. exists y. split; [now right|exact Ry].
Qed.

Lemma types_of_schemas (key_schemas : list value) :
  (forall x, In x key_schemas -> well_formed x) ->
  exists types,
    mapM (fun s => t <- py_get s "_type" VNone ;; as_key t) key_schemas
    = Ok types
    /\ forall d, In (VDict d) key_schemas ->
                 exists t, In (KStr t) types /\ get d "_type" = VStr t.
Proof.
  intro W.
  destruct (mapM_total (fun s => t <- py_get s "_type" VNone ;; as_key t)
              key_schemas) as [types E].
  { intros s I. destruct (wf_type s (W s I)) as [d [t [Es T]]]. subst s.
    simpl. change (get_or d "_type" VNone) with (get d "_type").
    rewrite T. now eexists. }
  exists types. split; [exact E|]. intros d I.
  apply mapM_Forall2 in E.
  destruct (Forall2_In_l _ _ _ _ E I) as [k [Ik R]].
  destruct (wf_type _ (W _ I)) as [d' [t [Ed T]]]. inversion Ed; subst d'.
  simpl in R. change (get_or d "_type" VNone) with (get d "_type") in R.
  rewrite T in R. inversion R; subst k. now exists t.
Qed.

Lemma merge_rec_ok (fuel : nat) (schemas : list value) :
  (max_depth schemas < fuel)%nat ->
  object_schemas schemas ->
  exists m, merge_object_schemas_rec fuel schemas = Ok m
            /\ get m "_type" = VStr "object"
            /\ well_formed (VDict m).
Proof.
  revert schemas. induction fuel as [|fuel IH]; intros schemas D O; [lia|].
  cbn [merge_object_schemas_rec]. destruct schemas as [|s0 schemas0].
  { eexists. split; [reflexivity|]. split; [reflexivity|].
    apply (wf_object _ []); [reflexivity|reflexivity|intros k v []]. }
  remember (s0 :: schemas0) as schemas eqn:Es.
  destruct (collect_keys_wf schemas O) as [st [C G]].
  rewrite C. cbn [bind].
  pose proof (collect_keys_shallow schemas st C) as Sh.
  cbv zeta.
  match goal with
  | |- context [fold_left ?f (fst st) (Ok [])] => set (step := f)
  end.
  destruct (fold_ok (fun mk : dict => forall k v, In (k, v) mk -> well_formed v)
              step (fst st) []) as [merged_keys [F Inv]].
  { intros k v []. }
  { intros [key key_schemas] merged_keys I Inv. unfold step.
    cbn [bind fst snd].
    assert (W : forall x, In x key_schemas -> well_formed x).
    { intros x Ix. exact (G key key_schemas x I Ix). }
    assert (M : exists merged,
               match key_schemas with
               | [only] => Ok only
               | _ =>
                   types <- mapM (fun s => t <- py_get s "_type" VNone ;;
                                           as_key t) key_schemas ;;
                   match Counter types with
                   | [(t, _)] =>
                       if key_eqb t "string" then
                         m <- merge_string_schemas key_schemas ;; Ok (VDict m)
                       else if key_eqb t "object" then
                         m <- merge_object_schemas_rec fuel key_schemas ;;
                         Ok (VDict m)
                       else Ok (hd VNone key_schemas)
                   | c => Ok (VDict [ (KStr "_type", VStr "mixed");
                                      (KStr "_types", counter_dict c) ])
                   end
               end = Ok merged /\ well_formed merged).
    { destruct key_schemas as [|s1 [|s2 rest]].
      - cbn. eexists. split; [reflexivity|apply wf_mixed].
      - exists s1. split; [reflexivity|]. apply W. now left.
      - remember (s1 :: s2 :: rest) as ks eqn:Ek.
        destruct (types_of_schemas ks W) as [types [Et Ty]].
        rewrite Et. cbn [bind].
        destruct (Counter types) as [|[t n] [|p more]] eqn:Ec.
        + eexists. split; [reflexivity|apply wf_mixed].
        + assert (All : forall d, In (VDict d) ks ->
                     exists s, t = KStr s /\ get d "_type" = VStr s).
          { intros d Id. destruct (Ty d Id) as [s [Is T]].
            exists s. split; [|exact T]. symmetry.
            exact (Counter_single types t n Ec _ Is). }
          destruct (key_eqb t "string") eqn:Ks.
          { apply key_eqb_eq in Ks. subst t.
            destruct (merge_string_schemas_ok ks) as [m [Em [Tm Om]]].
            { intros s Is. destruct (wf_type s (W s Is)) as [d [t [Ed _]]].
              subst s. exists d. split; [reflexivity|].
              destruct (All d Is) as [s [Es' T]]. inversion Es'; subst s.
              exact (wf_string_inv d (W _ Is) T). }
            rewrite Em. cbn [bind]. eexists. split; [reflexivity|].
            now apply wf_string. }
          destruct (key_eqb t "object") eqn:Ko.
          { apply key_eqb_eq in Ko. subst t.
            destruct (IH ks) as [m [Em [Tm Wm]]].
            - assert (B : forall x, In x ks ->
                            (S (S (depth x)) <= max_depth schemas)%nat).
              { intros x Ix. exact (Sh key ks x I Ix). }
              assert (Mx : (max_depth ks <= max_depth schemas - 2)%nat).
              { clear - B. unfold max_depth in *.
                induction ks as [|y ks IHk]; simpl; [lia|].
                pose proof (B y (or_introl eq_refl)).
                specialize (IHk (fun x Ix => B x (or_intror Ix))). lia. }
              pose proof (B s1 ltac:(subst ks; now left)). lia.
            - intros s Is. destruct (wf_type s (W s Is)) as [d [t [Ed _]]].
              subst s. exists d.
              destruct (All d Is) as [s [Es' T]]. inversion Es'; subst s.
              destruct (wf_object_inv d (W _ Is) T) as [items [K A]].
              now exists items.
            - rewrite Em. cbn [bind]. eexists. split; [reflexivity|exact Wm]. }
          eexists. split; [reflexivity|]. subst ks. simpl. apply W. now left.
        + eexists. split; [reflexivity|apply wf_mixed]. }
    destruct M as [merged [Em Wm]]. rewrite Em. cbn [bind].
    destruct (wf_type merged Wm) as [d [t [Ed _]]]. subst merged.
    destruct (count_of key (snd st) <? List.length schemas)%nat;
      cbn [set_item bind].
    - eexists. split; [reflexivity|]. intros k v Ikv.
      destruct (dict_set_In _ _ _ _ _ Ikv) as [E|E]; [|now apply (Inv k v)].
      subst v. now apply wf_presence.
    - eexists. split; [reflexivity|]. intros k v Ikv.
      destruct (dict_set_In _ _ _ _ _ Ikv) as [E|E]; [|now apply (Inv k v)].
      now subst v. }
  eexists.
  match goal with
  | |- context [bind ?X _] =>
      replace X with (@Ok dict merged_keys) by (symmetry; exact F)
  end.
  cbn [bind]. split; [reflexivity|].
  split; [reflexivity|].
  apply (wf_object _ merged_keys); [reflexivity|reflexivity|exact Inv].
Qed.

Lemma merge_object_schemas_ok (schemas : list value) :
  object_schemas schemas ->
  exists m, merge_object_schemas schemas = Ok m
            /\ get m "_type" = VStr "object"
            /\ well_formed (VDict m).
Proof.
  intro O. unfold merge_object_schemas. apply merge_rec_ok; [|exact O].
  rewrite depth_list. lia.
Qed.

Lemma bind_ok_inv {A B} (m : result A) (f : A -> result B) (b : B) :
  bind m f = Ok b -> exists a, m = Ok a /\ f a = Ok b.
Proof. destruct m as [a|e]; simpl; [now exists a|discriminate]. Qed.

Lemma infer_schema_type (obj : value) (samples : Z) (path : string)
    (schema : dict) :
  infer_schema obj samples path = Ok schema ->
  get schema "_type" = VStr (infer_type obj).
Proof.
  destruct obj as [| | | |s|xs|xs|items]; cbn [infer_schema infer_type];
    intro H; try (inversion H; reflexivity).
  - inversion H. apply classify_string_ok.
  - destruct xs as [|x0 xs0]; [inversion H; reflexivity|].
    apply bind_ok_inv in H. destruct H as [item_schemas [_ H]].
    apply bind_ok_inv in H. destruct H as [item_types [_ H]].
    destruct (Counter item_types) as [|[t n] [|p rest]].
    + destruct item_schemas; [discriminate H|]. inversion H. reflexivity.
    + destruct (key_eqb t "object").
      { apply bind_ok_inv in H. destruct H as [m [_ H]]. inversion H.
        reflexivity. }
      destruct (key_eqb t "string").
      { apply bind_ok_inv in H. destruct H as [m [_ H]]. inversion H.
        reflexivity. }
      inversion H. reflexivity.
    + destruct item_schemas; [discriminate H|]. inversion H. reflexivity.
  - apply bind_ok_inv in H. destruct H as [keys [_ H]]. inversion H.
    reflexivity.
Qed.

(** X11.  Whenever [infer_schema] returns, the [_type] of the schema is the
    type name [infer_type] gives to the value, for any sample size. *)
Theorem schema_type_is_infer_type (obj : value) (samples : Z) (path : string)
    (schema : dict) :
  infer_schema obj samples path = Ok schema ->
  get schema "_type" = VStr (infer_type obj).
Proof. apply infer_schema_type. Qed.

Lemma schema_type_is_infer_type_witness :
  get [ (KStr "_type", VStr "integer");
        (KStr "_example_range", VTuple [VInt 7; VInt 7]) ] "_type"
  = VStr (infer_type (VInt 7)).
Proof.
  apply (schema_type_is_infer_type (VInt 7) 5 "$"). reflexivity.
Defined.

Lemma slice_stop_positive (samples : Z) (n : nat) :
  (1 <= samples)%Z -> (1 <= n)%nat -> (1 <= slice_stop samples n)%nat.
Proof.
  intros S N. unfold slice_stop.
  destruct (0 <=? samples)%Z eqn:E; [apply Nat.min_glb; lia|].
  apply Z.leb_gt in E. lia.
Qed.

Lemma sequence_take_map_ok {A B} (P : B -> Prop) (f : A -> result B)
    (k : nat) (xs : list A) :
  (forall x, In x xs -> exists y, f x = Ok y /\ P y) ->
  exists ys, sequence (take_map f k xs) = Ok ys
             /\ (forall y, In y ys -> P y)
             /\ ((1 <= k)%nat -> xs <> [] -> ys <> []).
Proof.
  unfold sequence. revert k.
  induction xs as [|x xs IH]; intros k H.
  - exists []. destruct k; simpl;
      (split; [reflexivity|split; [intros y []|intros _ N; now contradiction N]]).
  - destruct k as [|k]; simpl.
    + exists []. split; [reflexivity|].
      split; [intros y []|intros L; inversion L].
    + destruct (H x (or_introl eq_refl)) as [y [E Py]]. rewrite E. simpl.
      destruct (IH k (fun z I => H z (or_intror I))) as [ys [Es [Ps _]]].
      rewrite Es. simpl. exists (y :: ys). split; [reflexivity|].
      split; [|discriminate]. intros z [Ez|Iz]; [now subst|now apply Ps].
Qed.

Lemma item_types_ok (item_schemas : list dict) :
  (forall s, In s item_schemas -> well_formed (VDict s)) ->
  exists types,
    mapM (fun s => as_key (get s "_type")) item_schemas = Ok types
    /\ forall s, In s item_schemas ->
                 exists t, In (KStr t) types /\ get s "_type" = VStr t.
Proof.
  intro W.
  destruct (mapM_total (fun s => as_key (get s "_type")) item_schemas)
    as [types E].
  { intros s I. destruct (wf_type _ (W s I)) as [d [t [Ed T]]].
    inversion Ed; subst d. rewrite T. now eexists. }
  exists types. split; [exact E|]. intros s I.
  apply mapM_Forall2 in E.
  destruct (Forall2_In_l _ _ _ _ E I) as [k [Ik R]].
  destruct (wf_type _ (W s I)) as [d [t [Ed T]]]. inversion Ed; subst d.
  rewrite T in R. inversion R; subst k. now exists t.
Qed.

Lemma fold_dict_set_values (keys : list (key * value)) (acc : dict)
    (k : key) (v : value) :
  In (k, v) (fold_left (fun d kv => dict_set (fst kv) (snd kv) d) keys acc) ->
  In v (map snd keys) \/ In (k, v) acc.
Proof.
  revert acc. induction keys as [|[k0 v0] keys IH]; simpl; intros acc H;
    [now right|].
  destruct (IH _ H) as [A|A]; [left; now right|].
  destruct (dict_set_In _ _ _ _ _ A) as [E|E]; [left; left; now subst|].
  now right.
Qed.

Lemma sequence_map_ok {A B} (P : B -> Prop) (f : A -> result B)
    (xs : list A) :
  (forall x, In x xs -> exists y, f x = Ok y /\ P y) ->
  exists ys, sequence (map f xs) = Ok ys /\ forall y, In y ys -> P y.
Proof.
  unfold sequence. induction xs as [|x xs IH]; intro H; simpl.
  - exists []. split; [reflexivity|intros y []].
  - destruct (H x (or_introl eq_refl)) as [y [E Py]]. rewrite E. simpl.
    destruct (IH (fun z I => H z (or_intror I))) as [ys [Es Ps]].
    rewrite Es. simpl. exists (y :: ys). split; [reflexivity|].
    intros z [Ez|Iz]; [now subst|now apply Ps].
Qed.

(** The embedding on a sample size of at least one: every step that
    could raise ([item_schemas[0]], the counters, the mergers) succeeds.
    The depth [n] serves the induction; it is no limit of the
    embedding. *)
Lemma infer_schema_ok (n : nat) (obj : value) :
  (depth obj <= n)%nat ->
  forall samples path,
    (1 <= samples)%Z ->
    returns_well_formed (infer_schema obj samples path).
Proof.
  assert (Other : forall (d : dict) t,
             get d "_type" = VStr t -> t <> "string" -> t <> "object" ->
             returns_well_formed (Ok d)).
  { intros d t T N1 N2. exists d. split; [reflexivity|].
    now apply (wf_other d t). }
  revert obj. induction n as [|n IH]; intros obj D samples path S;
    destruct obj as [| | | |s|xs|xs|items]; cbn [infer_schema];
    try (simpl in D; lia);
    try (eapply Other; [reflexivity|discriminate|discriminate]).
  - exists (classify_string s). split; [reflexivity|].
    apply wf_string; apply classify_string_ok.
  - exists (classify_string s). split; [reflexivity|].
    apply wf_string; apply classify_string_ok.
  - destruct xs as [|x0 xs0];
      [eapply Other; [reflexivity|discriminate|discriminate]|].
    cbv iota. remember (x0 :: xs0) as xs eqn:Ex.
    destruct (sequence_take_map_ok (fun s : dict => well_formed (VDict s))
                (fun item => infer_schema item samples (path ++ "[]"))
                (slice_stop samples (List.length xs)) xs)
      as [item_schemas [Es [Ws Ne]]].
    { intros x I. apply IH; [|exact S].
      pose proof (max_depth_In _ _ I). rewrite depth_list in D. lia. }
    rewrite Es. cbn [bind].
    assert (Nonempty : item_schemas <> []).
    { apply Ne; [|subst xs; discriminate].
      apply slice_stop_positive; [exact S|subst xs; simpl; lia]. }
    destruct (item_types_ok item_schemas Ws) as [types [Et Ty]].
    rewrite Et. cbn [bind].
    destruct (Counter types) as [|[t c] [|p rest]] eqn:Ec.
    + destruct item_schemas as [|first others]; [contradiction|].
      eapply Other; [reflexivity|discriminate|discriminate].
    + assert (All : forall s, In s item_schemas ->
                   exists u, t = KStr u /\ get s "_type" = VStr u).
      { intros s Is. destruct (Ty s Is) as [u [Iu T]]. exists u.
        split; [|exact T]. symmetry.
        exact (Counter_single types t c Ec _ Iu). }
      destruct (key_eqb t "object") eqn:Ko.
      { apply key_eqb_eq in Ko. subst t.
        destruct (merge_object_schemas_ok (map VDict item_schemas))
          as [m [Em _]].
        { intros s Is. apply in_map_iff in Is. destruct Is as [d [Ed Id]].
          subst s. exists d.
          destruct (All d Id) as [u [Eu T]]. inversion Eu; subst u.
          destruct (wf_object_inv d (Ws d Id) T) as [items [K A]].
          now exists items. }
        rewrite Em. cbn [bind].
        eapply Other; [reflexivity|discriminate|discriminate]. }
      destruct (key_eqb t "string") eqn:Ks.
      { apply key_eqb_eq in Ks. subst t.
        destruct (merge_string_schemas_ok (map VDict item_schemas))
          as [m [Em _]].
        { intros s Is. apply in_map_iff in Is. destruct Is as [d [Ed Id]].
          subst s. exists d. split; [reflexivity|].
          destruct (All d Id) as [u [Eu T]]. inversion Eu; subst u.
          exact (wf_string_inv d (Ws d Id) T). }
        rewrite Em. cbn [bind].
        eapply Other; [reflexivity|discriminate|discriminate]. }
      eapply Other; [reflexivity|discriminate|discriminate].
    + destruct item_schemas as [|first others]; [contradiction|].
      eapply Other; [reflexivity|discriminate|discriminate].
  - destruct (sequence_map_ok (fun kv : key * value => well_formed (snd kv))
                (fun kv =>
                   s <- infer_schema (snd kv) samples
                          (path ++ "." ++ key_string (fst kv)) ;;
                   Ok (fst kv, VDict s)) items) as [keys [Ek Wk]].
    { intros [k v] I.
      destruct (IH v) with (samples := samples)
                           (path := path ++ "." ++ key_string k)
        as [s [E W]]; [|exact S|].
      - pose proof (depth_item _ _ _ I). simpl in *. lia.
      - exists (k, VDict s). cbn [fst snd]. rewrite E.
        split; [reflexivity|exact W]. }
    rewrite Ek. cbn [bind]. eexists. split; [reflexivity|].
    eapply wf_object; [reflexivity|reflexivity|].
    intros k v I. apply fold_dict_set_values in I. destruct I as [I|[]].
    apply in_map_iff in I. destruct I as [[k' v'] [E I]]. simpl in E.
    subst v'. exact (Wk _ I).
Qed.

(** X12.  With a sample size of at least one, [infer_schema] raises no
    error of its own: no array, however mixed or nested, and no object
    makes it raise [IndexError], [TypeError], [KeyError] or
    [AttributeError] (what is left is the interpreter's [RecursionError]
    on values nested beyond its limit).  The schema it returns carries the
    type of the value and is well formed, so that the mergers can read it
    again. *)
Theorem infer_schema_own_errors (obj : value) (samples : Z) (path : string) :
  (1 <= samples)%Z ->
  (forall e, own_error e = true -> infer_schema obj samples path <> Raise e)
  /\ (forall schema,
        infer_schema obj samples path = Ok schema ->
        get schema "_type" = VStr (infer_type obj)
        /\ well_formed (VDict schema)).
Proof.
  intro S.
  destruct (infer_schema_ok (depth obj) obj (Nat.le_refl _) samples path S)
    as [schema [E W]].
  split.
  - intros e _ H. rewrite E in H. discriminate H.
  - intros schema' E'. rewrite E in E'. inversion E'. subst schema'.
    split; [|exact W].
    exact (infer_schema_type obj samples path schema E).
Qed.

Lemma infer_schema_own_errors_witness :
  get [ (KStr "_type", VStr "integer");
        (KStr "_example_range", VTuple [VInt 7; VInt 7]) ] "_type"
  = VStr (infer_type (VInt 7))
  /\ well_formed (VDict [ (KStr "_type", VStr "integer");
                          (KStr "_example_range",
                           VTuple [VInt 7; VInt 7]) ]).
Proof.
  apply (proj2 (infer_schema_own_errors (VInt 7) 2 "$" ltac:(lia))).
  reflexivity.
Defined.

Lemma take_map_zero {A B} (f : A -> B) (xs : list A) : take_map f 0 xs = [].
Proof. destruct xs; reflexivity. Qed.

(** X13.  A sample size that leaves no item of a non-empty array to sample
    (zero, or a negative one that reaches past the array's front) makes
    [infer_schema] raise [IndexError] on that array. *)
Theorem empty_sample_raises (xs : list value) (samples : Z) (path : string) :
  xs <> [] ->
  (samples = 0 \/ samples <= - Z.of_nat (List.length xs))%Z ->
  infer_schema (VList xs) samples path = Raise IndexError.
Proof.
  intros N S. destruct xs as [|x xs]; [contradiction|].
  cbn [infer_schema].
  assert (E : slice_stop samples (List.length (x :: xs)) = O).
  { unfold slice_stop. destruct (0 <=? samples)%Z eqn:L.
    - apply Z.leb_le in L. destruct S as [S|S]; [now subst|].
      simpl List.length in *. lia.
    - apply Z.leb_gt in L. destruct S as [S|S]; lia. }
  rewrite E, take_map_zero. reflexivity.
Qed.

Lemma empty_sample_raises_witness :
  infer_schema (VList [VInt 1; VInt 2]) 0 "$" = Raise IndexError.
Proof.
  apply (empty_sample_raises [VInt 1; VInt 2] 0 "$").
  - discriminate.
  - left. reflexivity.
Defined.

Lemma take_map_app {A B} (f : A -> B) (k : nat) (xs ys : list A) :
  (k <= List.length xs)%nat -> take_map f k (xs ++ ys) = take_map f k xs.
Proof.
  revert k. induction xs as [|x xs IH]; intros k L; simpl in L.
  - assert (k = O) by lia. subst k. simpl. apply take_map_zero.
  - destruct k as [|k]; [reflexivity|]. simpl. f_equal. apply IH. lia.
Qed.

(** X14.  The items of an array after the first [max_array_samples] are
    never looked at: whatever follows the sampled prefix, the schema is
    that of the prefix with the array's own length.  (Sample size from 0
    up to the length of the prefix.) *)
Theorem unsampled_items_ignored (xs ys : list value) (samples : Z)
    (path : string) :
  xs <> [] ->
  (0 <= samples <= Z.of_nat (List.length xs))%Z ->
  infer_schema (VList (xs ++ ys)) samples path
  = (schema <- infer_schema (VList xs) samples path ;;
     Ok (dict_set "_length" (VInt (Z.of_nat (List.length (xs ++ ys)))) schema)).
Proof.
  intros N S. destruct xs as [|x xs]; [contradiction|].
  change ((x :: xs) ++ ys)%list with (x :: (xs ++ ys))%list.
  cbn [infer_schema].
  assert (E : slice_stop samples (List.length (x :: xs ++ ys))
              = slice_stop samples (List.length (x :: xs))).
  { unfold slice_stop. destruct (0 <=? samples)%Z eqn:L.
    - simpl List.length in *. rewrite length_app. lia.
    - apply Z.leb_gt in L. lia. }
  rewrite E.
  assert (T : take_map
                (fun item => infer_schema item samples (path ++ "[]"))
                (slice_stop samples (List.length (x :: xs))) (x :: xs ++ ys)
              = take_map
                  (fun item => infer_schema item samples (path ++ "[]"))
                  (slice_stop samples (List.length (x :: xs))) (x :: xs)).
  { apply (take_map_app
             (fun item => infer_schema item samples (path ++ "[]"))
             (slice_stop samples (List.length (x :: xs))) (x :: xs) ys).
    unfold slice_stop. destruct (0 <=? samples)%Z eqn:L.
    - apply Nat.le_min_r.
    - apply Z.leb_gt in L. lia. }
  rewrite T.
  destruct (sequence _) as [item_schemas|e]; [|reflexivity]. cbn [bind].
  destruct (mapM _ item_schemas) as [item_types|e]; [|reflexivity].
  cbn [bind].
  destruct (Counter item_types) as [|[t n] [|p rest]].
  - destruct item_schemas; reflexivity.
  - destruct (key_eqb t "object").
    { destruct (merge_object_schemas _) as [m|e]; reflexivity. }
    destruct (key_eqb t "string").
    { destruct (merge_string_schemas _) as [m|e]; reflexivity. }
    reflexivity.
  - destruct item_schemas; reflexivity.
Qed.

Lemma unsampled_items_ignored_witness :
  infer_schema (VList ([VInt 1; VInt 2] ++ [VStr "tail"])) 2 "$"
  = (schema <- infer_schema (VList [VInt 1; VInt 2]) 2 "$" ;;
     Ok (dict_set "_length"
           (VInt (Z.of_nat (List.length ([VInt 1; VInt 2] ++ [VStr "tail"]))))
           schema)).
Proof.
  apply (unsampled_items_ignored [VInt 1; VInt 2] [VStr "tail"] 2 "$").
  - discriminate.
  - simpl. lia.
Defined.

(** ** What a string schema shows of the string *)

Lemma match_dollar_empty (s : string) : Re.match_dollar Re.Empty s = false.
Proof. induction s as [|c s IH]; simpl; [reflexivity|exact IH]. Qed.

Lemma match_dollar_word_tail (s : string) :
  Re.match_dollar (Re.Star (Re.Chr word_char)) s = word_tail s.
Proof.
  induction s as [|c s IH]; [reflexivity|].
  cbn [Re.match_dollar word_tail Re.nullable andb]. f_equal.
  cbn [Re.deriv]. destruct (word_char c); cbn [Re.cat andb].
  - exact IH.
  - apply match_dollar_empty.
Qed.

Lemma match_dollar_enum (s : string) :
  Re.match_dollar enum_re s = enum_word s.
Proof.
  destruct s as [|c s]; [reflexivity|].
  unfold enum_re, Re.plus.
  cbn [Re.match_dollar enum_word Re.nullable andb orb].
  cbn [Re.deriv Re.nullable].
  change (fun c0 => Re.lower c0 || Ascii.eqb c0 "_") with word_char.
  change (Re.lower c || Ascii.eqb c "_") with (word_char c).
  destruct (word_char c); cbn [Re.cat Re.alt andb].
  - apply match_dollar_word_tail.
  - apply match_dollar_empty.
Qed.

(** X15.  The schema of a string always gives its type and its length in
    characters.  It holds the string itself, under [_example_pattern], only
    when the string is at most 30 characters long and is a run of lowercase
    letters and underscores (with at most one final newline); the schema of
    any other string is made of the type, the length and at most a format
    tag. *)
Theorem string_schema_exposure (s : string) :
  get (classify_string s) "_type" = VStr "string"
  /\ get (classify_string s) "_length" = VInt (Z.of_nat (String.length s))
  /\ (forall v, lookup "_example_pattern" (classify_string s) = Some v ->
        v = VStr s /\ (String.length s <= 30)%nat /\ enum_word s = true)
  /\ (enum_word s = false \/ (30 < String.length s)%nat ->
      redacted s (classify_string s)).
Proof.
  destruct (classify_string_shape s) as [R|[E [L W]]].
  - assert (X : get (classify_string s) "_type" = VStr "string"
                /\ get (classify_string s) "_length"
                   = VInt (Z.of_nat (String.length s))
                /\ lookup "_example_pattern" (classify_string s) = None).
    { destruct R as [R|[f R]]; rewrite R; repeat split; reflexivity. }
    destruct X as [T [Ln P]]. split; [exact T|]. split; [exact Ln|].
    split; [|intros _; exact R]. intros v H. rewrite P in H. discriminate H.
  - rewrite match_dollar_enum in W. apply Nat.leb_le in L. rewrite E.
    split; [reflexivity|]. split; [reflexivity|]. split.
    + intros v H. inversion H. auto.
    + intros [F|F]; [congruence|lia].
Qed.

Lemma string_schema_exposure_witness :
  redacted "Alice Smith" (classify_string "Alice Smith").
Proof.
  apply (proj2 (proj2 (proj2 (string_schema_exposure "Alice Smith")))).
  left. reflexivity.
Defined.

(** ** Arrays of strings *)

Lemma take_map_all {A B} (f : A -> B) (k : nat) (xs : list A) :
  (List.length xs <= k)%nat -> take_map f k xs = map f xs.
Proof.
  revert k. induction xs as [|x xs IH]; intros k L; [now destruct k|].
  destruct k as [|k]; simpl in *; [lia|]. f_equal. apply IH. lia.
Qed.

Lemma counter_add_repeat (k : key) (n : nat) (ks : list key) :
  (forall x, In x ks -> x = k) ->
  fold_left (fun c x => counter_add x c) ks [(k, n)]
  = [(k, (n + List.length ks)%nat)].
Proof.
  revert n. induction ks as [|x ks IH]; intros n H; simpl.
  - now rewrite Nat.add_0_r.
  - rewrite (H x (or_introl eq_refl)), key_eqb_refl.
    rewrite IH; [|intros y I; apply H; now right]. f_equal. f_equal. lia.
Qed.

Lemma Counter_constant (k : key) (ks : list key) :
  ks <> [] -> (forall x, In x ks -> x = k) ->
  Counter ks = [(k, List.length ks)].
Proof.
  intros N H. destruct ks as [|x ks]; [contradiction|].
  unfold Counter. simpl. rewrite (H x (or_introl eq_refl)).
  rewrite counter_add_repeat; [reflexivity|]. intros y I. apply H. now right.
Qed.

Lemma infer_strings (ss : list string) (samples : Z) (path : string) :
  ss <> [] ->
  (Z.of_nat (List.length ss) <= samples)%Z ->
  infer_schema (VList (map VStr ss)) samples path
  = (m <- merge_string_schemas
            (map (fun s => VDict (classify_string s)) ss) ;;
     Ok [ (KStr "_type", VStr "array");
          (KStr "_length", VInt (Z.of_nat (List.length ss)));
          (KStr "_items", VDict m) ]).
Proof.
  intros N S. destruct ss as [|s0 ss0]; [contradiction|].
  remember (s0 :: ss0) as ss eqn:Es.
  assert (C : infer_schema (VList (map VStr ss)) samples path
              = (item_schemas <-
                   sequence
                     (take_map
                        (fun item => infer_schema item samples (path ++ "[]"))
                        (slice_stop samples (List.length (map VStr ss)))
                        (map VStr ss)) ;;
                 item_types <- mapM (fun s => as_key (get s "_type"))
                                 item_schemas ;;
                 match Counter item_types with
                 | [(t, _)] =>
                     if key_eqb t "object" then
                       m <- merge_object_schemas (map VDict item_schemas) ;;
                       Ok (dict_set "_items" (VDict m)
                             [ (KStr "_type", VStr "array");
                               (KStr "_length",
                                VInt (Z.of_nat (List.length (map VStr ss)))) ])
                     else if key_eqb t "string" then
                       m <- merge_string_schemas (map VDict item_schemas) ;;
                       Ok (dict_set "_items" (VDict m)
                             [ (KStr "_type", VStr "array");
                               (KStr "_length",
                                VInt (Z.of_nat (List.length (map VStr ss)))) ])
                     else
                       Ok (dict_set "_items" (VDict (hd [] item_schemas))
                             [ (KStr "_type", VStr "array");
                               (KStr "_length",
                                VInt (Z.of_nat (List.length (map VStr ss)))) ])
                 | type_counts =>
                     match item_schemas with
                     | [] => Raise IndexError
                     | first :: _ =>
                         Ok (dict_set "_items" (VDict first)
                               (dict_set "_item_types" (counter_dict type_counts)
                                  [ (KStr "_type", VStr "array");
                                    (KStr "_length",
                                     VInt (Z.of_nat
                                             (List.length (map VStr ss)))) ]))
                     end
                 end)).
  { subst ss. reflexivity. }
  rewrite C. clear C. rewrite length_map.
  rewrite take_map_all.
  2:{ rewrite length_map. unfold slice_stop.
      destruct (0 <=? samples)%Z eqn:L; [|apply Z.leb_gt in L; lia].
      apply Nat.min_glb; lia. }
  rewrite map_map. cbn [infer_schema].
  assert (Sq : sequence (map (fun x => Ok (classify_string x)) ss)
               = Ok (map classify_string ss)).
  { clear. unfold sequence. induction ss as [|s ss IH]; simpl;
      [reflexivity|now rewrite IH]. }
  rewrite Sq. cbn [bind].
  assert (Tk : mapM (fun s => as_key (get s "_type")) (map classify_string ss)
               = Ok (map (fun _ => KStr "string") ss)).
  { clear. induction ss as [|s ss IH]; simpl; [reflexivity|].
    rewrite (proj1 (classify_string_ok s)). simpl. now rewrite IH. }
  rewrite Tk. cbn [bind].
  rewrite (Counter_constant "string").
  - cbn [key_eqb String.eqb Ascii.eqb Bool.eqb]. rewrite map_map.
    destruct (merge_string_schemas _); reflexivity.
  - subst ss. discriminate.
  - intros x I. apply in_map_iff in I. now destruct I as [y [E _]].
Qed.

Lemma fold_min_le (zs : list Z) (z : Z) :
  (fold_left Z.min zs z <= z)%Z
  /\ (forall x, In x zs -> (fold_left Z.min zs z <= x)%Z)
  /\ (fold_left Z.min zs z = z \/ In (fold_left Z.min zs z) zs).
Proof.
  revert z. induction zs as [|y zs IH]; intro z; simpl.
  - split; [lia|]. split; [intros x []|now left].
  - destruct (IH (Z.min z y)) as [A [B C]]. split; [lia|]. split.
    + intros x [E|I]; [subst; lia|now apply B].
    + destruct C as [C|C]; [|right; now right].
      rewrite C. destruct (Z.min_spec z y) as [[_ M]|[_ M]]; rewrite M;
        [now left|right; now left].
Qed.

Lemma fold_max_ge (zs : list Z) (z : Z) :
  (z <= fold_left Z.max zs z)%Z
  /\ (forall x, In x zs -> (x <= fold_left Z.max zs z)%Z)
  /\ (fold_left Z.max zs z = z \/ In (fold_left Z.max zs z) zs).
Proof.
  revert z. induction zs as [|y zs IH]; intro z; simpl.
  - split; [lia|]. split; [intros x []|now left].
  - destruct (IH (Z.max z y)) as [A [B C]]. split; [lia|]. split.
    + intros x [E|I]; [subst; lia|now apply B].
    + destruct C as [C|C]; [|right; now right].
      rewrite C. destruct (Z.max_spec z y) as [[_ M]|[_ M]]; rewrite M;
        [right; now left|now left].
Qed.

Lemma merge_string_lengths (schemas : list value) (m : dict) :
  schemas <> [] ->
  merge_string_schemas schemas = Ok m ->
  exists lengths,
    mapM (fun s => l <- py_get s "_length" (VInt 0) ;; as_int l) schemas
    = Ok lengths
    /\ get m "_length_min" = VInt (min_list (hd 0%Z lengths) (tl lengths))
    /\ get m "_length_max" = VInt (max_list (hd 0%Z lengths) (tl lengths)).
Proof.
  intros N H. unfold merge_string_schemas in H.
  destruct schemas as [|s0 schemas0]; [contradiction|].
  remember (s0 :: schemas0) as schemas eqn:Es. clear Es N.
  apply bind_ok_inv in H. destruct H as [format_keys [_ H]].
  apply bind_ok_inv in H. destruct H as [lengths [El H]].
  exists lengths. split; [exact El|].
  apply bind_ok_inv in H. destruct H as [enum_values [_ H]].
  set (base := [ (KStr "_type", VStr "string");
                 (KStr "_length_min",
                  VInt (min_list (hd 0%Z lengths) (tl lengths)));
                 (KStr "_length_max",
                  VInt (max_list (hd 0%Z lengths) (tl lengths))) ]) in *.
  set (result := match Counter format_keys with
                 | [] => base
                 | [(fmt, _)] =>
                     if key_truthy fmt
                     then dict_set "_format" (key_value fmt) base else base
                 | (fmt, _) :: _ :: _ =>
                     dict_set "_formats" (counter_dict (Counter format_keys))
                       base
                 end) in *.
  assert (R : get result "_length_min"
              = VInt (min_list (hd 0%Z lengths) (tl lengths))
              /\ get result "_length_max"
                 = VInt (max_list (hd 0%Z lengths) (tl lengths))).
  { subst result. destruct (Counter format_keys) as [|[fmt n] [|p rest]].
    - split; reflexivity.
    - destruct (key_truthy fmt); split; reflexivity.
    - split; reflexivity. }
  destruct enum_values as [|e enum_values0]; [inversion H; subst; exact R|].
  apply bind_ok_inv in H. destruct H as [values [_ H]].
  destruct (List.length (sorted_set values) <=? 10)%nat;
    inversion H; subst; [|exact R].
  rewrite !get_dict_set_other by discriminate. exact R.
Qed.

Lemma classify_lengths (ss : list string) :
  mapM (fun s => l <- py_get s "_length" (VInt 0) ;; as_int l)
    (map (fun s => VDict (classify_string s)) ss)
  = Ok (map (fun s => Z.of_nat (String.length s)) ss).
Proof.
  induction ss as [|s ss IH]; simpl; [reflexivity|]. rewrite IH.
  destruct (classify_string_shape s) as [[E|[f E]]|[E _]]; rewrite E;
    reflexivity.
Qed.

(** X16.  For an array of strings that is sampled whole, [_items] gives the
    least and the greatest length among the strings: every string's length
    lies between [_length_min] and [_length_max], and both bounds are the
    length of one of the strings. *)
Theorem string_array_length_bounds (ss : list string) (samples : Z)
    (path : string) :
  ss <> [] ->
  (Z.of_nat (List.length ss) <= samples)%Z ->
  exists m lo hi,
    infer_schema (VList (map VStr ss)) samples path
    = Ok [ (KStr "_type", VStr "array");
           (KStr "_length", VInt (Z.of_nat (List.length ss)));
           (KStr "_items", VDict m) ]
    /\ get m "_length_min" = VInt lo
    /\ get m "_length_max" = VInt hi
    /\ (forall s, In s ss -> (lo <= Z.of_nat (String.length s) <= hi)%Z)
    /\ (exists s, In s ss /\ Z.of_nat (String.length s) = lo)
    /\ (exists s, In s ss /\ Z.of_nat (String.length s) = hi).
Proof.
  intros N S. rewrite (infer_strings ss samples path N S).
  destruct (merge_string_schemas_ok
              (map (fun s => VDict (classify_string s)) ss)) as [m [Em _]].
  { intros v I. apply in_map_iff in I. destruct I as [s [E _]]. subst v.
    exists (classify_string s). split; [reflexivity|].
    apply classify_string_ok. }
  rewrite Em. cbn [bind].
  assert (Ne : map (fun s => VDict (classify_string s)) ss <> []).
  { destruct ss; [contradiction|discriminate]. }
  destruct (merge_string_lengths _ m Ne Em) as [lengths [El [Lo Hi]]].
  rewrite classify_lengths in El. inversion El as [El']. clear El.
  exists m, (min_list (hd 0%Z lengths) (tl lengths)),
    (max_list (hd 0%Z lengths) (tl lengths)).
  split; [reflexivity|]. split; [exact Lo|]. split; [exact Hi|].
  subst lengths. destruct ss as [|s0 ss]; [contradiction|].
  cbn [map hd tl]. unfold min_list, max_list.
  destruct (fold_min_le (map (fun s => Z.of_nat (String.length s)) ss)
              (Z.of_nat (String.length s0))) as [A1 [B1 C1]].
  destruct (fold_max_ge (map (fun s => Z.of_nat (String.length s)) ss)
              (Z.of_nat (String.length s0))) as [A2 [B2 C2]].
  split; [|split].
  - intros s [E|I].
    + subst s. lia.
    + pose proof (B1 _ (in_map (fun s => Z.of_nat (String.length s)) ss s I))
        as P1.
      pose proof (B2 _ (in_map (fun s => Z.of_nat (String.length s)) ss s I))
        as P2.
      cbv beta in P1, P2. lia.
  - destruct C1 as [C1|C1].
    + exists s0. split; [now left|]. now rewrite C1.
    + apply in_map_iff in C1. destruct C1 as [s [E I]].
      exists s. split; [now right|exact E].
  - destruct C2 as [C2|C2].
    + exists s0. split; [now left|]. now rewrite C2.
    + apply in_map_iff in C2. destruct C2 as [s [E I]].
      exists s. split; [now right|exact E].
Qed.

Lemma string_array_length_bounds_witness :
  exists m lo hi,
    infer_schema (VList (map VStr ["Alice Smith"; "Bo"])) 5 "$"
    = Ok [ (KStr "_type", VStr "array");
           (KStr "_length", VInt (Z.of_nat (List.length ["Alice Smith"; "Bo"])));
           (KStr "_items", VDict m) ]
    /\ get m "_length_min" = VInt lo
    /\ get m "_length_max" = VInt hi
    /\ (forall s, In s ["Alice Smith"; "Bo"] ->
                  (lo <= Z.of_nat (String.length s) <= hi)%Z)
    /\ (exists s, In s ["Alice Smith"; "Bo"]
                  /\ Z.of_nat (String.length s) = lo)
    /\ (exists s, In s ["Alice Smith"; "Bo"]
                  /\ Z.of_nat (String.length s) = hi).
Proof.
  apply (string_array_length_bounds ["Alice Smith"; "Bo"] 5 "$").
  - discriminate.
  - simpl. lia.
Defined.

Lemma insert_sorted_In (x y : string) (l : list string) :
  In y (insert_sorted x l) <-> y = x \/ In y l.
Proof.
  induction l as [|t l IH]; simpl; [intuition|].
  destruct (String.leb x t); simpl; [intuition|]. rewrite IH. intuition.
Qed.

Lemma sorted_set_In (l : list string) (x : string) :
  In x (sorted_set l) <-> In x l.
Proof.
  unfold sorted_set. rewrite <- (nodup_In string_dec l x).
  induction (nodup string_dec l) as [|t n IH]; simpl; [tauto|].
  rewrite insert_sorted_In, IH. intuition.
Qed.

Lemma insert_sorted_NoDup (x : string) (l : list string) :
  NoDup l -> ~ In x l -> NoDup (insert_sorted x l).
Proof.
  induction l as [|t l IH]; simpl; intros N I.
  - constructor; [tauto|constructor].
  - destruct (String.leb x t); [constructor; [simpl; tauto|exact N]|].
    inversion N; subst. constructor.
    + rewrite insert_sorted_In. intuition.
    + apply IH; tauto.
Qed.

Lemma sorted_set_NoDup (l : list string) : NoDup (sorted_set l).
Proof.
  unfold sorted_set. pose proof (NoDup_nodup string_dec l) as N.
  induction N as [|t n I N IH]; simpl; [constructor|].
  apply insert_sorted_NoDup; [exact IH|].
  intro H. apply I.
  clear - H. induction n as [|u n IHn]; simpl in *; [exact H|].
  apply insert_sorted_In in H. intuition.
Qed.

Lemma exposed_filter (s : string) :
  eq_str (get (classify_string s) "_format") "enum_like"
  && truthy (get (classify_string s) "_example_pattern") = exposed s
  /\ (exposed s = true ->
      get (classify_string s) "_example_pattern" = VStr s).
Proof.
  unfold exposed.
  destruct (classify_string_shape s) as [[E|[f E]]|[E [_ W]]]; rewrite E.
  - split; [reflexivity|discriminate].
  - simpl. rewrite andb_false_r. split; [reflexivity|discriminate].
  - rewrite match_dollar_enum in W. destruct s as [|c s]; [discriminate W|].
    split; reflexivity.
Qed.

Lemma classify_enum_values (ss : list string) :
  mapM (fun s => py_get s "_example_pattern" VNone)
    (filter (fun s => match s with
                      | VDict d => eq_str (get d "_format") "enum_like"
                                   && truthy (get d "_example_pattern")
                      | _ => false
                      end)
       (map (fun s => VDict (classify_string s)) ss))
  = Ok (map VStr (filter exposed ss)).
Proof.
  induction ss as [|s ss IH]; [reflexivity|].
  cbn [map filter]. destruct (exposed_filter s) as [F P]. rewrite F.
  destruct (exposed s) eqn:X; [|exact IH].
  cbn [mapM py_get bind filter map]. rewrite IH. cbn [bind].
  change (get_or (classify_string s) "_example_pattern" VNone)
    with (get (classify_string s) "_example_pattern").
  now rewrite (P eq_refl).
Qed.

Lemma mapM_as_str (words : list string) :
  mapM as_str (map VStr words) = Ok words.
Proof.
  induction words as [|w words IH]; simpl; [reflexivity|now rewrite IH].
Qed.

Lemma merge_string_enum_values (ss : list string) (m : dict) :
  ss <> [] ->
  merge_string_schemas (map (fun s => VDict (classify_string s)) ss) = Ok m ->
  lookup "_enum_values" m
  = match filter exposed ss with
    | [] => None
    | _ :: _ =>
        if (List.length (sorted_set (filter exposed ss)) <=? 10)%nat
        then Some (VList (map VStr (sorted_set (filter exposed ss))))
        else None
    end.
Proof.
  intros N H. unfold merge_string_schemas in H.
  destruct ss as [|s0 ss0]; [contradiction|].
  remember (s0 :: ss0) as ss eqn:Es.
  assert (Shape : map (fun s => VDict (classify_string s)) ss
                  = VDict (classify_string s0)
                      :: map (fun s => VDict (classify_string s)) ss0).
  { subst ss. reflexivity. }
  rewrite Shape in H. rewrite <- Shape in H. clear Shape.
  apply bind_ok_inv in H. destruct H as [format_keys [_ H]].
  apply bind_ok_inv in H. destruct H as [lengths [_ H]].
  rewrite classify_enum_values in H. cbn [bind] in H.
  set (base := [ (KStr "_type", VStr "string");
                 (KStr "_length_min",
                  VInt (min_list (hd 0%Z lengths) (tl lengths)));
                 (KStr "_length_max",
                  VInt (max_list (hd 0%Z lengths) (tl lengths))) ]) in *.
  set (result := match Counter format_keys with
                 | [] => base
                 | [(fmt, _)] =>
                     if key_truthy fmt
                     then dict_set "_format" (key_value fmt) base else base
                 | (fmt, _) :: _ :: _ =>
                     dict_set "_formats" (counter_dict (Counter format_keys))
                       base
                 end) in *.
  assert (R : lookup "_enum_values" result = None).
  { subst result. destruct (Counter format_keys) as [|[fmt n] [|p rest]];
      try reflexivity.
    destruct (key_truthy fmt); reflexivity. }
  clearbody result. clear Es N.
  destruct (filter exposed ss) as [|w words] eqn:F.
  - simpl in H. inversion H; subst. exact R.
  - cbn [map] in H.
    change (VStr w :: map VStr words) with (map VStr (w :: words)) in H.
    rewrite mapM_as_str in H. cbn [bind] in H.
    destruct (List.length (sorted_set (w :: words)) <=? 10)%nat;
      inversion H; subst; [apply lookup_dict_set_same|exact R].
Qed.

(** X17.  For an array of strings that is sampled whole, [_enum_values],
    when it is there, lists without repetition exactly the strings of the
    array whose own schema holds them (the enum-like ones), and never more
    than ten of them; it is there exactly when some string is enum-like and
    at most ten distinct ones are. *)
Theorem enum_values_listed (ss : list string) (samples : Z) (path : string) :
  ss <> [] ->
  (Z.of_nat (List.length ss) <= samples)%Z ->
  exists m,
    infer_schema (VList (map VStr ss)) samples path
    = Ok [ (KStr "_type", VStr "array");
           (KStr "_length", VInt (Z.of_nat (List.length ss)));
           (KStr "_items", VDict m) ]
    /\ (forall v, lookup "_enum_values" m = Some v ->
          exists words,
            v = VList (map VStr words)
            /\ NoDup words
            /\ (List.length words <= 10)%nat
            /\ forall s, In s words <-> In s ss /\ exposed s = true)
    /\ (lookup "_enum_values" m = None <->
        filter exposed ss = []
        \/ (10 < List.length (sorted_set (filter exposed ss)))%nat).
Proof.
  intros N S. rewrite (infer_strings ss samples path N S).
  destruct (merge_string_schemas_ok
              (map (fun s => VDict (classify_string s)) ss)) as [m [Em _]].
  { intros v I. apply in_map_iff in I. destruct I as [s [E _]]. subst v.
    exists (classify_string s). split; [reflexivity|].
    apply classify_string_ok. }
  rewrite Em. cbn [bind]. exists m. split; [reflexivity|].
  rewrite (merge_string_enum_values ss m N Em).
  destruct (filter exposed ss) as [|w words] eqn:F.
  - split; [discriminate|]. split; [now left|reflexivity].
  - rewrite <- F. 
    destruct (List.length (sorted_set (filter exposed ss)) <=? 10)%nat eqn:L.
    + apply Nat.leb_le in L. split.
      * intros v H. inversion H; subst v.
        exists (sorted_set (filter exposed ss)).
        split; [reflexivity|]. split; [apply sorted_set_NoDup|].
        split; [exact L|]. intro s.
        rewrite sorted_set_In, filter_In. reflexivity.
      * split; [discriminate|]. intros [E|G]; [rewrite F in E; discriminate E|lia].
    + apply Nat.leb_gt in L. split; [discriminate|].
      split; [intros _; now right|reflexivity].
Qed.

Lemma enum_values_listed_witness :
  exists m,
    infer_schema (VList (map VStr ["red"; "Blue sky"; "red"])) 5 "$"
    = Ok [ (KStr "_type", VStr "array");
           (KStr "_length",
            VInt (Z.of_nat (List.length ["red"; "Blue sky"; "red"])));
           (KStr "_items", VDict m) ]
    /\ (forall v, lookup "_enum_values" m = Some v ->
          exists words,
            v = VList (map VStr words)
            /\ NoDup words
            /\ (List.length words <= 10)%nat
            /\ forall s, In s words
                         <-> In s ["red"; "Blue sky"; "red"]
                             /\ exposed s = true)
    /\ (lookup "_enum_values" m = None <->
        filter exposed ["red"; "Blue sky"; "red"] = []
        \/ (10 < List.length
                   (sorted_set (filter exposed ["red"; "Blue sky"; "red"])))%nat).
Proof.
  apply (enum_values_listed ["red"; "Blue sky"; "red"] 5 "$").
  - discriminate.
  - simpl. lia.
Defined.

(* ================================================================== *)
(** * Properties of the file and directory inspectors *)
(* ================================================================== *)

Import Inspect InspectSpec.

Lemma dict_set_fresh (k : key) (v : value) (d : dict) :
  ~ In k (map fst d) -> dict_set k v d = (d ++ [(k, v)])%list.
Proof.
  induction d as [|[k' v'] d IH]; simpl; intro N; [reflexivity|].
  destruct (key_eqb k k') eqn:E.
  - apply key_eqb_eq in E. subst. tauto.
  - rewrite IH; tauto.
Qed.

Lemma fold_dict_set_fresh (keys acc : dict) :
  NoDup (map fst (acc ++ keys)) ->
  fold_left (fun d kv => dict_set (fst kv) (snd kv) d) keys acc
  = (acc ++ keys)%list.
Proof.
  revert acc. induction keys as [|[k v] keys IH]; intros acc N; simpl.
  - now rewrite app_nil_r.
  - rewrite dict_set_fresh.
    + rewrite IH; rewrite <- app_assoc; [reflexivity|exact N].
    + rewrite map_app in N. apply NoDup_remove_2 in N.
      intro I. apply N. apply in_or_app. now left.
Qed.

Lemma sequence_Forall2 {A B} (f : A -> result B) (xs : list A) (ys : list B) :
  sequence (map f xs) = Ok ys -> Forall2 (fun x y => f x = Ok y) xs ys.
Proof.
  unfold sequence. revert ys. induction xs as [|x xs IH]; simpl; intros ys H.
  - inversion H. constructor.
  - apply bind_ok_inv in H. destruct H as [y [E H]].
    apply bind_ok_inv in H. destruct H as [ys' [E' H]].
    inversion H. constructor; auto.
Qed.

Lemma infer_object_subs (items : list (key * value)) (samples : Z)
    (path : string) (schema : dict) :
  NoDup (map fst items) ->
  infer_schema (VDict items) samples path = Ok schema ->
  exists subs,
    schema = [ (KStr "_type", VStr "object"); (KStr "_keys", VDict subs) ]
    /\ map fst subs = map fst items
    /\ Forall2 (fun kv sub =>
                  exists s,
                    infer_schema (snd kv) samples
                      (path ++ "." ++ key_string (fst kv)) = Ok s
                    /\ snd sub = VDict s)
         items subs.
Proof.
  intros N H. cbn [infer_schema] in H.
  apply bind_ok_inv in H. destruct H as [keys [E H]].
  apply sequence_Forall2 in E.
  assert (K : map fst keys = map fst items).
  { clear - E. induction E as [|[k v] y items keys R _ IH]; [reflexivity|].
    simpl. rewrite IH. f_equal.
    apply bind_ok_inv in R. destruct R as [s [_ R]]. now inversion R. }
  rewrite fold_dict_set_fresh in H by (simpl; now rewrite K).
  simpl in H. inversion H. exists keys. split; [reflexivity|].
  split; [exact K|].
  clear - E. induction E as [|[k v] y items keys R _ IH]; constructor;
    [|exact IH].
  apply bind_ok_inv in R. destruct R as [s [Es R]]. inversion R.
  exists s. now split.
Qed.

(** X18.  The schema of an object (with distinct keys, as every parsed
    object has) lists the object's keys in the object's order, each with
    the schema of its value. *)
Theorem object_schema_keys (items : list (key * value)) (samples : Z)
    (path : string) (schema : dict) :
  NoDup (map fst items) ->
  infer_schema (VDict items) samples path = Ok schema ->
  exists subs,
    schema = [ (KStr "_type", VStr "object"); (KStr "_keys", VDict subs) ]
    /\ map fst subs = map fst items
    /\ Forall2 (fun kv sub =>
                  exists s,
                    infer_schema (snd kv) samples
                      (path ++ "." ++ key_string (fst kv)) = Ok s
                    /\ snd sub = VDict s)
         items subs.
Proof. exact (infer_object_subs items samples path schema). Qed.

Lemma object_schema_keys_witness :
  exists subs,
    [ (KStr "_type", VStr "object");
      (KStr "_keys",
       VDict [ (KStr "id",
                VDict [ (KStr "_type", VStr "integer");
                        (KStr "_example_range", VTuple [VInt 7; VInt 7]) ]);
               (KStr "status",
                VDict [ (KStr "_type", VStr "string");
                        (KStr "_format", VStr "enum_like");
                        (KStr "_length", VInt 6);
                        (KStr "_example_pattern", VStr "active") ]) ]) ]
    = [ (KStr "_type", VStr "object"); (KStr "_keys", VDict subs) ]
    /\ map fst subs
       = map fst [ (KStr "id", VInt 7); (KStr "status", VStr "active") ]
    /\ Forall2 (fun kv sub =>
                  exists s,
                    infer_schema (snd kv) 5 ("$" ++ "." ++ key_string (fst kv))
                    = Ok s
                    /\ snd sub = VDict s)
         [ (KStr "id", VInt 7); (KStr "status", VStr "active") ] subs.
Proof.
  apply (object_schema_keys
           [ (KStr "id", VInt 7); (KStr "status", VStr "active") ] 5 "$").
  - repeat constructor; simpl; intuition discriminate.
  - vm_compute. reflexivity.
Defined.

(** ** JSONL files *)

Lemma sample_lines_spec (ls : list jsonl_line) (samples : Z)
    (items : list value) :
  (forall e, ~ In (FailingLine e) ls) ->
  sample_lines ls None samples items (Z.of_nat (List.length items))
  = Ok (items
          ++ firstn (Z.to_nat (Z.max 1 (2 * samples
                                        - Z.of_nat (List.length items))))
               (valid_lines ls))%list.
Proof.
  revert items. induction ls as [|l ls IH]; intros items NF.
  - simpl. now rewrite firstn_nil, app_nil_r.
  - assert (NF' : forall e, ~ In (FailingLine e) ls).
    { intros e I. apply (NF e). now right. }
    destruct l as [|v| |e]; cbn [sample_lines valid_lines];
      try (apply IH; exact NF').
    + destruct (Z.of_nat (List.length items) + 1 >=? samples * 2)%Z eqn:G.
      * apply Z.geb_le in G.
        replace (Z.max 1 (2 * samples - Z.of_nat (List.length items)))
          with 1%Z by lia.
        reflexivity.
      * rewrite Z.geb_leb in G. apply Z.leb_gt in G.
        replace (Z.of_nat (List.length items) + 1)%Z
          with (Z.of_nat (List.length (items ++ [v]))) by
          (rewrite length_app; simpl; lia).
        rewrite (IH _ NF'), <- app_assoc. do 2 f_equal.
        assert (K : Z.to_nat (Z.max 1 (2 * samples
                                       - Z.of_nat (List.length items)))
                    = S (Z.to_nat
                           (Z.max 1 (2 * samples
                                     - Z.of_nat
                                         (List.length (items ++ [v])))))).
        { rewrite length_app. cbn [List.length]. lia. }
        rewrite K. reflexivity.
    + exfalso. apply (NF e). now left.
Qed.

Lemma sample_lines_firstn (ls : list jsonl_line) (samples : Z) :
  (forall e, ~ In (FailingLine e) ls) ->
  sample_lines ls None samples [] 0
  = Ok (firstn (sample_size samples) (valid_lines ls)).
Proof.
  intro NF.
  change 0%Z with (Z.of_nat (List.length (@nil value))) at 1.
  rewrite (sample_lines_spec ls samples [] NF).
  cbn [List.length app Z.of_nat].
  unfold sample_size. now rewrite Z.sub_0_r.
Qed.

Lemma nonblank_lines_valid (ls : list jsonl_line) :
  (List.length (valid_lines ls) <= nonblank_lines ls)%nat.
Proof.
  unfold nonblank_lines. induction ls as [|l ls IH]; simpl; [lia|].
  destruct l; simpl; lia.
Qed.

(** A sample taken from a file that does not read to its end was
    complete before the end, so it is not empty. *)
Lemma sample_lines_unread (ls : list jsonl_line) (e : exn) (samples : Z)
    (items : list value) (line_count : Z) (sample : list value) :
  sample_lines ls (Some e) samples items line_count = Ok sample ->
  sample <> [].
Proof.
  revert items line_count.
  induction ls as [|l ls IH]; intros items line_count H.
  - discriminate H.
  - destruct l as [|v| |e']; cbn [sample_lines] in H;
      try (exact (IH _ _ H)); [|discriminate H].
    destruct (line_count + 1 >=? samples * 2)%Z; [|exact (IH _ _ H)].
    inversion H. now destruct items.
Qed.

(** X19.  A [.jsonl] file that reads to its end, and on whose lines
    [json.loads] raises nothing but [JSONDecodeError]: without a valid
    line the inspector returns an entry that says so; otherwise the schema
    is that of the array of the first valid lines, twice the sample size
    of them (one, when the sample size is not positive), invalid and blank
    lines left out, while [line_count] counts every non-blank line of the
    file, valid or not, so the array is never longer than [line_count].
    A file that does not read to its end (it does not open, or its bytes
    stop being UTF-8) gets no entry, even when the sample was complete
    before the fault: counting the lines reads the whole file. *)
Theorem jsonl_inspection (f : disk_file) (samples : Z) :
  is_jsonl f = true ->
  (reads f -> valid_lines (lines f) = [] ->
   inspect_json_file f samples
   = Ok [ (KStr "file", VStr (name f));
          (KStr "size_bytes", VInt (st_size f));
          (KStr "format", VStr "jsonl");
          (KStr "error", VStr "No valid JSON lines found") ])
  /\ (reads f -> valid_lines (lines f) <> [] ->
      inspect_json_file f samples
      = (schema <- infer_schema
                     (VList (firstn (sample_size samples)
                               (valid_lines (lines f)))) samples "$" ;;
         Ok [ (KStr "file", VStr (name f));
              (KStr "size_bytes", VInt (st_size f));
              (KStr "format", VStr "jsonl");
              (KStr "line_count",
               VInt (Z.of_nat (nonblank_lines (lines f))));
              (KStr "schema", VDict schema) ])
      /\ (List.length (firstn (sample_size samples) (valid_lines (lines f)))
          <= Nat.min (sample_size samples) (nonblank_lines (lines f)))%nat)
  /\ (forall r, inspect_json_file f samples = Ok r -> read_error f = None).
Proof.
  unfold is_jsonl, inspect_json_file. intro J. rewrite J.
  split; [|split].
  - intros [R NF] E. rewrite R, (sample_lines_firstn _ _ NF), E, firstn_nil.
    reflexivity.
  - intros [R NF] N. rewrite R, (sample_lines_firstn _ _ NF). split.
    + cbn [bind].
      destruct (firstn (sample_size samples) (valid_lines (lines f)))
        as [|x xs] eqn:F; [|reflexivity].
      exfalso. destruct (valid_lines (lines f)) as [|v vs]; [now apply N|].
      unfold sample_size in F.
      destruct (Z.to_nat (Z.max 1 (2 * samples))) eqn:Z0; [lia|].
      discriminate F.
    + rewrite length_firstn. pose proof (nonblank_lines_valid (lines f)).
      lia.
  - intros r H. destruct (read_error f) as [e|]; [exfalso|reflexivity].
    destruct (sample_lines (lines f) (Some e) samples [] 0)
      as [sample|e'] eqn:E; [|discriminate H].
    pose proof (sample_lines_unread _ _ _ _ _ _ E) as Ne.
    destruct sample as [|x xs]; [now apply Ne|]. discriminate H.
Qed.

Lemma jsonl_inspection_witness :
  inspect_json_file
    (DiskFile "session.jsonl" 12 (Raise (JSONDecodeError "Extra data"))
       [BlankLine; InvalidLine] None) 5
  = Ok [ (KStr "file", VStr "session.jsonl");
         (KStr "size_bytes", VInt 12);
         (KStr "format", VStr "jsonl");
         (KStr "error", VStr "No valid JSON lines found") ].
Proof.
  apply (proj1 (jsonl_inspection
                  (DiskFile "session.jsonl" 12
                     (Raise (JSONDecodeError "Extra data"))
                     [BlankLine; InvalidLine] None) 5 eq_refl)).
  - split; [reflexivity|].
    intros e [H|[H|[]]]; discriminate H.
  - reflexivity.
Defined.

(** ** Directories *)

Lemma from_last_dot_json (s : string) :
  ends_with ".json" s = true -> from_last_dot s = Some ".json".
Proof.
  induction s as [|c s IH]; [discriminate|].
  cbn [ends_with]. intro H. apply orb_true_iff in H. destruct H as [H|H].
  - apply String.eqb_eq in H. rewrite H. reflexivity.
  - cbn [from_last_dot]. now rewrite (IH H).
Qed.

Lemma json_name_not_jsonl (f : disk_file) :
  ends_with ".json" (name f) = true -> is_jsonl f = false.
Proof.
  unfold is_jsonl, suffix. destruct (name f) as [|c s]; [discriminate|].
  cbn [ends_with]. intro H. apply orb_true_iff in H. destruct H as [H|H].
  - apply String.eqb_eq in H. inversion H. reflexivity.
  - now rewrite (from_last_dot_json s H).
Qed.

Lemma insert_by_name_In (f g : disk_file) (l : list disk_file) :
  In g (insert_by_name f l) <-> f = g \/ In g l.
Proof.
  induction l as [|h l IH]; simpl; [tauto|].
  destruct (String.leb (name f) (name h)); simpl; [tauto|].
  rewrite IH. tauto.
Qed.

Lemma sort_by_name_In (g : disk_file) (l : list disk_file) :
  In g (fold_right insert_by_name [] l) <-> In g l.
Proof.
  induction l as [|h l IH]; simpl; [tauto|].
  rewrite insert_by_name_In, IH. tauto.
Qed.

Lemma sorted_json_files_In (entries : list disk_file) (g : disk_file) :
  In g (sorted_json_files entries) <-> json_file entries g.
Proof.
  unfold sorted_json_files, json_file. rewrite sort_by_name_In.
  apply filter_In.
Qed.

Lemma insert_by_name_NoDup (f : disk_file) (l : list disk_file) :
  NoDup (map name l) -> ~ In (name f) (map name l) ->
  NoDup (map name (insert_by_name f l)).
Proof.
  induction l as [|h l IH]; simpl; intros N I.
  - constructor; [tauto|constructor].
  - destruct (String.leb (name f) (name h)); simpl.
    + constructor; [simpl; tauto|exact N].
    + inversion N; subst. constructor.
      * rewrite in_map_iff. intros [g [E G]]. apply insert_by_name_In in G.
        destruct G as [G|G]; [subst g; symmetry in E; tauto|].
        apply H1. rewrite <- E. now apply in_map.
      * apply IH; tauto.
Qed.

Lemma filter_names_NoDup (p : disk_file -> bool) (l : list disk_file) :
  NoDup (map name l) -> NoDup (map name (filter p l)).
Proof.
  induction l as [|h l IH]; simpl; intro N; [constructor|].
  inversion N; subst. destruct (p h); simpl; [|now apply IH].
  constructor; [|now apply IH].
  rewrite in_map_iff. intros [g [E G]]. apply filter_In in G.
  apply H1. rewrite <- E. apply in_map. tauto.
Qed.

Lemma sort_by_name_NoDup (l : list disk_file) :
  NoDup (map name l) -> NoDup (map name (fold_right insert_by_name [] l)).
Proof.
  induction l as [|h l IH]; simpl; intro N; [constructor|].
  inversion N; subst. apply insert_by_name_NoDup; [now apply IH|].
  rewrite in_map_iff. intros [g [E G]]. apply H1. rewrite <- E.
  apply in_map. now apply sort_by_name_In.
Qed.

Lemma sorted_json_files_NoDup (entries : list disk_file) :
  NoDup (map name entries) -> NoDup (map name (sorted_json_files entries)).
Proof.
  intro N. apply sort_by_name_NoDup. now apply filter_names_NoDup.
Qed.

Lemma key_names_NoDup (files : list disk_file) :
  NoDup (map name files) -> NoDup (map (fun f => KStr (name f)) files).
Proof.
  induction files as [|g files IH]; simpl; intro N; [constructor|].
  inversion N; subst. constructor; [|now apply IH].
  rewrite in_map_iff. intros [h [E I]]. apply H1.
  injection E as E'. rewrite <- E'. now apply in_map.
Qed.

(** What the inspection of a file that does not end in [.jsonl] is. *)
Lemma inspect_whole_file (f : disk_file) (samples : Z) :
  is_jsonl f = false ->
  inspect_json_file f samples
  = (data <- whole f ;;
     schema <- infer_schema data samples "$" ;;
     Ok [ (KStr "file", VStr (name f));
          (KStr "size_bytes", VInt (st_size f));
          (KStr "format", VStr "json");
          (KStr "schema", VDict schema) ]).
Proof.
  unfold is_jsonl, inspect_json_file. intro J. now rewrite J.
Qed.

Lemma inspect_entry_result (results results' : dict) (f : disk_file)
    (samples : Z) :
  inspect_entry results f samples = Ok results' ->
  exists entry,
    entry_of f samples = Some entry
    /\ results' = dict_set (name f) entry results.
Proof.
  unfold inspect_entry, entry_of, error_entry.
  destruct (inspect_json_file f samples) as [r|e].
  - intro H. inversion H. now exists (VDict r).
  - destruct (caught e) as [msg|]; intro H; [|discriminate H].
    inversion H. eexists. split; reflexivity.
Qed.

Lemma inspect_entry_raise (results : dict) (f : disk_file) (samples : Z)
    (e : exn) :
  inspect_entry results f samples = Raise e ->
  inspect_json_file f samples = Raise e /\ caught e = None.
Proof.
  unfold inspect_entry.
  destruct (inspect_json_file f samples) as [r|e']; [discriminate|].
  destruct (caught e') as [msg|] eqn:C; [discriminate|].
  intro H. inversion H. subst e'. now split.
Qed.

(** The loop, when it comes to its end: one entry per file, in the order
    of the files. *)
Lemma directory_fold_result (files : list disk_file) (samples : Z) :
  forall (acc results : dict),
    NoDup (map fst acc ++ map (fun f => KStr (name f)) files) ->
    fold_left
      (fun results json_file =>
         rs <- results ;; inspect_entry rs json_file samples)
      files (Ok acc) = Ok results ->
    exists ents,
      results = (acc ++ ents)%list
      /\ Forall2 (fun f kv => fst kv = KStr (name f)
                              /\ entry_of f samples = Some (snd kv))
           files ents.
Proof.
  induction files as [|g files IH]; intros acc results N H.
  - simpl in H. inversion H. exists []. split; [now rewrite app_nil_r|].
    constructor.
  - cbn [fold_left bind] in H.
    destruct (inspect_entry acc g samples) as [acc'|e] eqn:E.
    + destruct (inspect_entry_result _ _ _ _ E) as [entry [Ee Ea]].
      rewrite dict_set_fresh in Ea.
      * subst acc'.
        assert (N' : NoDup (map fst (acc ++ [(KStr (name g), entry)])
                              ++ map (fun f => KStr (name f)) files)).
        { rewrite map_app, <- app_assoc. exact N. }
        destruct (IH _ _ N' H) as [ents [R F]].
        exists ((KStr (name g), entry) :: ents). split.
        -- rewrite R, <- app_assoc. reflexivity.
        -- constructor; [now split|exact F].
      * simpl in N. apply NoDup_remove_2 in N. intro I. apply N.
        apply in_or_app. now left.
    + rewrite (fold_raise (fun rs json_file =>
                             inspect_entry rs json_file samples)) in H.
      discriminate H.
Qed.

(** The loop, when it is cut short: by an error of a file that the loop
    does not catch. *)
Lemma directory_fold_raise (files : list disk_file) (samples : Z) (e : exn) :
  forall acc : dict,
    fold_left
      (fun results json_file =>
         rs <- results ;; inspect_entry rs json_file samples)
      files (Ok acc) = Raise e ->
    exists f, In f files
              /\ inspect_json_file f samples = Raise e /\ caught e = None.
Proof.
  induction files as [|g files IH]; intros acc H; [discriminate H|].
  cbn [fold_left bind] in H.
  destruct (inspect_entry acc g samples) as [acc'|e'] eqn:E.
  - destruct (IH _ H) as [f [I R]]. exists f. split; [now right|exact R].
  - rewrite (fold_raise (fun rs json_file =>
                           inspect_entry rs json_file samples)) in H.
    inversion H. subst e'. exists g. split; [now left|].
    exact (inspect_entry_raise _ _ _ _ E).
Qed.

Lemma entries_lookup (files : list disk_file) (samples : Z) (ents : dict) :
  NoDup (map name files) ->
  Forall2 (fun f kv => fst kv = KStr (name f)
                       /\ entry_of f samples = Some (snd kv)) files ents ->
  forall f, In f files -> entry_of f samples = lookup (name f) ents.
Proof.
  intros N F. induction F as [|g [k v] files ents [K E] _ IH];
    intros f I; [destruct I|].
  cbn [fst snd] in K, E. subst k. inversion N as [|? ? Ng N']; subst.
  cbn [lookup]. destruct I as [I|I].
  - subst g. now rewrite key_eqb_refl.
  - destruct (key_eqb (name f) (KStr (name g))) eqn:Q.
    + apply key_eqb_eq in Q. injection Q as Q. exfalso. apply Ng.
      rewrite <- Q. now apply in_map.
    + now apply IH.
Qed.

Lemma entries_keys (files : list disk_file) (samples : Z) (ents : dict) :
  Forall2 (fun f kv => fst kv = KStr (name f)
                       /\ entry_of f samples = Some (snd kv)) files ents ->
  map fst ents = map (fun f => KStr (name f)) files.
Proof.
  intro F. induction F as [|g kv files ents [K _] _ IH]; [reflexivity|].
  simpl. now rewrite K, IH.
Qed.

(** X20.  Inspecting a directory never ends in an error that the loop
    catches ([JSONDecodeError], [FileNotFoundError] and the other
    [OSError]s): a file that is not JSON does not stop the batch.  When
    the inspection returns, the result has one entry per [*.json] file of
    the directory and no other; a file on which [open] or [json.load]
    raised such an error has the entry [{"error": message}]; a file that
    [json.load] read has its name, size, format ["json"] and the schema of
    its data as entry.  (File names in a directory are pairwise
    distinct.) *)
Theorem directory_inspection (entries : list disk_file) (samples : Z) :
  NoDup (map name entries) ->
  (forall e msg, caught e = Some msg ->
                 inspect_export_directory entries samples <> Raise e)
  /\ forall results,
       inspect_export_directory entries samples = Ok results ->
       (forall k, In k (map fst results)
                  <-> exists f, json_file entries f /\ k = KStr (name f))
       /\ (forall f e msg,
              json_file entries f -> whole f = Raise e ->
              caught e = Some msg ->
              lookup (name f) results = Some (error_entry msg))
       /\ (forall f data schema,
              json_file entries f -> whole f = Ok data ->
              infer_schema data samples "$" = Ok schema ->
              lookup (name f) results = Some (schema_entry f schema)).
Proof.
  intro N. unfold inspect_export_directory. split.
  - intros e msg C H. apply directory_fold_raise in H.
    destruct H as [f [_ [_ C']]]. congruence.
  - intros results H.
    pose proof (sorted_json_files_NoDup entries N) as Ns.
    apply directory_fold_result in H;
      [|simpl; now apply key_names_NoDup].
    destruct H as [ents [R F]]. simpl in R. subst results.
    pose proof (entries_lookup _ _ _ Ns F) as L.
    split; [|split].
    + intro k. rewrite (entries_keys _ _ _ F), in_map_iff. split.
      * intros [f [E I]]. apply sorted_json_files_In in I.
        exists f. split; [exact I|now symmetry].
      * intros [f [I E]]. exists f. split; [now symmetry|].
        now apply sorted_json_files_In.
    + intros f e msg J W C.
      rewrite <- (L f (proj2 (sorted_json_files_In entries f) J)).
      unfold entry_of.
      rewrite (inspect_whole_file f samples
                 (json_name_not_jsonl f (proj2 J))), W.
      cbn [bind]. now rewrite C.
    + intros f data schema J W E.
      rewrite <- (L f (proj2 (sorted_json_files_In entries f) J)).
      unfold entry_of.
      rewrite (inspect_whole_file f samples
                 (json_name_not_jsonl f (proj2 J))), W.
      cbn [bind]. rewrite E. reflexivity.
Qed.

Lemma directory_inspection_witness :
  lookup "users.json"
    [ (KStr "conversations.json",
       schema_entry
         (DiskFile "conversations.json" 2 (Ok (VList [])) [] None)
         [ (KStr "_type", VStr "array"); (KStr "_length", VInt 0);
           (KStr "_items", VNone) ]);
      (KStr "users.json", error_entry "Expecting value") ]
  = Some (error_entry "Expecting value").
Proof.
  apply (proj1 (proj2 (proj2 (directory_inspection
           [ DiskFile "users.json" 2
               (Raise (JSONDecodeError "Expecting value")) [] None;
             DiskFile "notes.txt" 5
               (Raise (JSONDecodeError "Expecting value")) [] None;
             DiskFile "conversations.json" 2 (Ok (VList [])) [] None ] 5
           ltac:(repeat constructor; simpl; intuition discriminate))
           _ eq_refl))
           (DiskFile "users.json" 2
              (Raise (JSONDecodeError "Expecting value")) [] None)
           (JSONDecodeError "Expecting value") "Expecting value").
  - split; [simpl; tauto|reflexivity].
  - reflexivity.
  - reflexivity.
Defined.

(** ** A sample size of zero *)

Lemma sequence_map_first_error {A B} (p : A -> bool) (f : A -> result B)
    (e : exn) (xs : list A) :
  (forall x, In x xs ->
             (p x = true /\ f x = Raise e)
             \/ (p x = false /\ exists y, f x = Ok y)) ->
  (existsb p xs = true /\ sequence (map f xs) = Raise e)
  \/ (existsb p xs = false /\ exists ys, sequence (map f xs) = Ok ys).
Proof.
  unfold sequence. induction xs as [|x xs IH]; intro H; simpl.
  - right. split; [reflexivity|now eexists].
  - destruct (H x (or_introl eq_refl)) as [[P E]|[P [y E]]]; rewrite P, E.
    + left. split; reflexivity.
    + simpl.
      destruct (IH (fun z I => H z (or_intror I))) as [[Q Es]|[Q [ys Es]]];
        rewrite Es; simpl; [left|right]; (split; [exact Q|]);
        [reflexivity|now eexists].
Qed.

(** The embedding with a sample size of zero: the first non-empty array
    met stops it. *)
Lemma infer_schema_zero (n : nat) (obj : value) :
  (depth obj <= n)%nat ->
  forall path,
    (has_items obj = true /\ infer_schema obj 0 path = Raise IndexError)
    \/ (has_items obj = false /\ exists schema, infer_schema obj 0 path = Ok schema).
Proof.
  revert obj. induction n as [|n IH]; intros obj D path;
    destruct obj as [| | | |s|xs|xs|items]; cbn [infer_schema has_items];
    try (simpl in D; lia);
    try (right; split; [reflexivity|now eexists]).
  - destruct xs as [|x xs]; [right; split; [reflexivity|now eexists]|].
    left. split; [reflexivity|].
    cbv iota. unfold slice_stop. cbn [Z.leb Z.compare].
    change (Z.to_nat (Z.min 0 _)) with O. reflexivity.
  - destruct (sequence_map_first_error
                (fun kv : key * value => has_items (snd kv))
                (fun kv =>
                   s <- infer_schema (snd kv) 0
                          (path ++ "." ++ key_string (fst kv)) ;;
                   Ok (fst kv, VDict s)) IndexError items)
      as [[P E]|[P [keys E]]].
    { intros [k v] I. cbn [fst snd].
      destruct (IH v) with (path := path ++ "." ++ key_string k)
        as [[Q Ev]|[Q [s Ev]]].
      - pose proof (depth_item _ _ _ I). simpl in *. lia.
      - left. rewrite Ev. split; [exact Q|reflexivity].
      - right. rewrite Ev. split; [exact Q|now eexists]. }
    + left. rewrite E. split; [exact P|reflexivity].
    + right. rewrite E. split; [exact P|now eexists].
Qed.

(** X21.  With a sample size of zero [infer_schema] has no schema for a
    value that holds a non-empty array, at the top or under the keys of
    objects: when it returns, the value holds none; and when it raises
    (the interpreter's [RecursionError] on deep nesting apart) it raises
    [IndexError], on a value that holds one. *)
Theorem zero_sample_size (obj : value) (path : string) :
  (forall schema, infer_schema obj 0 path = Ok schema ->
                  has_items obj = false)
  /\ (forall e, infer_schema obj 0 path = Raise e -> e <> RecursionError ->
                e = IndexError /\ has_items obj = true).
Proof.
  destruct (infer_schema_zero (depth obj) obj (Nat.le_refl _) path)
    as [[P E]|[P [schema E]]]; rewrite E; split.
  - intros s H. discriminate H.
  - intros e H _. inversion H. now split.
  - intros _ _. exact P.
  - intros e H. discriminate H.
Qed.

Lemma zero_sample_size_witness :
  IndexError = IndexError
  /\ has_items (VDict [ (KStr "messages", VList [VInt 1]) ]) = true.
Proof.
  apply (proj2 (zero_sample_size
                  (VDict [ (KStr "messages", VList [VInt 1]) ]) "$")
           IndexError).
  - reflexivity.
  - discriminate.
Defined.

(** X22.  With a sample size of zero the directory inspector has no
    result as soon as [json.load] reads, from one [*.json] file of the
    directory, data that holds a non-empty array: the [IndexError] is not
    among the errors the loop catches, so the entries of the other files
    are lost with it.  What it then raises (the interpreter's
    [RecursionError] apart) is that [IndexError], or an error of reading a
    file that the loop does not catch. *)
Theorem zero_samples_stop_the_batch (entries : list disk_file) :
  (forall f data,
      json_file entries f -> whole f = Ok data -> has_items data = true ->
      forall results, inspect_export_directory entries 0 <> Ok results)
  /\ (forall e,
        inspect_export_directory entries 0 = Raise e ->
        e <> RecursionError ->
        exists f,
          json_file entries f /\ caught e = None
          /\ (whole f = Raise e
              \/ (e = IndexError
                  /\ exists data, whole f = Ok data
                                  /\ has_items data = true))).
Proof.
  unfold inspect_export_directory. split.
  - intros f data J W B results H.
    assert (Q : inspect_json_file f 0 = Raise IndexError).
    { rewrite (inspect_whole_file f 0 (json_name_not_jsonl f (proj2 J))), W.
      cbn [bind].
      destruct (infer_schema_zero (depth data) data (Nat.le_refl _) "$")
        as [[_ Z]|[P _]]; [now rewrite Z|congruence]. }
    apply sorted_json_files_In in J.
    assert (G : forall (files : list disk_file) (acc : dict),
               In f files ->
               fold_left
                 (fun results json_file =>
                    rs <- results ;; inspect_entry rs json_file 0)
                 files (Ok acc) <> Ok results).
    { clear H J. induction files as [|g files IH]; intros acc I; [destruct I|].
      cbn [fold_left bind].
      destruct (inspect_entry acc g 0) as [acc'|e] eqn:E.
      - destruct I as [I|I]; [|now apply IH].
        subst g. unfold inspect_entry in E. rewrite Q in E. discriminate E.
      - rewrite (fold_raise (fun rs json_file => inspect_entry rs json_file 0)).
        discriminate. }
    exact (G _ [] J H).
  - intros e H Nr. apply directory_fold_raise in H.
    destruct H as [f [I [R C]]]. apply sorted_json_files_In in I.
    exists f. split; [exact I|]. split; [exact C|].
    rewrite (inspect_whole_file f 0 (json_name_not_jsonl f (proj2 I))) in R.
    destruct (whole f) as [data|e'] eqn:W; cbn [bind] in R.
    + right.
      destruct (infer_schema_zero (depth data) data (Nat.le_refl _) "$")
        as [[P Z]|[P [schema Z]]]; rewrite Z in R.
      * inversion R. split; [reflexivity|]. now exists data.
      * discriminate R.
    + left. inversion R. reflexivity.
Qed.

Lemma zero_samples_stop_the_batch_witness :
  inspect_export_directory
    [ DiskFile "users.json" 2 (Ok (VList [])) [] None;
      DiskFile "conversations.json" 9
        (Ok (VList [Samples.sample_conversation])) [] None ] 0
  <> Ok [ (KStr "users.json",
           schema_entry (DiskFile "users.json" 2 (Ok (VList [])) [] None)
             [ (KStr "_type", VStr "array"); (KStr "_length", VInt 0);
               (KStr "_items", VNone) ]) ].
Proof.
  apply (proj1 (zero_samples_stop_the_batch
                  [ DiskFile "users.json" 2 (Ok (VList [])) [] None;
                    DiskFile "conversations.json" 9
                      (Ok (VList [Samples.sample_conversation])) [] None ])
           (DiskFile "conversations.json" 9
              (Ok (VList [Samples.sample_conversation])) [] None)
           (VList [Samples.sample_conversation])).
  - split; [simpl; tauto|reflexivity].
  - reflexivity.
  - reflexivity.
Defined.

From Stdlib Require Import Sorting.Sorted.

(** ** Order of the entries *)

Lemma insert_by_name_Sorted (f : disk_file) (l : list disk_file) :
  Sorted (fun a b => String.leb (name a) (name b) = true) l ->
  Sorted (fun a b => String.leb (name a) (name b) = true) (insert_by_name f l).
Proof.
  induction l as [|h l IH]; simpl; intro S.
  - repeat constructor.
  - destruct (String.leb (name f) (name h)) eqn:L.
    + constructor; [exact S|now constructor].
    + inversion S as [|h' l' Sl Hd]; subst. constructor; [now apply IH|].
      destruct l as [|g l]; simpl.
      * constructor. destruct (String.leb_total (name f) (name h)); congruence.
      * destruct (String.leb (name f) (name g)).
        -- constructor.
           destruct (String.leb_total (name f) (name h)); congruence.
        -- constructor. now inversion Hd.
Qed.

Lemma sorted_json_files_Sorted (entries : list disk_file) :
  Sorted (fun a b => String.leb (name a) (name b) = true)
    (sorted_json_files entries).
Proof.
  unfold sorted_json_files.
  induction (filter (fun f => ends_with ".json" (name f)) entries)
    as [|h l IH]; simpl; [constructor|].
  now apply insert_by_name_Sorted.
Qed.

(** X23.  The entries of a directory inspection come in ascending order
    of file name, one per [*.json] file: whenever the inspection returns,
    the keys of the result are the names of the sorted files, in that
    order.  (File names in a directory are pairwise distinct.) *)
Theorem directory_entries_sorted (entries : list disk_file) (samples : Z)
    (results : dict) :
  NoDup (map name entries) ->
  inspect_export_directory entries samples = Ok results ->
  map fst results
  = map (fun f => KStr (name f)) (sorted_json_files entries)
  /\ Sorted (fun a b => String.leb (name a) (name b) = true)
       (sorted_json_files entries)
  /\ List.length results
     = List.length (filter (fun f => ends_with ".json" (name f)) entries).
Proof.
  intros N H. unfold inspect_export_directory in H.
  apply directory_fold_result in H;
    [|simpl; apply key_names_NoDup; now apply sorted_json_files_NoDup].
  destruct H as [ents [R F]]. simpl in R. subst results.
  pose proof (entries_keys _ _ _ F) as K.
  split; [exact K|]. split; [apply sorted_json_files_Sorted|].
  rewrite <- (length_map fst), K, length_map. unfold sorted_json_files.
  induction (filter (fun f => ends_with ".json" (name f)) entries)
    as [|h l IH]; [reflexivity|].
  simpl. rewrite <- IH. clear.
  induction (fold_right insert_by_name [] l) as [|g l' IH']; [reflexivity|].
  simpl. destruct (String.leb (name h) (name g)); simpl; [reflexivity|].
  now rewrite IH'.
Qed.

Lemma directory_entries_sorted_witness :
  map fst
    [ (KStr "conversations.json",
       schema_entry
         (DiskFile "conversations.json" 2 (Ok (VList [])) [] None)
         [ (KStr "_type", VStr "array"); (KStr "_length", VInt 0);
           (KStr "_items", VNone) ]);
      (KStr "memories.json", error_entry "Expecting value");
      (KStr "users.json",
       schema_entry
         (DiskFile "users.json" 2 (Ok (VList [])) [] None)
         [ (KStr "_type", VStr "array"); (KStr "_length", VInt 0);
           (KStr "_items", VNone) ]) ]
  = map (fun f => KStr (name f))
      (sorted_json_files
         [ DiskFile "users.json" 2 (Ok (VList [])) [] None;
           DiskFile "memories.json" 9
             (Raise (JSONDecodeError "Expecting value")) [] None;
           DiskFile "README.md" 5
             (Raise (JSONDecodeError "Expecting value")) [] None;
           DiskFile "conversations.json" 2 (Ok (VList [])) [] None ]).
Proof.
  apply (directory_entries_sorted
           [ DiskFile "users.json" 2 (Ok (VList [])) [] None;
             DiskFile "memories.json" 9
               (Raise (JSONDecodeError "Expecting value")) [] None;
             DiskFile "README.md" 5
               (Raise (JSONDecodeError "Expecting value")) [] None;
             DiskFile "conversations.json" 2 (Ok (VList [])) [] None ] 5).
  - repeat constructor; simpl; intuition discriminate.
  - reflexivity.
Defined.

(* ================================================================== *)
(** * Properties of the formatter *)
(* ================================================================== *)

Import Formatter FormatSpec.

Lemma depth_lookup (k : key) (d : dict) (v : value) :
  lookup k d = Some v -> (S (depth v) <= depth (VDict d))%nat.
Proof.
  intro L. destruct (lookup_In _ _ _ L) as [k' I].
  exact (depth_item _ _ _ I).
Qed.

Lemma join_values_ok (sep : string) (parts : list value) :
  Forall (fun p => is_str p = true) parts ->
  exists s, join_values sep parts = Ok s.
Proof.
  intro F. unfold join_values.
  destruct (mapM_total (fun p => match p with
                                 | VStr s => Ok s
                                 | _ => Raise TypeError
                                 end) parts) as [strs E].
  { intros p I. rewrite Forall_forall in F. specialize (F p I).
    destruct p; try discriminate F. now eexists. }
  rewrite E. now eexists.
Qed.

Section FormatterReturns.

Variable float_repr : Z -> string.
Variable py_eq : value -> value -> bool.

Lemma string_annotations_ok (d : dict) :
  (forall v, lookup "_format" d = Some v -> is_str v = true) ->
  (forall v, lookup "_enum_values" d = Some v -> has_len v = true) ->
  exists annotations,
    string_annotations float_repr py_eq d = Ok annotations
    /\ Forall (fun p => is_str p = true) annotations.
Proof.
  intros Hf He. unfold string_annotations, has_key, get.
  destruct (lookup "_format" d) as [f|] eqn:Lf;
    [pose proof (Hf f eq_refl) as Sf|];
    (destruct (lookup "_enum_values" d) as [vals|] eqn:Le;
     [pose proof (He vals eq_refl) as Sv; unfold has_len in Sv;
      destruct (len vals) as [n|] eqn:Ln; [|discriminate Sv];
      cbn [bind]; destruct (n <=? 5)%nat|]);
    destruct (lookup "_length_min" d); destruct (lookup "_length_max" d);
    destruct (lookup "_length" d); cbn [andb app];
    try destruct (py_eq _ _);
    (eexists; split; [reflexivity|repeat constructor; assumption]).
Qed.

Lemma first_line_ok (d : dict) (indent : Z) (key_name : key) :
  formattable (VDict d) ->
  exists line, first_line float_repr py_eq d indent key_name = Ok line.
Proof.
  intro F. inversion F as [d0 Hs Hi _ _]; subst d0.
  unfold first_line. cbv zeta. fold (type_of d).
  set (line := if key_truthy key_name then _ else _). clearbody line.
  assert (L : exists l,
             (if eq_str (type_of d) "string" then
                annotations <- string_annotations float_repr py_eq d ;;
                match annotations with
                | [] => Ok line
                | _ :: _ =>
                    joined <- join_values ", " annotations ;;
                    Ok (line ++ " (" ++ joined ++ ")")
                end
              else if eq_str (type_of d) "array" then
                Ok (line ++ " [" ++ py_str float_repr
                                      (get_or d "_length" (VStr "?"))
                         ++ " items]")
              else if eq_str (type_of d) "integer" then
                if has_key d "_example_range" then
                  r0 <- py_index (get d "_example_range") 0 ;;
                  r1 <- py_index (get d "_example_range") 1 ;;
                  if py_eq r0 r1
                  then Ok (line ++ " (e.g. " ++ py_str float_repr r0 ++ ")")
                  else Ok line
                else Ok line
              else Ok line) = Ok l).
  { destruct (eq_str (type_of d) "string").
    - destruct (Hs eq_refl) as [Hf He].
      destruct (string_annotations_ok d Hf He) as [annotations [E A]].
      rewrite E. cbn [bind]. destruct annotations as [|a rest];
        [now eexists|].
      destruct (join_values_ok ", " (a :: rest) A) as [s J].
      rewrite J. now eexists.
    - destruct (eq_str (type_of d) "array"); [now eexists|].
      destruct (eq_str (type_of d) "integer"); [|now eexists].
      unfold has_key, get.
      destruct (lookup "_example_range" d) as [r|] eqn:Lr; [|now eexists].
      pose proof (Hi eq_refl r eq_refl) as P. unfold pair_like in P.
      destruct (py_index r 0) as [r0|]; [|discriminate P].
      destruct (py_index r 1) as [r1|]; [|discriminate P].
      cbn [bind]. destruct (py_eq r0 r1); now eexists. }
  destruct L as [l L]. cbv zeta in L. rewrite L. cbn [bind].
  destruct (has_key d "_presence"); now eexists.
Qed.

Lemma format_rec_ok (fuel : nat) :
  forall (schema : value) (indent : Z) (key_name : key),
    formattable schema ->
    (depth schema < fuel)%nat ->
    exists text,
      format_schema_rec float_repr py_eq fuel schema indent key_name = Ok text.
Proof.
  induction fuel as [|fuel IH]; intros schema indent key_name F D; [lia|].
  inversion F as [d Hs Hi Ho Ha]; subst schema.
  cbn [format_schema_rec]. cbv zeta. fold (type_of d).
  destruct (first_line_ok d indent key_name F) as [line L].
  rewrite L. cbn [bind].
  assert (Keys : forall items n,
             (forall k x, In (k, x) items -> formattable x) ->
             (forall k x, In (k, x) items -> (depth x < fuel)%nat) ->
             exists rest,
               mapM (fun kv => format_schema_rec float_repr py_eq fuel
                                 (snd kv) n (fst kv)) items = Ok rest).
  { intros items n Fi Di. apply mapM_total. intros [k x] I.
    apply IH; [exact (Fi k x I)|exact (Di k x I)]. }
  destruct (eq_str (type_of d) "object") eqn:To.
  - unfold has_key, get.
    destruct (lookup "_keys" d) as [v|] eqn:Lk; cbn [andb].
    + destruct (Ho eq_refl v eq_refl) as [items [E Fi]]. subst v.
      cbn [py_items bind].
      destruct (Keys items (indent + 1)%Z Fi) as [rest R].
      { intros k x I. pose proof (depth_lookup _ _ _ Lk).
        pose proof (depth_item _ _ _ I). lia. }
      rewrite R. now eexists.
    + assert (A : eq_str (type_of d) "array" = false).
      { destruct (type_of d); try reflexivity. simpl in *.
        apply String.eqb_eq in To. now subst. }
      rewrite A. now eexists.
  - cbn [andb]. destruct (eq_str (type_of d) "array") eqn:Ta;
      [|now eexists].
    unfold has_key, get.
    destruct (lookup "_items" d) as [v|] eqn:Li; cbn [andb]; [|now eexists].
    destruct (truthy v) eqn:Tv; [|now eexists].
    pose proof (Ha eq_refl v eq_refl Tv) as Fv.
    pose proof (depth_lookup _ _ _ Li) as Dv.
    inversion Fv as [i _ _ Hio _]; subst v.
    cbn [py_get bind].
    destruct (eq_str (get_or i "_type" VNone) "object") eqn:Tio.
    + assert (Tt : eq_str (type_of i) "object" = true).
      { unfold type_of, get_or in *.
        destruct (lookup "_type" i); [exact Tio|discriminate Tio]. }
      unfold get_or at 1.
      destruct (lookup "_keys" i) as [keys|] eqn:Lk.
      * destruct (Hio Tt keys eq_refl) as [items [E Fi]]. subst keys.
        cbn [py_items bind].
        destruct (Keys items (indent + 2)%Z Fi) as [rest R].
        { intros k x I. pose proof (depth_lookup _ _ _ Lk).
          pose proof (depth_item _ _ _ I). lia. }
        rewrite R. now eexists.
      * cbn [py_items bind mapM]. now eexists.
    + destruct (IH (VDict i) (indent + 1)%Z (KStr "[]") Fv) as [sub E];
        [lia|].
      rewrite E. now eexists.
Qed.

End FormatterReturns.

(** ** Schemas ready for the formatter *)

Lemma formattable_classify (s : string) :
  formattable (VDict (classify_string s)).
Proof.
  destruct (classify_string_shape s) as [[E|[f E]]|[E _]]; rewrite E;
    formattable_leaf.
Qed.

Lemma formattable_mixed (c : list (key * nat)) :
  formattable (VDict [ (KStr "_type", VStr "mixed");
                       (KStr "_types", counter_dict c) ]).
Proof. formattable_leaf. Qed.

Lemma formattable_presence (d : dict) (x : value) :
  formattable (VDict d) -> formattable (VDict (dict_set "_presence" x d)).
Proof.
  intro F. inversion F as [d0 Hs Hi Ho Ha]; subst d0.
  assert (T : type_of (dict_set "_presence" x d) = type_of d).
  { unfold type_of. apply get_or_dict_set_other. discriminate. }
  constructor; rewrite T; intro E.
  - destruct (Hs E) as [Hf He]. split; intros v L;
      rewrite lookup_dict_set_other in L by discriminate; auto.
  - intros r L. rewrite lookup_dict_set_other in L by discriminate.
    now apply Hi.
  - intros v L. rewrite lookup_dict_set_other in L by discriminate.
    now apply Ho.
  - intros v L. rewrite lookup_dict_set_other in L by discriminate.
    now apply Ha.
Qed.

Lemma formattable_merge_string (schemas : list value) (m : dict) :
  merge_string_schemas schemas = Ok m -> formattable (VDict m).
Proof.
  unfold merge_string_schemas. destruct schemas as [|s0 schemas0].
  { intro H. inversion H. formattable_leaf. }
  remember (s0 :: schemas0) as schemas eqn:Es. clear Es s0 schemas0.
  destruct (mapM _ schemas) as [format_keys|]; [|discriminate].
  cbn [bind].
  destruct (mapM _ schemas) as [lengths|]; [|discriminate].
  cbn [bind]. cbv zeta.
  generalize (VInt (min_list (hd 0%Z lengths) (tl lengths))) as lo.
  generalize (VInt (max_list (hd 0%Z lengths) (tl lengths))) as hi.
  intros hi lo.
  destruct (mapM _ (filter _ schemas)) as [enum_values|]; [|discriminate].
  cbn [bind].
  assert (R : forall result : dict,
             type_of result = VStr "string" ->
             (forall v, lookup "_format" result = Some v -> is_str v = true) ->
             lookup "_enum_values" result = None ->
             match enum_values with
             | [] => Ok result
             | _ :: _ =>
                 values <- mapM as_str enum_values ;;
                 if (List.length (sorted_set values) <=? 10)%nat
                 then Ok (dict_set "_enum_values"
                            (VList (map VStr (sorted_set values))) result)
                 else Ok result
             end = Ok m -> formattable (VDict m)).
  { intros result T Hf He H.
    assert (Plain : formattable (VDict result)).
    { constructor; rewrite T; try discriminate. intros _. split; [exact Hf|].
      intros v L. rewrite He in L. discriminate L. }
    destruct enum_values as [|e es]; [inversion H; now subst|].
    destruct (mapM as_str (e :: es)) as [values|]; [|discriminate H].
    cbn [bind] in H.
    destruct (List.length (sorted_set values) <=? 10)%nat;
      inversion H; [|now subst].
    assert (T' : type_of (dict_set "_enum_values"
                            (VList (map VStr (sorted_set values))) result)
                 = VStr "string").
    { unfold type_of. rewrite get_or_dict_set_other; [exact T|discriminate]. }
    constructor; rewrite T'; try discriminate. intros _. split.
    - intros v L. rewrite lookup_dict_set_other in L by discriminate.
      now apply Hf.
    - intros v L. rewrite lookup_dict_set_same in L. inversion L.
      reflexivity. }
  destruct (Counter format_keys) as [|[fmt n] [|p more]].
  - apply R; [reflexivity| |reflexivity]. intros v L. discriminate L.
  - destruct fmt as [|f]; cbn [key_truthy].
    + apply R; [reflexivity| |reflexivity]. intros v L. discriminate L.
    + destruct (negb (f =? "")%string).
      * apply R; [reflexivity| |reflexivity].
        intros v L. cbn in L. inversion L. reflexivity.
      * apply R; [reflexivity| |reflexivity]. intros v L. discriminate L.
  - apply R; [reflexivity| |reflexivity]. intros v L. discriminate L.
Qed.

Lemma ready_presence (d : dict) (x : value) :
  ready (VDict d) -> ready (VDict (dict_set "_presence" x d)).
Proof.
  intros [W F]. split; [now apply wf_presence|now apply formattable_presence].
Qed.

Lemma ready_mixed (c : list (key * nat)) :
  ready (VDict [ (KStr "_type", VStr "mixed");
                 (KStr "_types", counter_dict c) ]).
Proof. split; [apply wf_mixed|apply formattable_mixed]. Qed.

Lemma ready_object (items : list (key * value)) :
  (forall k v, In (k, v) items -> ready v) ->
  ready (VDict [ (KStr "_type", VStr "object"); (KStr "_keys", VDict items) ]).
Proof.
  intro A. split.
  - apply (wf_object _ items); [reflexivity|reflexivity|].
    intros k v I. exact (proj1 (A k v I)).
  - constructor; unfold type_of; cbn; try discriminate.
    intros _ v L. inversion L. exists items. split; [reflexivity|].
    intros k x I. exact (proj2 (A k x I)).
Qed.

Lemma ready_object_inv (d : dict) :
  ready (VDict d) -> get d "_type" = VStr "object" ->
  exists items, get_or d "_keys" (VDict []) = VDict items
                /\ forall k v, In (k, v) items -> ready v.
Proof.
  intros [W F] T. destruct (wf_object_inv d W T) as [items [K A]].
  exists items. split; [exact K|]. intros k v I. split; [exact (A k v I)|].
  inversion F as [d0 _ _ Ho _]; subst d0.
  unfold get_or in K. destruct (lookup "_keys" d) as [keys|] eqn:L.
  - subst keys.
    assert (To : eq_str (type_of d) "object" = true).
    { unfold type_of, get_or. unfold get in T.
      destruct (lookup "_type" d); [now rewrite T|discriminate T]. }
    destruct (Ho To _ eq_refl) as [items' [E Fi]]. inversion E; subst items'.
    exact (Fi k v I).
  - inversion K; subst items. destruct I.
Qed.

Lemma collect_items_ready (items : list (key * value))
    (st : list (key * list value) * list (key * nat)) :
  grouped ready (fst st) ->
  (forall k v, In (k, v) items -> ready v) ->
  grouped ready
    (fst (fold_left
            (fun st kv => (append_key (fst kv) (snd kv) (fst st),
                           counter_add (fst kv) (snd st)))
            items st)).
Proof.
  revert st. induction items as [|[k0 v0] items IH]; simpl; intros st S0 H;
    [exact S0|].
  apply IH; [|intros k v I; apply (H k v); now right]. simpl.
  intros k ks x I Ix.
  destruct (append_key_In _ _ _ _ _ _ I Ix) as [E|[ks0 [I1 I2]]].
  - subst x. apply (H k0 v0). now left.
  - exact (S0 k ks0 x I1 I2).
Qed.

Lemma collect_keys_ready (schemas : list value) :
  ready_objects schemas ->
  exists st, collect_keys schemas = Ok st /\ grouped ready (fst st).
Proof.
  unfold collect_keys.
  assert (G : forall st0,
             ready_objects schemas -> grouped ready (fst st0) ->
             exists st,
               fold_left
                 (fun acc schema =>
                    st <- acc ;;
                    keys <- py_get schema "_keys" (VDict []) ;;
                    match keys with
                    | VDict items =>
                        Ok (fold_left
                              (fun st kv =>
                                 (append_key (fst kv) (snd kv) (fst st),
                                  counter_add (fst kv) (snd st)))
                              items st)
                    | _ => Raise AttributeError
                    end) schemas (Ok st0) = Ok st
               /\ grouped ready (fst st)).
  { induction schemas as [|s schemas IH]; intros st0 O A.
    - now exists st0.
    - destruct (O s (or_introl eq_refl)) as [d [items [E [K W]]]]. subst s.
      cbn [fold_left bind py_get]. rewrite K.
      apply IH.
      + intros s I. apply O. now right.
      + now apply collect_items_ready. }
  intro O. apply G; [exact O|]. intros k ks x [].
Qed.

Lemma merge_rec_ready (fuel : nat) (schemas : list value) :
  (max_depth schemas < fuel)%nat ->
  ready_objects schemas ->
  exists m, merge_object_schemas_rec fuel schemas = Ok m
            /\ ready (VDict m).
Proof.
  revert schemas. induction fuel as [|fuel IH]; intros schemas D O; [lia|].
  cbn [merge_object_schemas_rec]. destruct schemas as [|s0 schemas0].
  { eexists. split; [reflexivity|]. apply ready_object. intros k v []. }
  remember (s0 :: schemas0) as schemas eqn:Es.
  destruct (collect_keys_ready schemas O) as [st [C G]].
  rewrite C. cbn [bind].
  pose proof (collect_keys_shallow schemas st C) as Sh.
  cbv zeta.
  match goal with
  | |- context [fold_left ?f (fst st) (Ok [])] => set (step := f)
  end.
  destruct (fold_ok (fun mk : dict => forall k v, In (k, v) mk -> ready v)
              step (fst st) []) as [merged_keys [F Inv]].
  { intros k v []. }
  { intros [key key_schemas] merged_keys I Inv. unfold step.
    cbn [bind fst snd].
    assert (R : forall x, In x key_schemas -> ready x).
    { intros x Ix. exact (G key key_schemas x I Ix). }
    assert (W : forall x, In x key_schemas -> well_formed x).
    { intros x Ix. exact (proj1 (R x Ix)). }
    assert (M : exists merged,
               match key_schemas with
               | [only] => Ok only
               | _ =>
                   types <- mapM (fun s => t <- py_get s "_type" VNone ;;
                                           as_key t) key_schemas ;;
                   match Counter types with
                   | [(t, _)] =>
                       if key_eqb t "string" then
                         m <- merge_string_schemas key_schemas ;; Ok (VDict m)
                       else if key_eqb t "object" then
                         m <- merge_object_schemas_rec fuel key_schemas ;;
                         Ok (VDict m)
                       else Ok (hd VNone key_schemas)
                   | c => Ok (VDict [ (KStr "_type", VStr "mixed");
                                      (KStr "_types", counter_dict c) ])
                   end
               end = Ok merged /\ ready merged).
    { destruct key_schemas as [|s1 [|s2 rest]].
      - cbn. eexists. split; [reflexivity|apply ready_mixed].
      - exists s1. split; [reflexivity|]. apply R. now left.
      - remember (s1 :: s2 :: rest) as ks eqn:Ek.
        destruct (types_of_schemas ks W) as [types [Et Ty]].
        rewrite Et. cbn [bind].
        destruct (Counter types) as [|[t n] [|p more]] eqn:Ec.
        + eexists. split; [reflexivity|apply ready_mixed].
        + assert (All : forall d, In (VDict d) ks ->
                     exists s, t = KStr s /\ get d "_type" = VStr s).
          { intros d Id. destruct (Ty d Id) as [s [Is T]].
            exists s. split; [|exact T]. symmetry.
            exact (Counter_single types t n Ec _ Is). }
          destruct (key_eqb t "string") eqn:Ks.
          { apply key_eqb_eq in Ks. subst t.
            destruct (merge_string_schemas_ok ks) as [m [Em [Tm Om]]].
            { intros s Is. destruct (wf_type s (W s Is)) as [d [t [Ed _]]].
              subst s. exists d. split; [reflexivity|].
              destruct (All d Is) as [s [Es' T]]. inversion Es'; subst s.
              exact (wf_string_inv d (W _ Is) T). }
            rewrite Em. cbn [bind]. eexists. split; [reflexivity|].
            split; [now apply wf_string|].
            exact (formattable_merge_string ks m Em). }
          destruct (key_eqb t "object") eqn:Ko.
          { apply key_eqb_eq in Ko. subst t.
            destruct (IH ks) as [m [Em Rm]].
            - assert (B : forall x, In x ks ->
                            (S (S (depth x)) <= max_depth schemas)%nat).
              { intros x Ix. exact (Sh key ks x I Ix). }
              assert (Mx : (max_depth ks <= max_depth schemas - 2)%nat).
              { clear - B. unfold max_depth in *.
                induction ks as [|y ks IHk]; simpl; [lia|].
                pose proof (B y (or_introl eq_refl)).
                specialize (IHk (fun x Ix => B x (or_intror Ix))). lia. }
              pose proof (B s1 ltac:(subst ks; now left)). lia.
            - intros s Is. destruct (wf_type s (W s Is)) as [d [t [Ed _]]].
              subst s. exists d.
              destruct (All d Is) as [s [Es' T]]. inversion Es'; subst s.
              destruct (ready_object_inv d (R _ Is) T) as [items [K A]].
              now exists items.
            - rewrite Em. cbn [bind]. eexists. split; [reflexivity|exact Rm]. }
          eexists. split; [reflexivity|]. subst ks. simpl. apply R. now left.
        + eexists. split; [reflexivity|apply ready_mixed]. }
    destruct M as [merged [Em Rm]]. rewrite Em. cbn [bind].
    destruct (wf_type merged (proj1 Rm)) as [d [t [Ed _]]]. subst merged.
    destruct (count_of key (snd st) <? List.length schemas)%nat;
      cbn [set_item bind].
    - eexists. split; [reflexivity|]. intros k v Ikv.
      destruct (dict_set_In _ _ _ _ _ Ikv) as [E|E]; [|now apply (Inv k v)].
      subst v. now apply ready_presence.
    - eexists. split; [reflexivity|]. intros k v Ikv.
      destruct (dict_set_In _ _ _ _ _ Ikv) as [E|E]; [|now apply (Inv k v)].
      now subst v. }
  eexists.
  match goal with
  | |- context [bind ?X _] =>
      replace X with (@Ok dict merged_keys) by (symmetry; exact F)
  end.
  cbn [bind]. split; [reflexivity|].
  now apply ready_object.
Qed.

Lemma merge_object_schemas_ready (schemas : list value) :
  ready_objects schemas ->
  exists m, merge_object_schemas schemas = Ok m /\ ready (VDict m).
Proof.
  intro O. unfold merge_object_schemas. apply merge_rec_ready; [|exact O].
  rewrite depth_list. lia.
Qed.

Lemma ready_array (xs : list value) (items : value) :
  (truthy items = true -> ready items) ->
  ready (VDict (dict_set "_items" items
                  [ (KStr "_type", VStr "array");
                    (KStr "_length", VInt (Z.of_nat (List.length xs))) ])).
Proof.
  intro R. split.
  - apply (wf_other _ "array"); [reflexivity|discriminate|discriminate].
  - constructor; unfold type_of; cbn; try discriminate.
    intros _ v L T. inversion L; subst v. exact (proj2 (R T)).
Qed.

Lemma ready_mixed_array (xs : list value) (c : list (key * nat))
    (first : dict) :
  ready (VDict first) ->
  ready (VDict (dict_set "_items" (VDict first)
                  (dict_set "_item_types" (counter_dict c)
                     [ (KStr "_type", VStr "array");
                       (KStr "_length",
                        VInt (Z.of_nat (List.length xs))) ]))).
Proof.
  intro R. split.
  - apply (wf_other _ "array"); [reflexivity|discriminate|discriminate].
  - constructor; unfold type_of; cbn; try discriminate.
    intros _ v L T. inversion L; subst v. exact (proj2 R).
Qed.

(** The embedding on a sample size of at least one gives schemas that
    the formatter can read. *)
Lemma infer_schema_ready (n : nat) (obj : value) :
  (depth obj <= n)%nat ->
  forall samples path,
    (1 <= samples)%Z ->
    returns_ready (infer_schema obj samples path).
Proof.
  assert (Leaf : forall (d : dict),
             ready (VDict d) -> returns_ready (Ok d)).
  { intros d R. now exists d. }
  assert (Plain : forall t : string,
             t <> "string" -> t <> "object" -> t <> "integer" ->
             t <> "array" ->
             ready (VDict [ (KStr "_type", VStr t) ])).
  { intros t N1 N2 N3 N4. split.
    - now apply (wf_other _ t).
    - constructor; unfold type_of; cbn; intro E;
        apply String.eqb_eq in E; congruence. }
  assert (Int : forall z,
             ready (VDict [ (KStr "_type", VStr "integer");
                            (KStr "_example_range",
                             VTuple [VInt z; VInt z]) ])).
  { intro z. split.
    - apply (wf_other _ "integer"); [reflexivity|discriminate|discriminate].
    - formattable_leaf. }
  assert (Str : forall s, ready (VDict (classify_string s))).
  { intro s. split; [|apply formattable_classify].
    apply wf_string; apply classify_string_ok. }
  revert obj. induction n as [|n IH]; intros obj D samples path S;
    destruct obj as [| | | |s|xs|xs|items]; cbn [infer_schema infer_type];
    try (simpl in D; lia);
    try (apply Leaf; first [apply Int | apply Str
                            | apply Plain; discriminate]).
  - destruct xs as [|x0 xs0].
    { apply Leaf. apply (ready_array []). discriminate. }
    cbv iota. remember (x0 :: xs0) as xs eqn:Ex.
    destruct (sequence_take_map_ok (fun s : dict => ready (VDict s))
                (fun item => infer_schema item samples (path ++ "[]"))
                (slice_stop samples (List.length xs)) xs)
      as [item_schemas [Es [Rs Ne]]].
    { intros x I. apply IH; [|exact S].
      pose proof (max_depth_In _ _ I). rewrite depth_list in D. lia. }
    rewrite Es. cbn [bind].
    assert (Ws : forall s, In s item_schemas -> well_formed (VDict s)).
    { intros s I. exact (proj1 (Rs s I)). }
    assert (Nonempty : item_schemas <> []).
    { apply Ne; [|subst xs; discriminate].
      apply slice_stop_positive; [exact S|subst xs; simpl; lia]. }
    destruct (item_types_ok item_schemas Ws) as [types [Et Ty]].
    rewrite Et. cbn [bind].
    destruct (Counter types) as [|[t c] [|p rest]] eqn:Ec.
    + destruct item_schemas as [|first others]; [contradiction|].
      apply Leaf. apply ready_mixed_array. apply Rs. now left.
    + assert (All : forall s, In s item_schemas ->
                   exists u, t = KStr u /\ get s "_type" = VStr u).
      { intros s Is. destruct (Ty s Is) as [u [Iu T]]. exists u.
        split; [|exact T]. symmetry.
        exact (Counter_single types t c Ec _ Iu). }
      destruct (key_eqb t "object") eqn:Ko.
      { apply key_eqb_eq in Ko. subst t.
        destruct (merge_object_schemas_ready (map VDict item_schemas))
          as [m [Em Rm]].
        { intros s Is. apply in_map_iff in Is. destruct Is as [d [Ed Id]].
          subst s. exists d.
          destruct (All d Id) as [u [Eu T]]. inversion Eu; subst u.
          destruct (ready_object_inv d (Rs d Id) T) as [items [K A]].
          now exists items. }
        rewrite Em. cbn [bind].
        apply Leaf. apply (ready_array xs). intros _. exact Rm. }
      destruct (key_eqb t "string") eqn:Ks.
      { apply key_eqb_eq in Ks. subst t.
        destruct (merge_string_schemas_ok (map VDict item_schemas))
          as [m [Em [Tm Om]]].
        { intros s Is. apply in_map_iff in Is. destruct Is as [d [Ed Id]].
          subst s. exists d. split; [reflexivity|].
          destruct (All d Id) as [u [Eu T]]. inversion Eu; subst u.
          exact (wf_string_inv d (Ws d Id) T). }
        rewrite Em. cbn [bind].
        apply Leaf. apply (ready_array xs). intros _.
        split; [now apply wf_string|].
        exact (formattable_merge_string _ m Em). }
      destruct item_schemas as [|first others]; [contradiction|].
      apply Leaf. apply (ready_array xs). intros _. apply Rs. now left.
    + destruct item_schemas as [|first others]; [contradiction|].
      apply Leaf. apply ready_mixed_array. apply Rs. now left.
  - destruct (sequence_map_ok (fun kv : key * value => ready (snd kv))
                (fun kv =>
                   s <- infer_schema (snd kv) samples
                          (path ++ "." ++ key_string (fst kv)) ;;
                   Ok (fst kv, VDict s)) items) as [keys [Ek Rk]].
    { intros [k v] I.
      destruct (IH v) with (samples := samples)
                           (path := path ++ "." ++ key_string k)
        as [s [E R]]; [|exact S|].
      - pose proof (depth_item _ _ _ I). simpl in *. lia.
      - exists (k, VDict s). cbn [fst snd]. rewrite E.
        split; [reflexivity|exact R]. }
    rewrite Ek. cbn [bind]. apply Leaf. apply ready_object.
    intros k v I. apply fold_dict_set_values in I. destruct I as [I|[]].
    apply in_map_iff in I. destruct I as [[k' v'] [E I]]. simpl in E.
    subst v'. exact (Rk _ I).
Qed.

(** ** The formatter on inferred schemas *)

Lemma mapM_ext_in {A B} (f g : A -> result B) (xs : list A) :
  (forall x, In x xs -> f x = g x) -> mapM f xs = mapM g xs.
Proof.
  induction xs as [|x xs IH]; intro H; simpl; [reflexivity|].
  rewrite (H x (or_introl eq_refl)), IH; [reflexivity|].
  intros y I. apply H. now right.
Qed.

Section FormatterFuel.

Variable float_repr : Z -> string.
Variable py_eq : value -> value -> bool.

(** The fuel does not show: any amount above the depth of the schema gives
    the same result, so [RecursionError] stands for no behaviour of the
    embedding. *)
Lemma format_rec_fuel (fuel1 : nat) :
  forall (fuel2 : nat) (schema : value) (indent : Z) (key_name : key),
    (depth schema < fuel1)%nat -> (depth schema < fuel2)%nat ->
    format_schema_rec float_repr py_eq fuel1 schema indent key_name
    = format_schema_rec float_repr py_eq fuel2 schema indent key_name.
Proof.
  induction fuel1 as [|fuel1 IH]; intros fuel2 schema indent key_name D1 D2;
    [lia|].
  destruct fuel2 as [|fuel2]; [lia|].
  cbn [format_schema_rec]. destruct schema as [| | | | | | |d];
    try reflexivity.
  cbv zeta.
  destruct (first_line float_repr py_eq d indent key_name) as [line|];
    [|reflexivity].
  cbn [bind].
  assert (Keys : forall k v items n,
             lookup k d = Some v ->
             (depth (VDict items) <= depth v)%nat ->
             mapM (fun kv => format_schema_rec float_repr py_eq fuel1
                               (snd kv) n (fst kv)) items
             = mapM (fun kv => format_schema_rec float_repr py_eq fuel2
                                 (snd kv) n (fst kv)) items).
  { intros k v items n L Dv. apply mapM_ext_in. intros [k' x] I.
    pose proof (depth_lookup _ _ _ L). pose proof (depth_item _ _ _ I).
    apply IH; simpl in *; lia. }
  destruct (eq_str (get_or d "_type" (VStr "unknown")) "object"
            && has_key d "_keys").
  - unfold get. destruct (lookup "_keys" d) as [v|] eqn:Lk;
      [|reflexivity].
    destruct v as [| | | | | | |items]; try reflexivity.
    cbn [py_items bind].
    rewrite (Keys _ _ items (indent + 1)%Z Lk); [reflexivity|lia].
  - destruct (eq_str (get_or d "_type" (VStr "unknown")) "array"
              && has_key d "_items" && truthy (get d "_items"));
      [|reflexivity].
    unfold get. destruct (lookup "_items" d) as [v|] eqn:Li;
      [|reflexivity].
    destruct v as [| | | | | | |i]; try reflexivity.
    cbn [py_get bind].
    destruct (eq_str (get_or i "_type" VNone) "object").
    + unfold get_or.
      destruct (lookup "_keys" i) as [keys|] eqn:Lk; [|reflexivity].
      destruct keys as [| | | | | | |items]; try reflexivity.
      cbn [py_items bind].
      rewrite (Keys _ _ items (indent + 2)%Z Li); [reflexivity|].
      pose proof (depth_lookup _ _ _ Lk). simpl in *. lia.
    + pose proof (depth_lookup _ _ _ Li).
      rewrite (IH fuel2 (VDict i) (indent + 1)%Z (KStr "[]"));
        [reflexivity|lia|lia].
Qed.

Lemma format_schema_fuel (fuel : nat) (schema : value) (indent : Z)
    (key_name : key) :
  (depth schema < fuel)%nat ->
  format_schema_rec float_repr py_eq fuel schema indent key_name
  = format_schema float_repr py_eq schema indent key_name.
Proof.
  intro D. unfold format_schema. apply format_rec_fuel; lia.
Qed.

(** X24.  Whatever [infer_schema] returns, [format_schema] can read:
    with a sample size of at least one, formatting a schema that
    [infer_schema] returned, at any indentation and under any key, raises
    no [TypeError], [KeyError], [IndexError] or [AttributeError]. *)
Theorem inferred_schemas_format (obj : value) (samples : Z) (path : string)
    (schema : dict) (indent : Z) (key_name : key) :
  (1 <= samples)%Z ->
  infer_schema obj samples path = Ok schema ->
  forall e,
    own_error e = true ->
    format_schema float_repr py_eq (VDict schema) indent key_name <> Raise e.
Proof.
  intros S E e _ H.
  destruct (infer_schema_ready (depth obj) obj (Nat.le_refl _) samples path S)
    as [schema' [E' [_ F]]].
  rewrite E in E'. inversion E'. subst schema'.
  destruct (format_rec_ok float_repr py_eq (Datatypes.S (depth (VDict schema)))
              (VDict schema) indent key_name F) as [text T]; [lia|].
  unfold format_schema in H. rewrite T in H. discriminate H.
Qed.

End FormatterFuel.

Lemma inferred_schemas_format_witness :
  format_schema (fun _ => "nan") int_eq
    (VDict [ (KStr "_type", VStr "integer");
             (KStr "_example_range", VTuple [VInt 7; VInt 7]) ]) 0 (KStr "")
  <> Raise TypeError.
Proof.
  apply (inferred_schemas_format (fun _ => "nan") int_eq (VInt 7) 5 "$").
  - lia.
  - reflexivity.
  - reflexivity.
Defined.

(** ** What the formatter shows of a string *)

Lemma string_app_assoc (a b c : string) : (a ++ b) ++ c = a ++ b ++ c.
Proof. induction a as [|x a IH]; simpl; [reflexivity|now rewrite IH]. Qed.

Section FormatterStrings.

Variable float_repr : Z -> string.
Variable py_eq : value -> value -> bool.

Lemma format_classify (s : string) (indent : Z) (key_name : key) :
  format_schema float_repr py_eq (VDict (classify_string s)) indent key_name
  = Ok ((if key_truthy key_name
         then repeat_str "  " indent ++ key_string key_name ++ ": string"
         else repeat_str "  " indent ++ "string")
        ++ " ("
        ++ match lookup "_format" (classify_string s) with
           | Some (VStr f) => f ++ ", "
           | _ => ""
           end
        ++ int_str (Z.of_nat (String.length s)) ++ " chars)").
Proof.
  unfold format_schema.
  destruct (classify_string_shape s) as [[E|[f E]]|[E _]]; rewrite E;
    cbn [depth fold_right snd Nat.max format_schema_rec first_line
         string_annotations get_or get lookup key_eqb String.eqb Ascii.eqb
         Bool.eqb has_key eq_str andb app bind join_values mapM join py_str
         py_items truthy];
    destruct (key_truthy key_name); cbn [join py_repr];
    rewrite ?string_app_assoc; reflexivity.
Qed.

(** X25.  The text printed for the schema of a single string shows the
    type, the format tag and the length, and nothing else of the string:
    two strings of the same length and format class print the same text,
    also when they are enum-like and their schemas hold them. *)
Theorem string_text_hides_content (s t : string) (indent : Z)
    (key_name : key) :
  same_string_class s t = true ->
  format_schema float_repr py_eq (VDict (classify_string s)) indent key_name
  = format_schema float_repr py_eq (VDict (classify_string t)) indent key_name
  /\ exists text,
       format_schema float_repr py_eq (VDict (classify_string s)) indent
         key_name = Ok text.
Proof.
  intro C. rewrite !format_classify. split; [|now eexists].
  unfold same_string_class in C. apply andb_true_iff in C.
  destruct C as [L F]. apply Nat.eqb_eq in L. rewrite L.
  destruct (lookup "_format" (classify_string s)) as [[| | | |f| | |]|];
    destruct (lookup "_format" (classify_string t)) as [[| | | |g| | |]|];
    try discriminate F; try reflexivity.
  apply String.eqb_eq in F. now subst g.
Qed.

End FormatterStrings.

Lemma string_text_hides_content_witness :
  format_schema (fun _ => "nan") int_eq (VDict (classify_string "active")) 1
    (KStr "status")
  = format_schema (fun _ => "nan") int_eq (VDict (classify_string "closed")) 1
      (KStr "status").
Proof.
  apply (string_text_hides_content (fun _ => "nan") int_eq "active" "closed"
           1 (KStr "status")).
  reflexivity.
Defined.

(** ** What the formatter raises *)

Section FormatterErrors.

Variable float_repr : Z -> string.
Variable py_eq : value -> value -> bool.

Lemma first_line_bad_format (d : dict) (v : value) (indent : Z)
    (key_name : key) :
  type_of d = VStr "string" ->
  lookup "_format" d = Some v ->
  is_str v = false ->
  first_line float_repr py_eq d indent key_name = Raise TypeError.
Proof.
  intros T L N. unfold first_line. cbv zeta. fold (type_of d). rewrite T.
  cbn [eq_str String.eqb Ascii.eqb Bool.eqb].
  assert (A : string_annotations float_repr py_eq d = Raise TypeError
              \/ exists rest,
                   string_annotations float_repr py_eq d = Ok (v :: rest)).
  { unfold string_annotations, has_key, get. rewrite L. cbn [app].
    destruct (lookup "_enum_values" d) as [vals|].
    - destruct vals; cbn [len bind]; try (now left);
        match goal with
        | |- context [(?n <=? 5)%nat] => destruct (n <=? 5)%nat
        end;
        destruct (lookup "_length_min" d); destruct (lookup "_length_max" d);
        destruct (lookup "_length" d); cbn [andb app];
        try destruct (py_eq _ _); right; eexists; reflexivity.
    - destruct (lookup "_length_min" d); destruct (lookup "_length_max" d);
        destruct (lookup "_length" d); cbn [andb app];
        try destruct (py_eq _ _); right; eexists; reflexivity. }
  destruct A as [A|[rest A]]; rewrite A; [reflexivity|].
  cbn [bind]. unfold join_values. cbn [mapM].
  destruct v; try discriminate N; reflexivity.
Qed.

Lemma first_line_plain (d : dict) (indent : Z) (key_name : key) :
  eq_str (type_of d) "string" = false ->
  eq_str (type_of d) "integer" = false ->
  exists line, first_line float_repr py_eq d indent key_name = Ok line.
Proof.
  intros N1 N2. unfold first_line. cbv zeta. fold (type_of d).
  rewrite N1, N2. destruct (eq_str (type_of d) "array"); cbn [bind];
    destruct (has_key d "_presence"); now eexists.
Qed.

(** X26.  What makes the formatter raise: a schema that is not an object
    ([AttributeError]); in a string schema a format that is not a string
    ([TypeError], when the annotations are joined); in an object schema
    keys that are not an object, and in an array schema items that are
    truthy and not an object ([AttributeError]); in an integer schema a
    range without two ends (the error of the subscript). *)
Theorem formatter_errors (schema : value) (indent : Z) (key_name : key) :
  (is_dict schema = false ->
   format_schema float_repr py_eq schema indent key_name
   = Raise AttributeError)
  /\ (forall d v,
        schema = VDict d -> type_of d = VStr "string" ->
        lookup "_format" d = Some v -> is_str v = false ->
        format_schema float_repr py_eq schema indent key_name
        = Raise TypeError)
  /\ (forall d v,
        schema = VDict d -> type_of d = VStr "object" ->
        lookup "_keys" d = Some v -> is_dict v = false ->
        format_schema float_repr py_eq schema indent key_name
        = Raise AttributeError)
  /\ (forall d v,
        schema = VDict d -> type_of d = VStr "array" ->
        lookup "_items" d = Some v -> truthy v = true -> is_dict v = false ->
        format_schema float_repr py_eq schema indent key_name
        = Raise AttributeError)
  /\ (forall d r,
        schema = VDict d -> type_of d = VStr "integer" ->
        lookup "_example_range" d = Some r -> pair_like r = false ->
        exists e,
          format_schema float_repr py_eq schema indent key_name = Raise e
          /\ (e = IndexError \/ e = TypeError \/ e = KeyError)).
Proof.
  unfold format_schema. split; [|split; [|split; [|split]]].
  - destruct schema; try discriminate; reflexivity.
  - intros d v E T L N. subst schema. cbn [format_schema_rec].
    now rewrite (first_line_bad_format d v indent key_name T L N).
  - intros d v E T L N. subst schema. cbn [format_schema_rec]. cbv zeta.
    fold (type_of d).
    destruct (first_line_plain d indent key_name) as [line F];
      [now rewrite T|now rewrite T|].
    rewrite F, T. cbn [bind eq_str String.eqb Ascii.eqb Bool.eqb].
    unfold has_key, get. rewrite L. cbn [andb].
    destruct v; try discriminate N; reflexivity.
  - intros d v E T L Tv N. subst schema. cbn [format_schema_rec]. cbv zeta.
    fold (type_of d).
    destruct (first_line_plain d indent key_name) as [line F];
      [now rewrite T|now rewrite T|].
    rewrite F, T. cbn [bind eq_str String.eqb Ascii.eqb Bool.eqb andb].
    unfold has_key, get. rewrite L, Tv. cbn [andb].
    destruct v; try discriminate N; reflexivity.
  - intros d r E T L P. subst schema. cbn [format_schema_rec].
    assert (F : exists e,
               first_line float_repr py_eq d indent key_name = Raise e
               /\ (e = IndexError \/ e = TypeError \/ e = KeyError)).
    { unfold first_line. cbv zeta. fold (type_of d). rewrite T.
      cbn [eq_str String.eqb Ascii.eqb Bool.eqb].
      unfold has_key, get. rewrite L. unfold pair_like in P.
      assert (Sub : forall i e, py_index r i = Raise e ->
                      e = IndexError \/ e = TypeError \/ e = KeyError).
      { intros i e. destruct r as [| | | |s|xs|xs|items]; cbn [py_index];
          try (intro H; inversion H; tauto).
        - destruct (String.get i s); intro H; inversion H. tauto.
        - destruct (nth_error xs i); intro H; inversion H. tauto.
        - destruct (nth_error xs i); intro H; inversion H. tauto. }
      destruct (py_index r 0) as [r0|e0] eqn:E0.
      - destruct (py_index r 1) as [r1|e1] eqn:E1; [discriminate P|].
        exists e1. split; [reflexivity|exact (Sub _ _ E1)].
      - exists e0. split; [reflexivity|exact (Sub _ _ E0)]. }
    destruct F as [e [F Ee]]. rewrite F. exists e. split; [reflexivity|exact Ee].
Qed.

End FormatterErrors.

Lemma formatter_errors_witness :
  format_schema (fun _ => "nan") int_eq
    (VDict [ (KStr "_type", VStr "array"); (KStr "_items", VInt 3) ]) 0
    (KStr "")
  = Raise AttributeError.
Proof.
  apply (proj1 (proj2 (proj2 (proj2
           (formatter_errors (fun _ => "nan") int_eq
              (VDict [ (KStr "_type", VStr "array"); (KStr "_items", VInt 3) ])
              0 (KStr "")))))
         [ (KStr "_type", VStr "array"); (KStr "_items", VInt 3) ] (VInt 3));
    reflexivity.
Defined.

(** ** Arrays of objects *)

Lemma spaces_succ (k : nat) :
  String.concat "" (repeat "  " (S k))
  = "  " ++ String.concat "" (repeat "  " k).
Proof. destruct k; reflexivity. Qed.

Lemma spaces_snoc (k : nat) :
  String.concat "" (repeat "  " (S k))
  = String.concat "" (repeat "  " k) ++ "  ".
Proof.
  induction k as [|k IH]; [reflexivity|].
  rewrite spaces_succ, IH at 1. rewrite spaces_succ.
  now rewrite string_app_assoc.
Qed.

Lemma repeat_str_succ (indent : Z) :
  (0 <= indent)%Z ->
  repeat_str "  " (indent + 1) = repeat_str "  " indent ++ "  ".
Proof.
  intro N. unfold repeat_str.
  replace (Z.to_nat (indent + 1)) with (S (Z.to_nat indent)) by lia.
  apply spaces_snoc.
Qed.

Section ArraysOfObjects.

Variable float_repr : Z -> string.
Variable py_eq : value -> value -> bool.

(** X27.  The branch of the formatter for arrays of objects prints what
    the general branch would: when the indentation is not negative and the
    items schema carries no [_presence], the text is the array's line
    followed by the text of the items schema, formatted one level deeper
    under the key ["[]"]. *)
Theorem object_items_as_any_items (d i : dict) (indent : Z)
    (key_name : key) :
  (0 <= indent)%Z ->
  type_of d = VStr "array" ->
  lookup "_items" d = Some (VDict i) ->
  get i "_type" = VStr "object" ->
  has_key i "_presence" = false ->
  format_schema float_repr py_eq (VDict d) indent key_name
  = (line <- first_line float_repr py_eq d indent key_name ;;
     sub <- format_schema float_repr py_eq (VDict i) (indent + 1) (KStr "[]") ;;
     Ok (line ++ line_feed ++ sub)).
Proof.
  intros N T L Ti P.
  assert (Ti' : lookup "_type" i = Some (VStr "object")).
  { unfold get in Ti. destruct (lookup "_type" i); [now subst|discriminate]. }
  assert (Tr : truthy (VDict i) = true).
  { destruct i; [discriminate Ti'|reflexivity]. }
  assert (Gd : get d "_items" = VDict i) by (unfold get; now rewrite L).
  assert (Hd : has_key d "_items" = true) by (unfold has_key; now rewrite L).
  assert (T1 : get_or i "_type" VNone = VStr "object")
    by (unfold get_or; now rewrite Ti').
  assert (T2 : get_or i "_type" (VStr "unknown") = VStr "object")
    by (unfold get_or; now rewrite Ti').
  unfold format_schema at 1. cbn [format_schema_rec]. cbv zeta.
  fold (type_of d). rewrite T.
  destruct (first_line float_repr py_eq d indent key_name) as [line|e];
    [|reflexivity].
  cbn [bind eq_str String.eqb Ascii.eqb Bool.eqb andb].
  rewrite Hd, Gd, Tr. cbn [andb py_get bind]. rewrite T1.
  cbn [eq_str String.eqb Ascii.eqb Bool.eqb].
  unfold format_schema. cbn [format_schema_rec]. cbv zeta.
  assert (F : first_line float_repr py_eq i (indent + 1) (KStr "[]")
              = Ok (repeat_str "  " indent ++ "  []: object")).
  { unfold first_line. cbv zeta. rewrite T2, P.
    cbn [eq_str String.eqb Ascii.eqb Bool.eqb key_truthy negb key_string
         py_str bind].
    rewrite repeat_str_succ by exact N. rewrite string_app_assoc.
    reflexivity. }
  rewrite F, T2. cbn [bind eq_str String.eqb Ascii.eqb Bool.eqb andb].
  unfold get_or, has_key, get.
  destruct (lookup "_keys" i) as [keys|] eqn:Lk;
    [|cbn [py_items bind mapM join]; reflexivity].
  destruct keys as [| | | | | | |items]; try reflexivity.
  cbn [py_items bind].
  replace (indent + 1 + 1)%Z with (indent + 2)%Z by lia.
  rewrite (mapM_ext_in
             (fun kv => format_schema_rec float_repr py_eq (depth (VDict d))
                          (snd kv) (indent + 2) (fst kv))
             (fun kv => format_schema_rec float_repr py_eq (depth (VDict i))
                          (snd kv) (indent + 2) (fst kv))).
  - destruct (mapM _ items) as [rest|e]; [|reflexivity].
    cbn [bind join]. destruct rest; reflexivity.
  - intros [k x] I. cbn [fst snd].
    pose proof (depth_lookup _ _ _ L). pose proof (depth_lookup _ _ _ Lk).
    pose proof (depth_item _ _ _ I).
    apply format_rec_fuel; lia.
Qed.

End ArraysOfObjects.

Lemma object_items_as_any_items_witness :
  format_schema (fun _ => "nan") int_eq
    (VDict [ (KStr "_type", VStr "array"); (KStr "_length", VInt 2);
             (KStr "_items",
              VDict [ (KStr "_type", VStr "object");
                      (KStr "_keys",
                       VDict [ (KStr "id",
                                VDict [ (KStr "_type", VStr "integer") ]) ]) ]) ])
    0 (KStr "")
  = Ok ("array [2 items]" ++ line_feed ++ "  []: object" ++ line_feed
        ++ "    id: integer").
Proof.
  rewrite (object_items_as_any_items (fun _ => "nan") int_eq
             [ (KStr "_type", VStr "array"); (KStr "_length", VInt 2);
               (KStr "_items",
                VDict [ (KStr "_type", VStr "object");
                        (KStr "_keys",
                         VDict [ (KStr "id",
                                  VDict [ (KStr "_type",
                                           VStr "integer") ]) ]) ]) ]
             [ (KStr "_type", VStr "object");
               (KStr "_keys",
                VDict [ (KStr "id",
                         VDict [ (KStr "_type", VStr "integer") ]) ]) ]
             0 (KStr ""));
    [reflexivity|lia|reflexivity|reflexivity|reflexivity|reflexivity].
Defined.

(* ================================================================== *)
(** * Keys of arrays of objects *)
(* ================================================================== *)

Import MergeSpec.

Lemma has_key_In (d : dict) (k : key) :
  has_key d k = true <-> In k (map fst d).
Proof.
  unfold has_key. induction d as [|[k' v] d IH]; simpl.
  - split; [discriminate|tauto].
  - destruct (key_eqb k k') eqn:E.
    + apply key_eqb_eq in E. subst. tauto.
    + apply key_eqb_neq in E. rewrite IH. split; [tauto|].
      intros [H|H]; [congruence|exact H].
Qed.

Lemma count_of_counter_add (k k0 : key) (c : list (key * nat)) :
  count_of k (counter_add k0 c)
  = ((if key_eqb k k0 then 1 else 0) + count_of k c)%nat.
Proof.
  unfold count_of. induction c as [|[k1 n] c IH]; simpl.
  - destruct (key_eqb k k0); reflexivity.
  - destruct (key_eqb k0 k1) eqn:E01; simpl.
    + apply key_eqb_eq in E01. subst k1.
      destruct (key_eqb k k0); simpl; [reflexivity|].
      reflexivity.
    + destruct (key_eqb k k1) eqn:E1; simpl.
      * apply key_eqb_eq in E1. subst k1.
        assert (N : key_eqb k k0 = false).
        { apply key_eqb_neq. intro X. subst k0.
          rewrite key_eqb_refl in E01. discriminate. }
        now rewrite N.
      * exact IH.
Qed.

Lemma append_key_keys (k k0 : key) (s : value)
    (all_keys : list (key * list value)) :
  In k (map fst (append_key k0 s all_keys))
  <-> k = k0 \/ In k (map fst all_keys).
Proof.
  induction all_keys as [|[k1 l] rest IH]; simpl; [intuition|].
  destruct (key_eqb k0 k1) eqn:E; simpl.
  - apply key_eqb_eq in E. subst k1. intuition.
  - rewrite IH. intuition.
Qed.

Lemma append_key_NoDup (k0 : key) (s : value)
    (all_keys : list (key * list value)) :
  NoDup (map fst all_keys) -> NoDup (map fst (append_key k0 s all_keys)).
Proof.
  induction all_keys as [|[k1 l] rest IH]; simpl; intro N.
  - constructor; [tauto|constructor].
  - inversion N; subst. destruct (key_eqb k0 k1) eqn:E; simpl.
    + now constructor.
    + constructor; [|now apply IH].
      rewrite append_key_keys. intros [X|X]; [|contradiction].
      subst k1. rewrite key_eqb_refl in E. discriminate.
Qed.

(** The state of the first loop of the merger after the keys of some
    objects. *)
Lemma collect_items_state (items : list (key * value))
    (st : list (key * list value) * list (key * nat)) (k : key) :
  NoDup (map fst items) ->
  let st' := fold_left
               (fun st kv => (append_key (fst kv) (snd kv) (fst st),
                              counter_add (fst kv) (snd st)))
               items st in
  (In k (map fst (fst st'))
   <-> In k (map fst (fst st)) \/ In k (map fst items))
  /\ (NoDup (map fst (fst st)) -> NoDup (map fst (fst st')))
  /\ count_of k (snd st')
     = ((if has_key items k then 1 else 0) + count_of k (snd st))%nat.
Proof.
  revert st. induction items as [|[k0 v0] items IH]; intros st N; cbv zeta.
  - simpl. intuition.
  - inversion N as [|x xs Nx Nxs]; subst. cbn [fold_left fst snd].
    destruct (IH (append_key k0 v0 (fst st), counter_add k0 (snd st)) Nxs)
      as [K [D C]].
    cbv zeta in K, D, C. cbn [fst snd] in K, D, C.
    split; [|split].
    + rewrite K, append_key_keys. simpl. intuition.
    + intro N0. apply D. now apply append_key_NoDup.
    + rewrite C, count_of_counter_add. unfold has_key. cbn [lookup].
      destruct (key_eqb k k0) eqn:E.
      * apply key_eqb_eq in E. subst k0.
        assert (H : has_key items k = false).
        { destruct (has_key items k) eqn:H; [|reflexivity].
          apply has_key_In in H. contradiction. }
        unfold has_key in H. rewrite H. reflexivity.
      * lia.
Qed.

Lemma collect_keys_state (subss : list dict) :
  (forall subs, In subs subss -> NoDup (map fst subs)) ->
  (forall subs k v, In subs subss -> In (k, v) subs -> plain v) ->
  exists st,
    collect_keys (map object_schema subss) = Ok st
    /\ NoDup (map fst (fst st))
    /\ (forall k, In k (map fst (fst st))
                  <-> exists subs, In subs subss /\ In k (map fst subs))
    /\ (forall k, count_of k (snd st) = holders k subss)
    /\ grouped plain (fst st).
Proof.
  intros N P. unfold collect_keys.
  assert (G : forall st0,
             NoDup (map fst (fst st0)) -> grouped plain (fst st0) ->
             exists st,
               fold_left
                 (fun acc schema =>
                    st <- acc ;;
                    keys <- py_get schema "_keys" (VDict []) ;;
                    match keys with
                    | VDict items =>
                        Ok (fold_left
                              (fun st kv =>
                                 (append_key (fst kv) (snd kv) (fst st),
                                  counter_add (fst kv) (snd st)))
                              items st)
                    | _ => Raise AttributeError
                    end) (map object_schema subss) (Ok st0) = Ok st
               /\ NoDup (map fst (fst st))
               /\ (forall k, In k (map fst (fst st))
                             <-> In k (map fst (fst st0))
                                 \/ exists subs, In subs subss
                                                 /\ In k (map fst subs))
               /\ (forall k, count_of k (snd st)
                             = (holders k subss + count_of k (snd st0))%nat)
               /\ grouped plain (fst st)).
  { induction subss as [|subs subss IH]; intros st0 N0 G0.
    - exists st0. split; [reflexivity|]. split; [exact N0|].
      split; [|split; [reflexivity|exact G0]].
      intro k. split; [now left|]. intros [H|[subs [[] _]]]. exact H.
    - cbn [map fold_left bind py_get object_schema get_or lookup key_eqb
           String.eqb Ascii.eqb Bool.eqb].
      set (st1 := fold_left
                    (fun st kv => (append_key (fst kv) (snd kv) (fst st),
                                   counter_add (fst kv) (snd st)))
                    subs st0).
      assert (N1 : NoDup (map fst (fst st1))).
      { exact (proj1 (proj2 (collect_items_state subs st0 KNone
                               (N subs (or_introl eq_refl)))) N0). }
      assert (G1 : grouped plain (fst st1)).
      { unfold st1. clear - G0 P.
        assert (Q : forall k v, In (k, v) subs -> plain v).
        { intros k v I. exact (P subs k v (or_introl eq_refl) I). }
        clear P. revert st0 G0.
        induction subs as [|[k0 v0] subs IHs]; intros st0 G0; [exact G0|].
        cbn [fold_left fst snd]. apply IHs.
        - intros k v I. apply (Q k v). now right.
        - cbn [fst]. intros k ks x I Ix.
          destruct (append_key_In _ _ _ _ _ _ I Ix) as [E|[ks0 [I1 I2]]].
          + subst x. apply (Q k0 v0). now left.
          + exact (G0 k ks0 x I1 I2). }
      destruct (IH (fun s I => N s (or_intror I))
                  (fun s k v I => P s k v (or_intror I)) st1 N1 G1)
        as [st [F [Nd [K [C Gr]]]]].
      exists st. split; [exact F|]. split; [exact Nd|].
      split; [|split; [|exact Gr]].
      + intro k.
        pose proof (collect_items_state subs st0 k
                      (N subs (or_introl eq_refl))) as S1.
        cbv zeta in S1. fold st1 in S1. destruct S1 as [K1 _].
        rewrite K, K1. split.
        * intros [[H|H]|[s [I H]]]; [now left| |].
          -- right. exists subs. split; [now left|exact H].
          -- right. exists s. split; [now right|exact H].
        * intros [H|[s [[E|I] H]]]; [left; now left| |].
          -- subst s. left. now right.
          -- right. now exists s.
      + intro k.
        pose proof (collect_items_state subs st0 k
                      (N subs (or_introl eq_refl))) as S1.
        cbv zeta in S1. fold st1 in S1. destruct S1 as [_ [_ C1]].
        rewrite C, C1. unfold holders. cbn [filter].
        destruct (has_key subs k); cbn [List.length]; lia. }
  destruct (G ([], [])) as [st [F [Nd [K [C Gr]]]]].
  - constructor.
  - intros k ks x [].
  - exists st. split; [exact F|]. split; [exact Nd|].
    split; [|split; [|exact Gr]].
    + intro k. rewrite K. simpl. tauto.
    + intro k. rewrite C. unfold count_of. simpl. lia.
Qed.

Lemma merge_string_unmarked (schemas : list value) (m : dict) :
  merge_string_schemas schemas = Ok m -> lookup "_presence" m = None.
Proof.
  unfold merge_string_schemas. destruct schemas as [|s0 schemas0].
  { intro H. inversion H. reflexivity. }
  remember (s0 :: schemas0) as schemas eqn:Es. clear Es s0 schemas0.
  destruct (mapM _ schemas) as [format_keys|]; [|discriminate].
  cbn [bind].
  destruct (mapM _ schemas) as [lengths|]; [|discriminate].
  cbn [bind]. cbv zeta.
  generalize (VInt (min_list (hd 0%Z lengths) (tl lengths))) as lo.
  generalize (VInt (max_list (hd 0%Z lengths) (tl lengths))) as hi.
  intros hi lo.
  destruct (mapM _ (filter _ schemas)) as [enum_values|]; [|discriminate].
  cbn [bind].
  assert (R : forall result : dict,
             lookup "_presence" result = None ->
             match enum_values with
             | [] => Ok result
             | _ :: _ =>
                 values <- mapM as_str enum_values ;;
                 if (List.length (sorted_set values) <=? 10)%nat
                 then Ok (dict_set "_enum_values"
                            (VList (map VStr (sorted_set values))) result)
                 else Ok result
             end = Ok m -> lookup "_presence" m = None).
  { intros result P H.
    destruct enum_values as [|e es]; [inversion H; now subst|].
    destruct (mapM as_str (e :: es)) as [values|]; [|discriminate H].
    cbn [bind] in H.
    destruct (List.length (sorted_set values) <=? 10)%nat;
      inversion H; [|now subst].
    rewrite lookup_dict_set_other; [exact P|discriminate]. }
  destruct (Counter format_keys) as [|[fmt n] [|p more]].
  - apply R. reflexivity.
  - destruct (key_truthy fmt); apply R; reflexivity.
  - apply R. reflexivity.
Qed.

Lemma merge_rec_shape (fuel : nat) (schemas : list value) (m : dict) :
  merge_object_schemas_rec fuel schemas = Ok m ->
  exists merged_keys,
    m = [ (KStr "_type", VStr "object"); (KStr "_keys", VDict merged_keys) ].
Proof.
  destruct fuel as [|fuel]; [discriminate|].
  cbn [merge_object_schemas_rec]. destruct schemas as [|s0 schemas0].
  { intro H. inversion H. now eexists. }
  intro H. apply bind_ok_inv in H. destruct H as [st [_ H]].
  apply bind_ok_inv in H. destruct H as [merged_keys [_ H]].
  inversion H. now eexists.
Qed.

Lemma plain_object_inv (x : value) :
  plain x ->
  forall d, x = VDict d -> get d "_type" = VStr "object" ->
            exists items, get_or d "_keys" (VDict []) = VDict items
                          /\ forall k v, In (k, v) items -> well_formed v.
Proof.
  intros [W _] d E T. subst x. exact (wf_object_inv d W T).
Qed.

Lemma max_depth_lt (vs : list value) (n : nat) :
  vs <> [] -> (forall x, In x vs -> (depth x < n)%nat) ->
  (max_depth vs < n)%nat.
Proof.
  intros Ne H. unfold max_depth.
  induction vs as [|v vs IH]; [contradiction|]. simpl.
  pose proof (H v (or_introl eq_refl)).
  destruct vs as [|w vs]; [simpl; lia|].
  specialize (IH ltac:(discriminate) (fun x I => H x (or_intror I))). lia.
Qed.

(** One key of the second loop of the merger, before the mark. *)
Lemma merge_step_plain (fuel : nat) (key_schemas : list value) :
  (forall x, In x key_schemas -> plain x) ->
  (forall x, In x key_schemas -> (depth x < fuel)%nat) ->
  exists d,
    match key_schemas with
    | [only] => Ok only
    | _ =>
        types <- mapM (fun s => t <- py_get s "_type" VNone ;; as_key t)
                   key_schemas ;;
        match Counter types with
        | [(t, _)] =>
            if key_eqb t "string" then
              m <- merge_string_schemas key_schemas ;; Ok (VDict m)
            else if key_eqb t "object" then
              m <- merge_object_schemas_rec fuel key_schemas ;; Ok (VDict m)
            else Ok (hd VNone key_schemas)
        | c => Ok (VDict [ (KStr "_type", VStr "mixed");
                           (KStr "_types", counter_dict c) ])
        end
    end = Ok (VDict d)
    /\ lookup "_presence" d = None.
Proof.
  intros P D.
  assert (W : forall x, In x key_schemas -> well_formed x).
  { intros x I. exact (proj1 (P x I)). }
  assert (First : forall x, In x key_schemas ->
                    exists d, x = VDict d /\ lookup "_presence" d = None).
  { intros x I. exact (proj2 (P x I)). }
  destruct key_schemas as [|s1 [|s2 rest]].
  - cbn. eexists. split; reflexivity.
  - destruct (First s1 (or_introl eq_refl)) as [d [E U]].
    exists d. split; [now subst|exact U].
  - remember (s1 :: s2 :: rest) as ks eqn:Ek.
    destruct (types_of_schemas ks W) as [types [Et Ty]].
    rewrite Et. cbn [bind].
    destruct (Counter types) as [|[t n] [|p more]] eqn:Ec.
    + eexists. split; reflexivity.
    + assert (All : forall d, In (VDict d) ks ->
                 exists s, t = KStr s /\ get d "_type" = VStr s).
      { intros d Id. destruct (Ty d Id) as [s [Is T]].
        exists s. split; [|exact T]. symmetry.
        exact (Counter_single types t n Ec _ Is). }
      destruct (key_eqb t "string") eqn:Ks.
      { apply key_eqb_eq in Ks. subst t.
        destruct (merge_string_schemas_ok ks) as [m [Em _]].
        { intros s Is. destruct (wf_type s (W s Is)) as [d [t [Ed _]]].
          subst s. exists d. split; [reflexivity|].
          destruct (All d Is) as [s [Es' T]]. inversion Es'; subst s.
          exact (wf_string_inv d (W _ Is) T). }
        rewrite Em. cbn [bind]. exists m. split; [reflexivity|].
        exact (merge_string_unmarked ks m Em). }
      destruct (key_eqb t "object") eqn:Ko.
      { apply key_eqb_eq in Ko. subst t.
        destruct (merge_rec_ok fuel ks) as [m [Em _]].
        { apply max_depth_lt; [subst ks; discriminate|exact D]. }
        { intros s Is. destruct (wf_type s (W s Is)) as [d [t [Ed _]]].
          subst s. exists d.
          destruct (All d Is) as [s [Es' T]]. inversion Es'; subst s.
          destruct (wf_object_inv d (W _ Is) T) as [items [K A]].
          now exists items. }
        rewrite Em. cbn [bind]. exists m. split; [reflexivity|].
        destruct (merge_rec_shape fuel ks m Em) as [mk E]. now subst m. }
      destruct (First s1) as [d [E U]]; [subst ks; now left|].
      exists d. subst ks. cbn [hd]. split; [now subst|exact U].
    + eexists. split; reflexivity.
Qed.

Lemma fold_fresh_entries {B} (P : key * B -> value -> Prop)
    (step : result dict -> key * B -> result dict)
    (entries : list (key * B)) (acc : dict) :
  (forall e a, In e entries ->
               exists v, P e v /\ step (Ok a) e = Ok (dict_set (fst e) v a)) ->
  NoDup (map fst acc ++ map fst entries) ->
  exists out,
    fold_left step entries (Ok acc) = Ok (acc ++ out)%list
    /\ map fst out = map fst entries
    /\ forall k v, In (k, v) out ->
                   exists e, In e entries /\ fst e = k /\ P e v.
Proof.
  revert acc. induction entries as [|e entries IH]; intros acc H N.
  - exists []. split; [simpl; now rewrite app_nil_r|]. split; [reflexivity|].
    intros k v [].
  - destruct (H e acc (or_introl eq_refl)) as [v [Pv E]].
    cbn [fold_left]. rewrite E. rewrite dict_set_fresh.
    + destruct (IH (acc ++ [(fst e, v)])%list) as [out [F [K A]]].
      * intros e' a I. apply H. now right.
      * rewrite map_app. cbn [map]. rewrite <- app_assoc. exact N.
      * exists ((fst e, v) :: out). split; [|split].
        -- rewrite F, <- app_assoc. reflexivity.
        -- cbn [map fst]. now rewrite K.
        -- intros k x [I|I].
           ++ inversion I; subst. exists e. split; [now left|]. now split.
           ++ destruct (A k x I) as [e' [I' [E' P']]]. exists e'.
              split; [now right|]. now split.
    + cbn [map] in N. apply NoDup_remove_2 in N. intro I. apply N.
      apply in_or_app. now left.
Qed.

Lemma merge_plain_objects (fuel : nat) (subss : list dict) :
  subss <> [] ->
  (max_depth (map object_schema subss) < fuel)%nat ->
  (forall subs, In subs subss -> NoDup (map fst subs)) ->
  (forall subs k v, In subs subss -> In (k, v) subs -> plain v) ->
  exists merged_keys,
    merge_object_schemas_rec fuel (map object_schema subss)
    = Ok [ (KStr "_type", VStr "object"); (KStr "_keys", VDict merged_keys) ]
    /\ NoDup (map fst merged_keys)
    /\ (forall k, In k (map fst merged_keys)
                  <-> exists subs, In subs subss /\ In k (map fst subs))
    /\ (forall k v, In (k, v) merged_keys ->
          exists d, v = VDict d
                    /\ lookup "_presence" d
                       = presence_mark (holders k subss) (List.length subss)).
Proof.
  intros Ne D N P. destruct fuel as [|fuel]; [lia|].
  cbn [merge_object_schemas_rec].
  destruct (map object_schema subss) as [|s0 rest] eqn:Em.
  { destruct subss; [contradiction|discriminate Em]. }
  rewrite <- Em in *. clear Em s0 rest.
  destruct (collect_keys_state subss N P) as [st [C [Nd [K [Cn G]]]]].
  rewrite C. cbn [bind].
  pose proof (collect_keys_shallow _ st C) as Sh.
  cbv zeta. rewrite length_map.
  match goal with
  | |- context [fold_left ?f (fst st) (Ok [])] => set (step := f)
  end.
  destruct (fold_fresh_entries
              (fun e v => exists d,
                   v = VDict d
                   /\ lookup "_presence" d
                      = presence_mark (count_of (fst e) (snd st))
                          (List.length subss))
              step (fst st) []) as [out [F [Ko A]]].
  { intros [key key_schemas] a I. unfold step. cbn [bind fst snd].
    destruct (merge_step_plain fuel key_schemas) as [d [M U]].
    - intros x Ix. exact (G key key_schemas x I Ix).
    - intros x Ix. pose proof (Sh key key_schemas x I Ix). lia.
    - rewrite M. cbn [bind]. unfold presence_mark.
      destruct (count_of key (snd st) <? List.length subss)%nat;
        cbn [set_item bind].
      + eexists. split; [|reflexivity]. eexists. split; [reflexivity|].
        apply lookup_dict_set_same.
      + eexists. split; [|reflexivity]. exists d. now split. }
  { exact Nd. }
  cbn [app] in F.
  eexists.
  match goal with
  | |- context [bind ?X _] =>
      replace X with (@Ok dict out) by (symmetry; exact F)
  end.
  cbn [bind]. split; [reflexivity|]. split; [|split].
  - rewrite Ko. exact Nd.
  - intro k. rewrite Ko. apply K.
  - intros k v I. destruct (A k v I) as [[k' ks] [_ [E [d [Ev Pr]]]]].
    cbn [fst] in E, Pr. subst k'. exists d. split; [exact Ev|].
    now rewrite <- Cn.
Qed.

Lemma infer_schema_unmarked (obj : value) (samples : Z) (path : string)
    (schema : dict) :
  infer_schema obj samples path = Ok schema ->
  lookup "_presence" schema = None.
Proof.
  destruct obj as [| | | |s|xs|xs|items]; cbn [infer_schema]; intro H;
    try (inversion H; reflexivity).
  - inversion H.
    destruct (classify_string_shape s) as [[E|[f E]]|[E _]]; rewrite E;
      reflexivity.
  - destruct xs as [|x xs]; [inversion H; reflexivity|].
    apply bind_ok_inv in H. destruct H as [item_schemas [_ H]].
    apply bind_ok_inv in H. destruct H as [item_types [_ H]].
    destruct (Counter item_types) as [|[t c] [|p rest]].
    + destruct item_schemas; [discriminate H|inversion H; reflexivity].
    + destruct (key_eqb t "object").
      { apply bind_ok_inv in H. destruct H as [m [_ H]].
        inversion H. reflexivity. }
      destruct (key_eqb t "string").
      { apply bind_ok_inv in H. destruct H as [m [_ H]].
        inversion H. reflexivity. }
      inversion H. reflexivity.
    + destruct item_schemas; [discriminate H|inversion H; reflexivity].
  - apply bind_ok_inv in H. destruct H as [keys [_ H]].
    inversion H. reflexivity.
Qed.

Lemma infer_objects (objs : list dict) (samples : Z) (path : string)
    (item_schemas : list dict) :
  objs <> [] ->
  (Z.of_nat (List.length objs) <= samples)%Z ->
  sequence (map (fun o => infer_schema (VDict o) samples (path ++ "[]")) objs)
  = Ok item_schemas ->
  infer_schema (VList (map VDict objs)) samples path
  = (m <- merge_object_schemas (map VDict item_schemas) ;;
     Ok [ (KStr "_type", VStr "array");
          (KStr "_length", VInt (Z.of_nat (List.length objs)));
          (KStr "_items", VDict m) ]).
Proof.
  intros N S Sq. destruct objs as [|o0 objs0]; [contradiction|].
  remember (o0 :: objs0) as objs eqn:Es.
  assert (C : infer_schema (VList (map VDict objs)) samples path
              = (item_schemas <-
                   sequence
                     (take_map
                        (fun item => infer_schema item samples (path ++ "[]"))
                        (slice_stop samples (List.length (map VDict objs)))
                        (map VDict objs)) ;;
                 item_types <- mapM (fun s => as_key (get s "_type"))
                                 item_schemas ;;
                 match Counter item_types with
                 | [(t, _)] =>
                     if key_eqb t "object" then
                       m <- merge_object_schemas (map VDict item_schemas) ;;
                       Ok (dict_set "_items" (VDict m)
                             [ (KStr "_type", VStr "array");
                               (KStr "_length",
                                VInt (Z.of_nat (List.length (map VDict objs)))) ])
                     else if key_eqb t "string" then
                       m <- merge_string_schemas (map VDict item_schemas) ;;
                       Ok (dict_set "_items" (VDict m)
                             [ (KStr "_type", VStr "array");
                               (KStr "_length",
                                VInt (Z.of_nat (List.length (map VDict objs)))) ])
                     else
                       Ok (dict_set "_items" (VDict (hd [] item_schemas))
                             [ (KStr "_type", VStr "array");
                               (KStr "_length",
                                VInt (Z.of_nat (List.length (map VDict objs)))) ])
                 | type_counts =>
                     match item_schemas with
                     | [] => Raise IndexError
                     | first :: _ =>
                         Ok (dict_set "_items" (VDict first)
                               (dict_set "_item_types" (counter_dict type_counts)
                                  [ (KStr "_type", VStr "array");
                                    (KStr "_length",
                                     VInt (Z.of_nat
                                             (List.length (map VDict objs)))) ]))
                     end
                 end)).
  { subst objs. reflexivity. }
  rewrite C. clear C. rewrite length_map.
  rewrite take_map_all.
  2:{ rewrite length_map. unfold slice_stop.
      destruct (0 <=? samples)%Z eqn:L; [|apply Z.leb_gt in L; lia].
      unfold dict in *. apply Nat.min_glb; lia. }
  rewrite map_map. rewrite Sq. cbn [bind].
  assert (Tk : mapM (fun s => as_key (get s "_type")) item_schemas
               = Ok (map (fun _ => KStr "object") item_schemas)).
  { apply sequence_Forall2 in Sq. clear - Sq.
    induction Sq as [|o s objs ss E _ IH]; simpl; [reflexivity|].
    rewrite (infer_schema_type _ _ _ _ E). simpl. now rewrite IH. }
  rewrite Tk. cbn [bind].
  assert (Len : item_schemas <> []).
  { apply sequence_Forall2 in Sq. subst objs. inversion Sq. discriminate. }
  rewrite (Counter_constant "object").
  - cbn [key_eqb String.eqb Ascii.eqb Bool.eqb].
    destruct (merge_object_schemas _); reflexivity.
  - destruct item_schemas; [contradiction|discriminate].
  - intros x I. apply in_map_iff in I. now destruct I as [y [E _]].
Qed.

Lemma has_key_same_keys (d e : dict) (k : key) :
  map fst d = map fst e -> has_key d k = has_key e k.
Proof.
  intro E. destruct (has_key d k) eqn:H.
  - symmetry. apply has_key_In. rewrite <- E. now apply has_key_In.
  - destruct (has_key e k) eqn:H'; [|reflexivity].
    apply has_key_In in H'. rewrite <- E in H'. apply has_key_In in H'.
    congruence.
Qed.

(** The schemas of the sampled objects, as the array branch of
    [infer_schema] hands them to the merger. *)
Lemma object_item_schemas (objs : list dict) (samples : Z) (path : string) :
  (1 <= samples)%Z ->
  (forall o, In o objs -> NoDup (map fst o)) ->
  exists subss,
    sequence (map (fun o => infer_schema (VDict o) samples path) objs)
    = Ok (map (fun subs => [ (KStr "_type", VStr "object");
                             (KStr "_keys", VDict subs) ]) subss)
    /\ Forall2 (fun o subs => map fst subs = map fst o) objs subss
    /\ forall subs k v, In subs subss -> In (k, v) subs -> plain v.
Proof.
  intros S N. unfold sequence.
  induction objs as [|o objs IH].
  - exists []. split; [reflexivity|]. split; [constructor|].
    intros subs k v [].
  - destruct IH as [subss [E [F P]]]; [intros x I; apply N; now right|].
    destruct (infer_schema_ok _ (VDict o) (Nat.le_refl _) samples path S)
      as [schema [Es _]].
    destruct (infer_object_subs o samples path schema
                (N o (or_introl eq_refl)) Es) as [subs [Eq [K Sub]]].
    exists (subs :: subss). cbn [map mapM]. rewrite Es, E. cbn [bind].
    split; [now rewrite Eq|]. split; [now constructor|].
    intros subs' k v [I|I] Iv; [subst subs'|exact (P subs' k v I Iv)].
    clear - Sub Iv S.
    induction Sub as [|kv sub items subs R _ IHs]; [destruct Iv|].
    destruct Iv as [Iv|Iv]; [|exact (IHs Iv)].
    subst sub. destruct R as [s [Es Ev]]. cbn [snd] in Ev. subst v.
    split.
    + destruct (infer_schema_ok _ (snd kv) (Nat.le_refl _) samples
                  (path ++ "." ++ key_string (fst kv)) S) as [s' [Es' W]].
      rewrite Es in Es'. inversion Es'. now subst s'.
    + exists s. split; [reflexivity|].
      exact (infer_schema_unmarked _ _ _ _ Es).
Qed.

(** In the embedding, the array branch on objects that are sampled
    whole. *)
Lemma object_array_merged (objs : list dict) (samples : Z) (path : string) :
  objs <> [] ->
  (Z.of_nat (List.length objs) <= samples)%Z ->
  (forall o, In o objs -> NoDup (map fst o)) ->
  exists merged_keys,
    infer_schema (VList (map VDict objs)) samples path
    = Ok [ (KStr "_type", VStr "array");
           (KStr "_length", VInt (Z.of_nat (List.length objs)));
           (KStr "_items", object_schema merged_keys) ]
    /\ NoDup (map fst merged_keys)
    /\ (forall k, In k (map fst merged_keys)
                  <-> exists o, In o objs /\ has_key o k = true)
    /\ (forall k v, In (k, v) merged_keys ->
          exists d, v = VDict d
                    /\ lookup "_presence" d
                       = presence_mark (holders k objs) (List.length objs)).
Proof.
  intros Ne S N.
  assert (S1 : (1 <= samples)%Z).
  { destruct objs; [contradiction|]. simpl List.length in S. lia. }
  destruct (object_item_schemas objs samples (path ++ "[]") S1 N)
    as [subss [Sq [F P]]].
  rewrite (infer_objects objs samples path _ Ne S Sq).
  match goal with
  | |- context [merge_object_schemas ?X] =>
      replace X with (map object_schema subss)
        by (rewrite map_map; reflexivity)
  end.
  assert (Nes : subss <> []).
  { destruct F; [contradiction|discriminate]. }
  assert (Ns : forall subs, In subs subss -> NoDup (map fst subs)).
  { clear - F N. induction F as [|o subs objs subss E _ IH];
      intros s I; [destruct I|].
    destruct I as [I|I].
    - subst s. rewrite E. apply N. now left.
    - apply IH; [|exact I]. intros x Ix. apply N. now right. }
  destruct (merge_plain_objects (Datatypes.S (depth (VList (map object_schema subss))))
              subss Nes) as [merged_keys [M [Nd [K Pr]]]].
  { rewrite depth_list. lia. }
  { exact Ns. }
  { exact P. }
  unfold merge_object_schemas. rewrite M. cbn [bind].
  exists merged_keys. split; [reflexivity|]. split; [exact Nd|].
  assert (H : forall k, holders k subss = holders k objs).
  { intro k. unfold holders. clear - F.
    induction F as [|o subs objs subss E _ IH]; [reflexivity|].
    cbn [filter]. rewrite (has_key_same_keys subs o k E).
    destruct (has_key o k); cbn [List.length]; now rewrite IH. }
  assert (L : List.length subss = List.length objs).
  { clear - F. induction F; simpl; congruence. }
  split.
  - intro k. rewrite K. clear - F. split.
    + intros [subs [I Ik]].
      induction F as [|o s objs subss E _ IH]; [destruct I|].
      destruct I as [I|I].
      * subst s. exists o. split; [now left|].
        apply has_key_In. now rewrite <- E.
      * destruct (IH I) as [o' [Io Ho]]. exists o'. split; [now right|exact Ho].
    + intros [o [I Ho]].
      induction F as [|o' s objs subss E _ IH]; [destruct I|].
      destruct I as [I|I].
      * subst o'. exists s. split; [now left|].
        rewrite E. now apply has_key_In.
      * destruct (IH I) as [s' [Is Hs]]. exists s'. split; [now right|exact Hs].
  - intros k v I. destruct (Pr k v I) as [d [E Pd]]. exists d.
    split; [exact E|]. now rewrite <- H, <- L.
Qed.

(** X28.  For an array of objects that is sampled whole (objects with
    distinct keys, as every parsed object has), the schema that
    [infer_schema] returns has as [_items] an object schema whose keys are
    the keys of the objects, each once; a key that some object lacks
    carries [_presence], the share of the objects that have it as a
    percentage, and a key that every object has carries no [_presence]. *)
Theorem object_array_keys (objs : list dict) (samples : Z) (path : string)
    (schema : dict) :
  objs <> [] ->
  (Z.of_nat (List.length objs) <= samples)%Z ->
  (forall o, In o objs -> NoDup (map fst o)) ->
  infer_schema (VList (map VDict objs)) samples path = Ok schema ->
  exists merged_keys,
    schema = [ (KStr "_type", VStr "array");
               (KStr "_length", VInt (Z.of_nat (List.length objs)));
               (KStr "_items", object_schema merged_keys) ]
    /\ NoDup (map fst merged_keys)
    /\ (forall k, In k (map fst merged_keys)
                  <-> exists o, In o objs /\ has_key o k = true)
    /\ (forall k v, In (k, v) merged_keys ->
          exists d, v = VDict d
                    /\ lookup "_presence" d
                       = presence_mark (holders k objs) (List.length objs)).
Proof.
  intros Ne S N E.
  destruct (object_array_merged objs samples path Ne S N)
    as [merged_keys [E' R]].
  rewrite E in E'. inversion E'. now exists merged_keys.
Qed.

Lemma object_array_keys_witness :
  exists merged_keys,
    [ (KStr "_type", VStr "array"); (KStr "_length", VInt 2);
      (KStr "_items",
       object_schema
         [ (KStr "id",
            VDict [ (KStr "_type", VStr "integer");
                    (KStr "_example_range", VTuple [VInt 1; VInt 1]) ]);
           (KStr "tag",
            VDict [ (KStr "_type", VStr "null");
                    (KStr "_presence", VStr "50%") ]) ]) ]
    = [ (KStr "_type", VStr "array");
        (KStr "_length",
         VInt (Z.of_nat (List.length [ [ (KStr "id", VInt 1) ];
                                       [ (KStr "id", VInt 2);
                                         (KStr "tag", VNone) ] ])));
        (KStr "_items", object_schema merged_keys) ]
    /\ NoDup (map fst merged_keys)
    /\ (forall k, In k (map fst merged_keys)
                  <-> exists o, In o [ [ (KStr "id", VInt 1) ];
                                       [ (KStr "id", VInt 2);
                                         (KStr "tag", VNone) ] ]
                                /\ has_key o k = true)
    /\ (forall k v, In (k, v) merged_keys ->
          exists d, v = VDict d
                    /\ lookup "_presence" d
                       = presence_mark
                           (holders k [ [ (KStr "id", VInt 1) ];
                                        [ (KStr "id", VInt 2);
                                          (KStr "tag", VNone) ] ])
                           (List.length [ [ (KStr "id", VInt 1) ];
                                          [ (KStr "id", VInt 2);
                                            (KStr "tag", VNone) ] ])).
Proof.
  apply (object_array_keys
           [ [ (KStr "id", VInt 1) ];
             [ (KStr "id", VInt 2); (KStr "tag", VNone) ] ] 5 "$").
  - discriminate.
  - simpl. lia.
  - intros o [I|[I|[]]]; subst o; repeat constructor; simpl;
      intuition discriminate.
  - vm_compute. reflexivity.
Defined.

(** ** Single files *)

(** X29.  Inspecting a single file that is not [.jsonl], whatever its
    name: an exception of [open] or [json.load] ([JSONDecodeError], but
    also [ValueError], [UnicodeDecodeError], an [OSError]) leaves the
    inspector as it is; when [json.load] returns, the inspector does what
    [infer_schema] does on the data, the schema being wrapped with the
    file's name, size and format ["json"]; and with a sample size of at
    least one it then raises no [IndexError], [TypeError], [KeyError] or
    [AttributeError]. *)
Theorem file_inspection_errors (f : disk_file) (samples : Z) :
  is_jsonl f = false ->
  (forall e, whole f = Raise e -> inspect_json_file f samples = Raise e)
  /\ (forall data,
        whole f = Ok data ->
        inspect_json_file f samples
        = (schema <- infer_schema data samples "$" ;;
           Ok [ (KStr "file", VStr (name f));
                (KStr "size_bytes", VInt (st_size f));
                (KStr "format", VStr "json");
                (KStr "schema", VDict schema) ]))
  /\ (forall data e,
        (1 <= samples)%Z -> whole f = Ok data -> own_error e = true ->
        inspect_json_file f samples <> Raise e).
Proof.
  intro J. rewrite (inspect_whole_file f samples J). split; [|split].
  - intros e W. now rewrite W.
  - intros data W. now rewrite W.
  - intros data e S W _. rewrite W. cbn [bind].
    destruct (infer_schema_ok _ data (Nat.le_refl _) samples "$" S)
      as [schema [E _]].
    rewrite E. discriminate.
Qed.

Lemma file_inspection_errors_witness :
  inspect_json_file
    (DiskFile "export.txt" 9
       (Raise (UnicodeDecodeError "invalid start byte")) [] None) 5
  = Raise (UnicodeDecodeError "invalid start byte").
Proof.
  apply (proj1 (file_inspection_errors
                  (DiskFile "export.txt" 9
                     (Raise (UnicodeDecodeError "invalid start byte"))
                     [] None) 5 eq_refl)).
  reflexivity.
Defined.
